(** * CS-330 final project: Scene Manager and View Manager

    A shallow embedding of [SceneManager.cpp], [SceneManager.h] and
    [ViewManager.cpp], and the properties of the texture registry, the
    light slots, the per-draw uniform pushes and the projection choice.

    Conventions of the embedding.
    - A C++ [float] is read as a real number and the structure of
      every computation is kept. Where the code narrows a value to
      single precision and digits that matter can be lost, the rounding
      is written out with [Float32.to_float]: a [double] converted to
      [float] (clock readings, mouse positions), the differences the
      ViewManager takes of such values, and GLM's degrees-to-radians
      product. The sums and products inside GLM's matrices are taken
      over the reals, so matrix entries are those of the code up to
      the rounding of the last place. Infinities and NaN are left out.
    - [int] and [GLuint] are integers ([Z]); the one conversion the code
      performs between them ([FindTextureID] returns a [GLuint] as an
      [int]) is written out with its wrap-around.
    - The fixed arrays [m_textureIDs[128]] and [m_lightSources[4]] are
      lists of that length, read and written by index; a write past
      the end is a separate outcome, like a null dereference.
    - Calls into OpenGL, GLFW, stb_image, the mesh library and the
      ShaderManager are recorded as events, in program order. *)

From Stdlib Require Import ZArith String List Reals Lra Lia DecimalString.
From stdpp Require Import base list.

Local Open Scope Z_scope.
Local Open Scope string_scope.

(** ** Single precision

    The finite values of a C++ [float] (IEEE 754 binary32) are the
    reals [m * 2^e] with [|m| < 2^24] and [-149 <= e <= 104]. A
    [double] converted to [float], and the exact result of an
    operation on floats, is rounded to the nearest of them, to the
    one with the even significand at a tie. Values beyond the
    largest float, which the machine turns into an infinity, are
    outside this reading. *)

Module Float32.

Local Open Scope R_scope.

Definition pow2 (e : Z) : R := powerRZ 2 e.

(** The exponent of the unit in the last place around a magnitude
    [a]: the least [e >= -149] with [a < 2^(e+24)], searched upwards
    from the subnormal exponent. *)
Fixpoint ulp_exponent_from (fuel : nat) (e : Z) (a : R) : Z :=
  match fuel with
  | O => e
  | S fuel' =>
      if Rlt_dec a (pow2 (e + 24)) then e else ulp_exponent_from fuel' (e + 1) a
  end.

Definition ulp_exponent (x : R) : Z := ulp_exponent_from 253 (-149) (Rabs x).

(** The integer nearest to [r], the even one at a tie. *)
Definition nearest_even (r : R) : Z :=
  let n := Int_part r in
  match total_order_T (r - IZR n) (1 / 2) with
  | inleft (left _) => n
  | inleft (right _) => if Z.even n then n else (n + 1)%Z
  | inright _ => (n + 1)%Z
  end.

(** [static_cast<float>(x)], and the rounding of a float operation
    whose exact result is [x]. *)
Definition to_float (x : R) : R :=
  let e := ulp_exponent x in
  IZR (nearest_even (x / pow2 e)) * pow2 e.

(** The largest float, and the values the conversion keeps finite. *)
Definition FLT_MAX : R := IZR (2 ^ 24 - 1) * pow2 104.

Definition float_range (x : R) : Prop := Rabs x <= FLT_MAX.

End Float32.

(** ** GLM: the vector and matrix operations the two managers call

    GLM is a header library outside this repository. The functions
    below follow its [translate], [rotate], [scale], [ortho] and
    [perspective] (right-handed, depth range -1 to 1) and its
    column-major [mat4] product, over the reals; [radians] rounds as
    GLM's does on a [float]. *)

Module glm.

Local Open Scope R_scope.

Record vec2 := Vec2 { x2 : R; y2 : R }.
Record vec3 := Vec3 { x3 : R; y3 : R; z3 : R }.
Record vec4 := Vec4 { x4 : R; y4 : R; z4 : R; w4 : R }.

(** [glm::mat4] is column-major: [m[i]] is column [i]. *)
Record mat4 := Mat4 { col0 : vec4; col1 : vec4; col2 : vec4; col3 : vec4 }.

Definition vec3_add (a b : vec3) : vec3 :=
  Vec3 (x3 a + x3 b) (y3 a + y3 b) (z3 a + z3 b).

Definition vec3_scale (k : R) (a : vec3) : vec3 :=
  Vec3 (k * x3 a) (k * y3 a) (k * z3 a).

Definition vec4_add (a b : vec4) : vec4 :=
  Vec4 (x4 a + x4 b) (y4 a + y4 b) (z4 a + z4 b) (w4 a + w4 b).

(** [v * k] for a column [v] and a scalar [k]. *)
Definition vec4_scale (a : vec4) (k : R) : vec4 :=
  Vec4 (x4 a * k) (y4 a * k) (z4 a * k) (w4 a * k).

(** [glm::mat4(d)]: [d] on the diagonal. *)
Definition mat4_diag (d : R) : mat4 :=
  Mat4 (Vec4 d 0 0 0) (Vec4 0 d 0 0) (Vec4 0 0 d 0) (Vec4 0 0 0 d).

Definition mat4_identity : mat4 := mat4_diag 1.

(** [m1 * m2]: column [j] of the product is [m1] applied to column [j]
    of [m2]. *)
Definition mat4_apply (m : mat4) (v : vec4) : vec4 :=
  vec4_add
    (vec4_add
       (vec4_add (vec4_scale (col0 m) (x4 v)) (vec4_scale (col1 m) (y4 v)))
       (vec4_scale (col2 m) (z4 v)))
    (vec4_scale (col3 m) (w4 v)).

Definition mat4_mul (m1 m2 : mat4) : mat4 :=
  Mat4 (mat4_apply m1 (col0 m2)) (mat4_apply m1 (col1 m2))
       (mat4_apply m1 (col2 m2)) (mat4_apply m1 (col3 m2)).

(** [glm::radians] on a [float]:
    [degrees * static_cast<float>(0.01745329251994329576923690768489)],
    a float product. *)
Definition radians (degrees : R) : R :=
  Float32.to_float
    (degrees * Float32.to_float 0.01745329251994329576923690768489).

Definition dot (a b : vec3) : R := x3 a * x3 b + y3 a * y3 b + z3 a * z3 b.

Definition inversesqrt (x : R) : R := 1 / sqrt x.

Definition normalize (v : vec3) : vec3 :=
  vec3_scale (inversesqrt (dot v v)) v.

(** [glm::translate(m, v)]: the last column becomes
    [m[0]*v.x + m[1]*v.y + m[2]*v.z + m[3]]. *)
Definition translate (m : mat4) (v : vec3) : mat4 :=
  Mat4 (col0 m) (col1 m) (col2 m)
       (vec4_add
          (vec4_add
             (vec4_add (vec4_scale (col0 m) (x3 v)) (vec4_scale (col1 m) (y3 v)))
             (vec4_scale (col2 m) (z3 v)))
          (col3 m)).

(** [glm::rotate(m, angle, v)]: axis-angle rotation about the
    normalised [v]. *)
Definition rotate (m : mat4) (angle : R) (v : vec3) : mat4 :=
  let c := cos angle in
  let s := sin angle in
  let axis := normalize v in
  let temp := vec3_scale (1 - c) axis in
  let r00 := c + x3 temp * x3 axis in
  let r01 := x3 temp * y3 axis + s * z3 axis in
  let r02 := x3 temp * z3 axis - s * y3 axis in
  let r10 := y3 temp * x3 axis - s * z3 axis in
  let r11 := c + y3 temp * y3 axis in
  let r12 := y3 temp * z3 axis + s * x3 axis in
  let r20 := z3 temp * x3 axis + s * y3 axis in
  let r21 := z3 temp * y3 axis - s * x3 axis in
  let r22 := c + z3 temp * z3 axis in
  let lin a b d :=
    vec4_add (vec4_add (vec4_scale (col0 m) a) (vec4_scale (col1 m) b))
             (vec4_scale (col2 m) d) in
  Mat4 (lin r00 r01 r02) (lin r10 r11 r12) (lin r20 r21 r22) (col3 m).

(** [glm::scale(m, v)]. *)
Definition scale (m : mat4) (v : vec3) : mat4 :=
  Mat4 (vec4_scale (col0 m) (x3 v)) (vec4_scale (col1 m) (y3 v))
       (vec4_scale (col2 m) (z3 v)) (col3 m).

(** [glm::ortho(left, right, bottom, top, zNear, zFar)], right-handed,
    depth range [-1, 1] (GLM's default). *)
Definition ortho (left right bottom top zNear zFar : R) : mat4 :=
  Mat4 (Vec4 (2 / (right - left)) 0 0 0)
       (Vec4 0 (2 / (top - bottom)) 0 0)
       (Vec4 0 0 (- (2 / (zFar - zNear))) 0)
       (Vec4 (- ((right + left) / (right - left)))
             (- ((top + bottom) / (top - bottom)))
             (- ((zFar + zNear) / (zFar - zNear)))
             1).

(** [glm::perspective(fovy, aspect, zNear, zFar)], right-handed, depth
    range [-1, 1] (GLM's default). *)
Definition perspective (fovy aspect zNear zFar : R) : mat4 :=
  let tanHalfFovy := tan (fovy / 2) in
  Mat4 (Vec4 (1 / (aspect * tanHalfFovy)) 0 0 0)
       (Vec4 0 (1 / tanHalfFovy) 0 0)
       (Vec4 0 0 (- ((zFar + zNear) / (zFar - zNear))) (-1))
       (Vec4 0 0 (- ((2 * zFar * zNear) / (zFar - zNear))) 0).

(** *** The matrices of the textbook, entry by entry *)

Definition translation_matrix (p : vec3) : mat4 :=
  Mat4 (Vec4 1 0 0 0) (Vec4 0 1 0 0) (Vec4 0 0 1 0)
       (Vec4 (x3 p) (y3 p) (z3 p) 1).

Definition rotation_x (a : R) : mat4 :=
  Mat4 (Vec4 1 0 0 0) (Vec4 0 (cos a) (sin a) 0)
       (Vec4 0 (- sin a) (cos a) 0) (Vec4 0 0 0 1).

Definition rotation_y (a : R) : mat4 :=
  Mat4 (Vec4 (cos a) 0 (- sin a) 0) (Vec4 0 1 0 0)
       (Vec4 (sin a) 0 (cos a) 0) (Vec4 0 0 0 1).

Definition rotation_z (a : R) : mat4 :=
  Mat4 (Vec4 (cos a) (sin a) 0 0) (Vec4 (- sin a) (cos a) 0 0)
       (Vec4 0 0 1 0) (Vec4 0 0 0 1).

Definition scaling_matrix (s : vec3) : mat4 :=
  Mat4 (Vec4 (x3 s) 0 0 0) (Vec4 0 (y3 s) 0 0) (Vec4 0 0 (z3 s) 0)
       (Vec4 0 0 0 1).

End glm.

(** ** What the managers do to the outside world *)

Inductive Shape := Plane | Cylinder | Cone | Sphere.

(** The value of a uniform, by the ShaderManager setter that carries it. *)
Inductive UniformValue :=
| UInt (n : Z)                  (* setIntValue *)
| UFloat (r : R)                (* setFloatValue *)
| UVec2 (v : glm.vec2)          (* setVec2Value *)
| UVec3 (v : glm.vec3)          (* setVec3Value *)
| UVec4 (v : glm.vec4)          (* setVec4Value *)
| UMat4 (m : glm.mat4)          (* setMat4Value *)
| USampler2D (slot : Z).        (* setSampler2DValue *)

Inductive TexFormat := GL_RGB8 | GL_RGBA8 | GL_RGB | GL_RGBA.
Inductive TexParam :=
  GL_TEXTURE_WRAP_S | GL_TEXTURE_WRAP_T | GL_TEXTURE_MIN_FILTER | GL_TEXTURE_MAG_FILTER.
Inductive TexParamValue := GL_REPEAT | GL_LINEAR.

Inductive Event :=
| ShaderUse                                          (* m_pShaderManager->use() *)
| SetUniform (name : string) (v : UniformValue)      (* m_pShaderManager->set...Value *)
| LoadMesh (s : Shape)                               (* m_basicMeshes->Load...Mesh() *)
| DrawMesh (s : Shape)                               (* m_basicMeshes->Draw...Mesh() *)
| StbiSetFlipVerticallyOnLoad (flip : bool)
| StbiImageFree
| Cout (line : string)
| GlGenTextures (id : Z)
| GlBindTexture (id : Z)
| GlTexParameteri (p : TexParam) (v : TexParamValue)
| GlTexImage2D (internal : TexFormat) (width height : Z) (format : TexFormat)
| GlGenerateMipmap
| GlActiveTexture (unit : Z)                         (* GL_TEXTURE0 + unit *)
| GlDeleteTextures (id : Z)
| GlEnableDepthTest
| GlDepthFuncLequal
| GlClearColorAndDepth
| GlfwSetWindowShouldClose.

(** A pointer to the ShaderManager: null, or the one shader object. *)
Inductive ShaderManagerPtr := NULL | ShaderPtr.

(** [std::to_string] on an [int]. *)
Definition to_string (n : Z) : string := NilZero.string_of_int (Z.to_int n).

(** ** SceneManager *)

Module Scene.

Import glm.

(** *** SceneManager.h *)

Record TEXTURE_INFO := { ID : Z; tag : string }.

(** [TEXTURE_INFO() : ID(0), tag("")]. *)
Definition TEXTURE_INFO_default : TEXTURE_INFO := {| ID := 0; tag := "" |}.

Record LIGHT_SOURCE := {
  position : vec3;
  ambientColor : vec3;
  diffuseColor : vec3;
  specularColor : vec3;
  focalStrength : R;
  specularIntensity : R
}.

(** [LIGHT_SOURCE()]: [glm::vec3(0.0f)] four times, then [1.0f] twice. *)
Definition LIGHT_SOURCE_default : LIGHT_SOURCE :=
  {| position := Vec3 0 0 0; ambientColor := Vec3 0 0 0;
     diffuseColor := Vec3 0 0 0; specularColor := Vec3 0 0 0;
     focalStrength := 1; specularIntensity := 1 |}.

Record SceneManager := {
  m_pShaderManager : ShaderManagerPtr;
  m_loadedTextures : Z;
  m_textureIDs : list TEXTURE_INFO;      (* TEXTURE_INFO m_textureIDs[128] *)
  m_lightSources : list LIGHT_SOURCE     (* LIGHT_SOURCE m_lightSources[4] *)
}.

(** The constructor. *)
Definition SceneManager_new (pShaderManager : ShaderManagerPtr) : SceneManager :=
  {| m_pShaderManager := pShaderManager;
     m_loadedTextures := 0;
     m_textureIDs := replicate 128 TEXTURE_INFO_default;
     m_lightSources := replicate 4 LIGHT_SOURCE_default |}.

(** *** The world a call runs in *)

(** What [stbi_load] finds in a file: width, height, channel count. *)
Record Image := { width : Z; height : Z; colorChannels : Z }.

Record World := {
  this : SceneManager;
  files : string -> option Image;   (* what stbi_load decodes, by file name *)
  gl_textures : list Z;             (* the texture names OpenGL has allocated *)
  gl_names : nat -> Z;              (* the names glGenTextures will hand out next *)
  glfw_time : nat -> R              (* the values glfwGetTime will return next *)
}.

Definition with_this (sm : SceneManager) (w : World) : World :=
  {| this := sm; files := files w; gl_textures := gl_textures w;
     gl_names := gl_names w; glfw_time := glfw_time w |}.

(** A call returns a value, a new world and the events it issued, or it
    dereferences a null pointer, or it indexes an array out of bounds. *)
Inductive Outcome (A : Type) :=
| Returns (a : A) (w : World) (events : list Event)
| NullDereference
| OutOfBounds.
Arguments Returns {A} a w events.
Arguments NullDereference {A}.
Arguments OutOfBounds {A}.

Definition M (A : Type) : Type := World -> Outcome A.

Definition ret {A} (a : A) : M A := fun w => Returns a w [].

Definition bind {A B} (m : M A) (k : A -> M B) : M B :=
  fun w =>
    match m w with
    | Returns a w1 e1 =>
        match k a w1 with
        | Returns b w2 e2 => Returns b w2 (e1 ++ e2)
        | NullDereference => NullDereference
        | OutOfBounds => OutOfBounds
        end
    | NullDereference => NullDereference
    | OutOfBounds => OutOfBounds
    end.

Declare Scope scene_scope.
Delimit Scope scene_scope with scene.
Notation "x <- m ;; k" := (bind m (fun x => k))
  (at level 100, m at next level, k at level 200, right associativity)
  : scene_scope.
Notation "m ;; k" := (bind m (fun _ => k))
  (at level 100, k at level 200, right associativity) : scene_scope.
Local Open Scope scene_scope.

Definition emit (e : Event) : M unit := fun w => Returns tt w [e].

Definition gets {A} (f : SceneManager -> A) : M A :=
  fun w => Returns (f (this w)) w [].

Definition modify (f : SceneManager -> SceneManager) : M unit :=
  fun w => Returns tt (with_this (f (this w)) w) [].

(** [m_pShaderManager->...]: the call goes through the pointer. *)
Definition shader_call (e : Event) : M unit :=
  fun w =>
    match m_pShaderManager (this w) with
    | ShaderPtr => Returns tt w [e]
    | NULL => NullDereference
    end.

(** [if (m_pShaderManager) { ... }]. *)
Definition if_shader (body : M unit) : M unit :=
  p <- gets m_pShaderManager ;;
  match p with
  | ShaderPtr => body
  | NULL => ret tt
  end.

(** [m_textureIDs[i]], read. *)
Definition texture_at (i : nat) : M TEXTURE_INFO :=
  fun w =>
    match m_textureIDs (this w) !! i with
    | Some t => Returns t w []
    | None => OutOfBounds
    end.

(** [m_textureIDs[i] = t], for an [int] index. *)
Definition set_texture_at (i : Z) (t : TEXTURE_INFO) : M unit :=
  fun w =>
    if (i <? 0)%Z then OutOfBounds
    else
      match m_textureIDs (this w) !! Z.to_nat i with
      | Some _ =>
          Returns tt
            (with_this
               {| m_pShaderManager := m_pShaderManager (this w);
                  m_loadedTextures := m_loadedTextures (this w);
                  m_textureIDs := <[Z.to_nat i := t]> (m_textureIDs (this w));
                  m_lightSources := m_lightSources (this w) |} w) []
      | None => OutOfBounds
      end.

Definition set_loadedTextures (n : Z) : M unit :=
  modify (fun sm =>
    {| m_pShaderManager := m_pShaderManager sm;
       m_loadedTextures := n;
       m_textureIDs := m_textureIDs sm;
       m_lightSources := m_lightSources sm |}).

Definition set_lightSource_at (i : nat) (l : LIGHT_SOURCE) : M unit :=
  modify (fun sm =>
    {| m_pShaderManager := m_pShaderManager sm;
       m_loadedTextures := m_loadedTextures sm;
       m_textureIDs := m_textureIDs sm;
       m_lightSources := <[i := l]> (m_lightSources sm) |}).

(** [stbi_load]: the decoder reads the file system. *)
Definition stbi_load (filename : string) : M (option Image) :=
  fun w => Returns (files w filename) w [].

(** [glGenTextures(1, &textureID)]: OpenGL picks the name. *)
Definition glGenTextures : M Z :=
  fun w =>
    let id := gl_names w 0%nat in
    Returns id
      {| this := this w; files := files w;
         gl_textures := id :: gl_textures w;
         gl_names := fun n => gl_names w (S n);
         glfw_time := glfw_time w |}
      [GlGenTextures id].

(** [glDeleteTextures(1, &id)]: the name is no longer allocated. *)
Definition glDeleteTextures (id : Z) : M unit :=
  fun w =>
    Returns tt
      {| this := this w; files := files w;
         gl_textures := filter (fun n => n <> id) (gl_textures w);
         gl_names := gl_names w;
         glfw_time := glfw_time w |}
      [GlDeleteTextures id].

(** [glfwGetTime()]: the next reading of the clock, a [double]. *)
Definition glfwGetTime : M R :=
  fun w =>
    Returns (glfw_time w 0%nat)
      {| this := this w; files := files w; gl_textures := gl_textures w;
         gl_names := gl_names w;
         glfw_time := fun n => glfw_time w (S n) |}
      [].

(** A counted loop [for (int i = 0; i < n; i++) body(i)]. *)
Fixpoint for_range (i : nat) (count : nat) (body : nat -> M unit) : M unit :=
  match count with
  | O => ret tt
  | S count' => body i ;; for_range (S i) count' body
  end.

(** A range-based loop [for (const auto& x : xs) body(x)]. *)
Fixpoint for_each {A} (xs : list A) (body : A -> M unit) : M unit :=
  match xs with
  | [] => ret tt
  | x :: xs' => body x ;; for_each xs' body
  end.

(** *** SceneManager.cpp *)

Definition g_ModelName := "model".
Definition g_ColorValueName := "objectColor".
Definition g_TextureValueName := "objectTexture".
Definition g_UseTextureName := "bUseTexture".
Definition g_UseLightingName := "bUseLighting".
Definition g_LightColorName := "lightColor".
Definition g_MaterialAmbientColor := "material.ambientColor".
Definition g_MaterialDiffuseColor := "material.diffuseColor".
Definition g_MaterialSpecularColor := "material.specularColor".
Definition g_MaterialShininess := "material.shininess".
Definition g_ViewPosition := "viewPos".

(** [CreateGLTexture(filename, tag)]. *)
Definition CreateGLTexture (filename : string) (tag : string) : M bool :=
  emit (StbiSetFlipVerticallyOnLoad true) ;;
  image <- stbi_load filename ;;
  match image with
  | Some img =>
      emit (Cout ("Successfully loaded image: " ++ filename
                  ++ ", width: " ++ to_string (width img)
                  ++ ", height: " ++ to_string (height img)
                  ++ ", channels: " ++ to_string (colorChannels img))) ;;
      textureID <- glGenTextures ;;
      emit (GlBindTexture textureID) ;;
      emit (GlTexParameteri GL_TEXTURE_WRAP_S GL_REPEAT) ;;
      emit (GlTexParameteri GL_TEXTURE_WRAP_T GL_REPEAT) ;;
      emit (GlTexParameteri GL_TEXTURE_MIN_FILTER GL_LINEAR) ;;
      emit (GlTexParameteri GL_TEXTURE_MAG_FILTER GL_LINEAR) ;;
      uploaded <-
        (if (colorChannels img =? 3)%Z then
           emit (GlTexImage2D GL_RGB8 (width img) (height img) GL_RGB) ;;
           ret true
         else if (colorChannels img =? 4)%Z then
           emit (GlTexImage2D GL_RGBA8 (width img) (height img) GL_RGBA) ;;
           ret true
         else
           emit (Cout ("Not implemented to handle image with "
                       ++ to_string (colorChannels img) ++ " channels")) ;;
           ret false) ;;
      if uploaded : bool then
        emit GlGenerateMipmap ;;
        emit StbiImageFree ;;
        emit (GlBindTexture 0) ;;
        n <- gets m_loadedTextures ;;
        set_texture_at n {| ID := textureID; tag := tag |} ;;
        set_loadedTextures (n + 1) ;;
        ret true
      else
        ret false
  | None =>
      emit (Cout ("Could not load image: " ++ filename)) ;;
      ret false
  end.

(** [BindGLTextures()]. *)
Definition BindGLTextures : M unit :=
  n <- gets m_loadedTextures ;;
  for_range 0 (Z.to_nat n) (fun i =>
    emit (GlActiveTexture (Z.of_nat i)) ;;
    t <- texture_at i ;;
    emit (GlBindTexture (ID t))).

(** [DestroyGLTextures()]. *)
Definition DestroyGLTextures : M unit :=
  n <- gets m_loadedTextures ;;
  for_range 0 (Z.to_nat n) (fun i =>
    t <- texture_at i ;;
    glDeleteTextures (ID t)).

(** The conversion of a [GLuint] to the [int] a function returns. *)
Definition int_of_GLuint (id : Z) : Z := (id + 2 ^ 31) mod 2 ^ 32 - 2 ^ 31.

(** [FindTextureID(tag)]: the loop runs over the whole array. *)
Fixpoint FindTextureID_loop (textures : list TEXTURE_INFO) (tag0 : string) : Z :=
  match textures with
  | [] => -1
  | texture :: rest =>
      if String.eqb (tag texture) tag0 then int_of_GLuint (ID texture)
      else FindTextureID_loop rest tag0
  end.

Definition FindTextureID (tag0 : string) : M Z :=
  textures <- gets m_textureIDs ;;
  ret (FindTextureID_loop textures tag0).

(** [FindTextureSlot(tag)]: the loop runs over the first
    [m_loadedTextures] entries. *)
Fixpoint FindTextureSlot_loop (tag0 : string) (i : nat) (count : nat) : M Z :=
  match count with
  | O => ret (-1)
  | S count' =>
      t <- texture_at i ;;
      if String.eqb (tag t) tag0 then ret (Z.of_nat i)
      else FindTextureSlot_loop tag0 (S i) count'
  end.

Definition FindTextureSlot (tag0 : string) : M Z :=
  n <- gets m_loadedTextures ;;
  FindTextureSlot_loop tag0 0 (Z.to_nat n).

(** The matrix [SetTransformations] computes. The three angles go
    through [radians], which rounds to single precision as the code
    does, so the sines and cosines are those of the angles the code
    turns by; the matrix products are taken over the reals. *)
Definition model_matrix (scaleXYZ : vec3)
    (XrotationDegrees YrotationDegrees ZrotationDegrees : R)
    (positionXYZ : vec3) : mat4 :=
  mat4_mul
    (mat4_mul
       (mat4_mul
          (mat4_mul
             (translate (mat4_diag 1) positionXYZ)
             (rotate (mat4_diag 1) (radians XrotationDegrees) (Vec3 1 0 0)))
          (rotate (mat4_diag 1) (radians YrotationDegrees) (Vec3 0 1 0)))
       (rotate (mat4_diag 1) (radians ZrotationDegrees) (Vec3 0 0 1)))
    (scale (mat4_diag 1) scaleXYZ).

(** [SetTransformations(scaleXYZ, X, Y, Z, positionXYZ)]. *)
Definition SetTransformations (scaleXYZ : vec3)
    (XrotationDegrees YrotationDegrees ZrotationDegrees : R)
    (positionXYZ : vec3) : M unit :=
  let model :=
    model_matrix scaleXYZ XrotationDegrees YrotationDegrees ZrotationDegrees
      positionXYZ in
  if_shader (shader_call (SetUniform g_ModelName (UMat4 model))).

(** [SetShaderColor(r, g, b, a)]. *)
Definition SetShaderColor
    (redColorValue greenColorValue blueColorValue alphaValue : R) : M unit :=
  let currentColor :=
    Vec4 redColorValue greenColorValue blueColorValue alphaValue in
  if_shader
    (shader_call (SetUniform g_UseTextureName (UInt 0)) ;;
     shader_call (SetUniform g_ColorValueName (UVec4 currentColor))).

(** [SetShaderTexture(textureTag)]. *)
Definition SetShaderTexture (textureTag : string) : M unit :=
  if_shader
    (shader_call (SetUniform g_UseTextureName (UInt 1)) ;;
     textureSlot <- FindTextureSlot textureTag ;;
     if negb (textureSlot =? -1)%Z then
       emit (GlActiveTexture textureSlot) ;;
       t <- texture_at (Z.to_nat textureSlot) ;;
       emit (GlBindTexture (ID t)) ;;
       shader_call (SetUniform g_TextureValueName (USampler2D textureSlot))
     else
       ret tt).

(** [SetTextureUVScale(u, v)]. *)
Definition SetTextureUVScale (u v : R) : M unit :=
  if_shader (shader_call (SetUniform "UVscale" (UVec2 (Vec2 u v)))).

(** [SetLightColor(r, g, b, a)]. *)
Definition SetLightColor (red green blue alpha : R) : M unit :=
  let lightColor := Vec4 red green blue alpha in
  if_shader (shader_call (SetUniform g_LightColorName (UVec4 lightColor))).

(** [SetLightSource(index, light)]. *)
Definition SetLightSource (index : Z) (light : LIGHT_SOURCE) : M unit :=
  if (index <? 0)%Z || (index >=? 4)%Z then ret tt
  else
    set_lightSource_at (Z.to_nat index) light ;;
    let lightIndex := "lightSources[" ++ to_string index ++ "]." in
    shader_call (SetUniform (lightIndex ++ "position") (UVec3 (position light))) ;;
    shader_call (SetUniform (lightIndex ++ "ambientColor") (UVec3 (ambientColor light))) ;;
    shader_call (SetUniform (lightIndex ++ "diffuseColor") (UVec3 (diffuseColor light))) ;;
    shader_call (SetUniform (lightIndex ++ "specularColor") (UVec3 (specularColor light))) ;;
    shader_call (SetUniform (lightIndex ++ "focalStrength") (UFloat (focalStrength light))) ;;
    shader_call (SetUniform (lightIndex ++ "specularIntensity")
                   (UFloat (specularIntensity light))).

(** [m_lightSources[i]], read. *)
Definition lightSource_at (i : nat) : M LIGHT_SOURCE :=
  fun w =>
    match m_lightSources (this w) !! i with
    | Some l => Returns l w []
    | None => OutOfBounds
    end.

(** The three lights [PrepareScene] sets up. *)
Definition light1 : LIGHT_SOURCE :=
  {| position := Vec3 (-10) 50 (-20);
     ambientColor := Vec3 0.3 0.15 0;
     diffuseColor := Vec3 1 0.6 0;
     specularColor := Vec3 1 0.6 0;
     focalStrength := 0.2;
     specularIntensity := 0.2 |}.

Definition light2 : LIGHT_SOURCE :=
  {| position := Vec3 (-8) 8 (-22);
     ambientColor := Vec3 0.3 0.15 0;
     diffuseColor := Vec3 1 0.6 0;
     specularColor := Vec3 1 0.6 0;
     focalStrength := 0.2;
     specularIntensity := 0.2 |}.

Definition light3 : LIGHT_SOURCE :=
  {| position := Vec3 10 9 (-18);
     ambientColor := Vec3 0.3 0.15 0;
     diffuseColor := Vec3 1 0.6 0;
     specularColor := Vec3 1 0.6 0;
     focalStrength := 0.2;
     specularIntensity := 0.2 |}.

(** [PrepareScene()]. The results of the five [CreateGLTexture] calls
    are dropped, as in the source. *)
Definition PrepareScene : M unit :=
  emit (LoadMesh Plane) ;;
  emit (LoadMesh Cylinder) ;;
  emit (LoadMesh Cone) ;;
  emit (LoadMesh Sphere) ;;
  _ <- CreateGLTexture "textures/bark.jpg" "bark" ;;
  _ <- CreateGLTexture "textures/grass.jpg" "grass" ;;
  _ <- CreateGLTexture "textures/water.jpg" "water" ;;
  _ <- CreateGLTexture "textures/leaves.jpg" "leaves" ;;
  _ <- CreateGLTexture "textures/sky.jpg" "sky" ;;
  SetLightSource 0 light1 ;;
  SetLightSource 1 light2 ;;
  SetLightSource 2 light3.

Definition treePositions : list vec3 :=
  [ Vec3 10 (-1) 5; Vec3 15 (-1) 8; Vec3 18 (-1) 3;
    Vec3 (-10) (-1) 5; Vec3 (-15) (-1) 8; Vec3 (-18) (-1) 3;
    Vec3 10 (-1) (-5); Vec3 15 (-1) (-8); Vec3 18 (-1) (-3);
    Vec3 (-10) (-1) (-5); Vec3 (-15) (-1) (-8); Vec3 (-18) (-1) (-3) ].

Definition additionalTreePositions : list vec3 :=
  [ Vec3 (-3) (-1) 2; Vec3 3 (-1) (-2); Vec3 (-7) (-1) 3;
    Vec3 7 (-1) (-3); Vec3 (-2) (-1) (-4); Vec3 2 (-1) 4;
    Vec3 (-6) (-1) (-3); Vec3 6 (-1) 3; Vec3 15 (-1) 10;
    Vec3 (-15) (-1) (-10); Vec3 20 (-1) 12; Vec3 (-20) (-1) (-12) ].

(** The matrix of a tree part: [translate(mat4(1), pos) *
    rotate(mat4(1), static_cast<float>(time), (0,1,0)) *
    scale(mat4(1), scaleXYZ)], [time] being the clock reading. *)
Definition tree_matrix (pos : vec3) (time : R) (scaleXYZ : vec3) : mat4 :=
  mat4_mul
    (mat4_mul (translate (mat4_diag 1) pos)
              (rotate (mat4_diag 1) (Float32.to_float time) (Vec3 0 1 0)))
    (scale (mat4_diag 1) scaleXYZ).

(** The body of the two tree loops of [RenderScene] (the source has the
    same text twice). *)
Definition RenderScene_tree (treePos : vec3) : M unit :=
  (* Tree Trunk *)
  let scaleXYZ := Vec3 0.5 3 0.5 in
  time <- glfwGetTime ;;
  let model := tree_matrix treePos time scaleXYZ in
  shader_call (SetUniform "model" (UMat4 model)) ;;
  SetShaderTexture "bark" ;;
  SetTextureUVScale 1 1 ;;
  emit (DrawMesh Cylinder) ;;
  (* Tree Cone *)
  let scaleXYZ := Vec3 2 3 2 in
  let conePos := vec3_add treePos (Vec3 0 1.5 0) in
  time <- glfwGetTime ;;
  let model := tree_matrix conePos time scaleXYZ in
  shader_call (SetUniform "model" (UMat4 model)) ;;
  SetShaderTexture "leaves" ;;
  SetTextureUVScale 1 1 ;;
  emit (DrawMesh Cone).

(** The body of the light loop of [RenderScene]: the four vector
    uniforms of [m_lightSources[i]]. *)
Definition RenderScene_light (i : nat) : M unit :=
  let lightIndex := "lightSources[" ++ to_string (Z.of_nat i) ++ "]." in
  l <- lightSource_at i ;;
  shader_call (SetUniform (lightIndex ++ "position") (UVec3 (position l))) ;;
  shader_call (SetUniform (lightIndex ++ "ambientColor") (UVec3 (ambientColor l))) ;;
  shader_call (SetUniform (lightIndex ++ "diffuseColor") (UVec3 (diffuseColor l))) ;;
  shader_call (SetUniform (lightIndex ++ "specularColor") (UVec3 (specularColor l))).

(** [RenderScene()]. *)
Definition RenderScene : M unit :=
  emit GlEnableDepthTest ;;
  emit GlDepthFuncLequal ;;
  emit GlClearColorAndDepth ;;
  let XrotationDegrees := 0%R in
  let YrotationDegrees := 0%R in
  let ZrotationDegrees := 0%R in
  shader_call ShaderUse ;;
  let viewPos := Vec3 0 0 3 in
  shader_call (SetUniform g_ViewPosition (UVec3 viewPos)) ;;
  for_range 0 3 RenderScene_light ;;
  shader_call (SetUniform g_UseLightingName (UInt 1)) ;;
  let ambientColor := Vec3 0.2 0.2 0.2 in
  let diffuseColor := Vec3 0.8 0.8 0.8 in
  let specularColor := Vec3 1 1 1 in
  let shininess := 32%R in
  shader_call (SetUniform g_MaterialAmbientColor (UVec3 ambientColor)) ;;
  shader_call (SetUniform g_MaterialDiffuseColor (UVec3 diffuseColor)) ;;
  shader_call (SetUniform g_MaterialSpecularColor (UVec3 specularColor)) ;;
  shader_call (SetUniform g_MaterialShininess (UFloat shininess)) ;;
  (* Grass Floor Plane *)
  let scaleXYZ := Vec3 25 5 36 in
  let XrotationDegrees := 0%R in
  let positionXYZ := Vec3 0 (-1) 0 in
  SetTransformations scaleXYZ XrotationDegrees YrotationDegrees ZrotationDegrees positionXYZ ;;
  SetShaderTexture "grass" ;;
  SetTextureUVScale 1 1 ;;
  emit (DrawMesh Plane) ;;
  (* Water Plane *)
  let scaleXYZ := Vec3 25 1 2 in
  let XrotationDegrees := 0%R in
  let positionXYZ := Vec3 0 (-0.5) 0 in
  SetTransformations scaleXYZ XrotationDegrees YrotationDegrees ZrotationDegrees positionXYZ ;;
  SetShaderTexture "water" ;;
  SetTextureUVScale 1 1 ;;
  emit (DrawMesh Plane) ;;
  (* Sun 1 *)
  let scaleXYZ := Vec3 2 2 2 in
  let positionXYZ := Vec3 (-10) 10 (-20) in
  SetTransformations scaleXYZ XrotationDegrees YrotationDegrees ZrotationDegrees positionXYZ ;;
  SetShaderColor 1 0.5 0 1 ;;
  emit (DrawMesh Sphere) ;;
  (* Sun 2 *)
  let scaleXYZ := Vec3 1.5 1.5 1.5 in
  let positionXYZ := Vec3 (-8) 8 (-22) in
  SetTransformations scaleXYZ XrotationDegrees YrotationDegrees ZrotationDegrees positionXYZ ;;
  SetShaderColor 1 0.5 0 1 ;;
  emit (DrawMesh Sphere) ;;
  (* Sun 3 *)
  let scaleXYZ := Vec3 1 1 1 in
  let positionXYZ := Vec3 10 9 (-18) in
  SetTransformations scaleXYZ XrotationDegrees YrotationDegrees ZrotationDegrees positionXYZ ;;
  SetShaderColor 1 0.5 0 1 ;;
  emit (DrawMesh Sphere) ;;
  (* Mountain 1 *)
  let scaleXYZ := Vec3 10 5 10 in
  let positionXYZ := Vec3 (-10) 0 (-20) in
  SetTransformations scaleXYZ XrotationDegrees YrotationDegrees ZrotationDegrees positionXYZ ;;
  SetShaderColor 0.5 0.35 0.05 1 ;;
  emit (DrawMesh Cone) ;;
  (* Mountain 2 *)
  let scaleXYZ := Vec3 8 4 8 in
  let positionXYZ := Vec3 10 0 (-15) in
  SetTransformations scaleXYZ XrotationDegrees YrotationDegrees ZrotationDegrees positionXYZ ;;
  SetShaderColor 0.55 0.4 0.1 1 ;;
  emit (DrawMesh Cone) ;;
  (* Mountain 3 *)
  let scaleXYZ := Vec3 12 6 12 in
  let positionXYZ := Vec3 0 0 (-25) in
  SetTransformations scaleXYZ XrotationDegrees YrotationDegrees ZrotationDegrees positionXYZ ;;
  SetShaderColor 0.6 0.45 0.15 1 ;;
  emit (DrawMesh Cone) ;;
  (* Trees *)
  for_each treePositions RenderScene_tree ;;
  (* Additional trees for more variety *)
  for_each additionalTreePositions RenderScene_tree ;;
  (* Plane aligned with Grass Plane *)
  let scaleXYZ := Vec3 25 5 10 in
  let positionXYZ := Vec3 0 9 (-36) in
  let XrotationDegrees := 90%R in
  SetTransformations scaleXYZ XrotationDegrees YrotationDegrees ZrotationDegrees positionXYZ ;;
  SetShaderTexture "sky" ;;
  SetTextureUVScale 1 1 ;;
  emit (DrawMesh Plane).

End Scene.

(** ** ViewManager *)

Module View.

Import glm.

Inductive Camera_Movement := FORWARD | BACKWARD | LEFT | RIGHT | UP | DOWN.

(** The [Camera] class lives in a header outside these sources; the
    ViewManager uses it through this interface only. *)
Class CameraClass := {
  Camera : Type;
  Camera_new : vec3 -> Camera;
  Zoom : Camera -> R;
  Position : Camera -> vec3;
  GetViewMatrix : Camera -> mat4;
  ProcessKeyboard : Camera_Movement -> R -> Camera -> Camera
}.

(** The keys [ProcessKeyboardEvents] polls. *)
Inductive Key :=
  GLFW_KEY_ESCAPE | GLFW_KEY_W | GLFW_KEY_S | GLFW_KEY_A | GLFW_KEY_D
| GLFW_KEY_Q | GLFW_KEY_E | GLFW_KEY_P | GLFW_KEY_O.

Section ViewManager.

Context `{CameraClass}.

Definition WINDOW_WIDTH : Z := 1000.
Definition WINDOW_HEIGHT : Z := 800.
Definition g_ViewName := "view".
Definition g_ProjectionName := "projection".

(** The window handle [m_pWindow] is only handed to GLFW; the key
    states GLFW reports for it are the [keys] of the world below. *)
Record ViewManager := {
  m_pShaderManager : ShaderManagerPtr;
  m_Camera : Camera;
  m_IsPerspective : bool
}.

(** The file-scope variables of ViewManager.cpp. *)
Record Globals := {
  gLastX : R;
  gLastY : R;
  gFirstMouse : bool;
  gDeltaTime : R;
  gLastFrame : R;
  bOrthographicProjection : bool
}.

Record World := {
  this : ViewManager;
  globals : Globals;
  keys : Key -> bool;      (* glfwGetKey(window, k) == GLFW_PRESS *)
  glfw_time : nat -> R     (* the values glfwGetTime will return next *)
}.

(** The constructor, and the initial values of the globals. *)
Definition ViewManager_new (pShaderManager : ShaderManagerPtr) : ViewManager :=
  {| m_pShaderManager := pShaderManager;
     m_Camera := Camera_new (Vec3 0 5 12);
     m_IsPerspective := true |}.

Definition Globals_initial : Globals :=
  {| gLastX := IZR WINDOW_WIDTH / 2;
     gLastY := IZR WINDOW_HEIGHT / 2;
     gFirstMouse := true;
     gDeltaTime := 0;
     gLastFrame := 0;
     bOrthographicProjection := false |}.

Definition set_camera (c : Camera) (w : World) : World :=
  {| this := {| m_pShaderManager := m_pShaderManager (this w);
                m_Camera := c;
                m_IsPerspective := m_IsPerspective (this w) |};
     globals := globals w; keys := keys w; glfw_time := glfw_time w |}.

Definition set_orthographic (b : bool) (w : World) : World :=
  {| this := this w;
     globals := {| gLastX := gLastX (globals w);
                   gLastY := gLastY (globals w);
                   gFirstMouse := gFirstMouse (globals w);
                   gDeltaTime := gDeltaTime (globals w);
                   gLastFrame := gLastFrame (globals w);
                   bOrthographicProjection := b |};
     keys := keys w; glfw_time := glfw_time w |}.

(** [float currentFrame = glfwGetTime(); gDeltaTime = currentFrame -
    gLastFrame; gLastFrame = currentFrame]: the reading is narrowed to
    [float], the difference is a float subtraction. *)
Definition frame_timing (w : World) : World :=
  let currentFrame := Float32.to_float (glfw_time w 0%nat) in
  {| this := this w;
     globals := {| gLastX := gLastX (globals w);
                   gLastY := gLastY (globals w);
                   gFirstMouse := gFirstMouse (globals w);
                   gDeltaTime :=
                     Float32.to_float (currentFrame - gLastFrame (globals w));
                   gLastFrame := currentFrame;
                   bOrthographicProjection := bOrthographicProjection (globals w) |};
     keys := keys w;
     glfw_time := fun n => glfw_time w (S n) |}.

(** [if (glfwGetKey(window, k) == GLFW_PRESS) ...]. *)
Definition on_key (k : Key) (f : World -> World) (w : World) : World :=
  if keys w k then f w else w.

Definition camera_move (direction : Camera_Movement) (w : World) : World :=
  set_camera (ProcessKeyboard direction (gDeltaTime (globals w)) (m_Camera (this w))) w.

(** [ProcessKeyboardEvents(window)]. *)
Definition ProcessKeyboardEvents (w : World) : World * list Event :=
  let closing := if keys w GLFW_KEY_ESCAPE then [GlfwSetWindowShouldClose] else [] in
  let w := on_key GLFW_KEY_W (camera_move FORWARD) w in
  let w := on_key GLFW_KEY_S (camera_move BACKWARD) w in
  let w := on_key GLFW_KEY_A (camera_move LEFT) w in
  let w := on_key GLFW_KEY_D (camera_move RIGHT) w in
  let w := on_key GLFW_KEY_Q (camera_move UP) w in
  let w := on_key GLFW_KEY_E (camera_move DOWN) w in
  let w := on_key GLFW_KEY_P (set_orthographic false) w in
  let w := on_key GLFW_KEY_O (set_orthographic true) w in
  (w, closing).

(** [PrepareSceneView()]. *)
Definition PrepareSceneView (w : World) : World * list Event :=
  let w := frame_timing w in
  let '(w, polled) := ProcessKeyboardEvents w in
  let view := GetViewMatrix (m_Camera (this w)) in
  let projection :=
    if bOrthographicProjection (globals w) then
      let orthoSize := 10%R in
      ortho (- orthoSize) orthoSize (- orthoSize) orthoSize 0.1 100
    else
      perspective (radians (Zoom (m_Camera (this w))))
                  (IZR WINDOW_WIDTH / IZR WINDOW_HEIGHT) 0.1 100 in
  let pushed :=
    match m_pShaderManager (this w) with
    | ShaderPtr =>
        [ SetUniform g_ViewName (UMat4 view);
          SetUniform g_ProjectionName (UMat4 projection);
          SetUniform "viewPosition" (UVec3 (Position (m_Camera (this w)))) ]
    | NULL => []
    end in
  (w, (polled ++ pushed)%list).

End ViewManager.

End View.

(** ** Worlds to run the managers in *)

Import Float32 glm Scene.

(** A freshly constructed SceneManager with a ShaderManager attached,
    every texture file of the scene present as a 64x64 RGB image. *)
Definition demo_world : Scene.World :=
  {| Scene.this := SceneManager_new ShaderPtr;
     files := fun _ => Some {| width := 64; height := 64; colorChannels := 3 |};
     gl_textures := [];
     gl_names := fun n => Z.of_nat n + 1;
     Scene.glfw_time := fun n => INR n |}.

(** The same world with no ShaderManager. *)
Definition headless_world : Scene.World :=
  with_this (SceneManager_new NULL) demo_world.

(** Running a call for the world it leaves and the events it issues
    (the starting world and no event when it does not return). *)
Definition world_after {A} (m : M A) (w : Scene.World) : Scene.World :=
  match m w with Returns _ w' _ => w' | _ => w end.

Definition events_of {A} (m : M A) (w : Scene.World) : list Event :=
  match m w with Returns _ _ e => e | _ => [] end.

(** [demo_world] after one [PrepareScene]. *)
Definition prepared_world : Scene.World := world_after PrepareScene demo_world.

(** ** Reading the registry *)

(** The arrays have their declared sizes and the occupancy counter
    is within the texture array. *)
Definition registry_ok (sm : SceneManager) : Prop :=
  length (m_textureIDs sm) = 128%nat /\
  length (m_lightSources sm) = 4%nat /\
  0 <= m_loadedTextures sm <= 128.

(** The registered entries: the first [m_loadedTextures] of the array. *)
Definition registered (sm : SceneManager) : list TEXTURE_INFO :=
  take (Z.to_nat (m_loadedTextures sm)) (m_textureIDs sm).

(** Entry [i] is the first registered entry with tag [tag0]. *)
Definition first_registered (sm : SceneManager) (tag0 : string)
    (i : nat) (t : TEXTURE_INFO) : Prop :=
  registered sm !! i = Some t /\ tag t = tag0 /\
  forall j t', (j < i)%nat -> registered sm !! j = Some t' -> tag t' <> tag0.

(** No registered entry has tag [tag0]. *)
Definition never_registered (sm : SceneManager) (tag0 : string) : Prop :=
  forall j t', registered sm !! j = Some t' -> tag t' <> tag0.

(** The index of the first entry of [l] with tag [tag0], counting from
    [i]; [-1] when there is none. *)
Fixpoint slot_of (tag0 : string) (l : list TEXTURE_INFO) (i : nat) : Z :=
  match l with
  | [] => -1
  | t :: l' => if String.eqb (tag t) tag0 then Z.of_nat i else slot_of tag0 l' (S i)
  end.

(** ** The light slots *)

(** The six uniforms [SetLightSource] pushes for slot [index]. *)
Definition light_uniforms (index : Z) (light : LIGHT_SOURCE) : list Event :=
  let path := "lightSources[" ++ to_string index ++ "]." in
  [ SetUniform (path ++ "position") (UVec3 (position light));
    SetUniform (path ++ "ambientColor") (UVec3 (ambientColor light));
    SetUniform (path ++ "diffuseColor") (UVec3 (diffuseColor light));
    SetUniform (path ++ "specularColor") (UVec3 (specularColor light));
    SetUniform (path ++ "focalStrength") (UFloat (focalStrength light));
    SetUniform (path ++ "specularIntensity") (UFloat (specularIntensity light)) ].

(** The manager with [light] written into slot [i]. *)
Definition store_light (i : nat) (light : LIGHT_SOURCE) (sm : SceneManager) : SceneManager :=
  {| m_pShaderManager := m_pShaderManager sm;
     m_loadedTextures := m_loadedTextures sm;
     m_textureIDs := m_textureIDs sm;
     m_lightSources := <[i := light]> (m_lightSources sm) |}.

(** ** Runs *)

(** [m] run in [w] returns [a], leaves [w'] and issues [e]. *)
Definition runs {A} (m : M A) (w : Scene.World) (a : A) (w' : Scene.World)
    (e : list Event) : Prop :=
  m w = Returns a w' e.

(** ** Loading a texture *)

(** The file decodes to an image [CreateGLTexture] accepts. *)
Definition loadable (w : Scene.World) (filename : string) : Prop :=
  exists img, files w filename = Some img /\
              (colorChannels img = 3 \/ colorChannels img = 4).

(** The manager with a new entry in the next free slot. *)
Definition register (id : Z) (tag0 : string) (sm : SceneManager) : SceneManager :=
  {| m_pShaderManager := m_pShaderManager sm;
     m_loadedTextures := m_loadedTextures sm + 1;
     m_textureIDs :=
       <[Z.to_nat (m_loadedTextures sm) := {| ID := id; tag := tag0 |}]>
         (m_textureIDs sm);
     m_lightSources := m_lightSources sm |}.

(** The world after a successful [CreateGLTexture(_, tag0)]. *)
Definition texture_loaded (tag0 : string) (w : Scene.World) : Scene.World :=
  {| Scene.this := register (gl_names w 0%nat) tag0 (Scene.this w);
     files := files w;
     gl_textures := gl_names w 0%nat :: gl_textures w;
     gl_names := fun n => gl_names w (S n);
     Scene.glfw_time := Scene.glfw_time w |}.

(** The events of a successful [CreateGLTexture(filename, _)]. *)
Definition texture_load_events (filename : string) (img : Image) (id : Z) : list Event :=
  [ StbiSetFlipVerticallyOnLoad true;
    Cout ("Successfully loaded image: " ++ filename
          ++ ", width: " ++ to_string (width img)
          ++ ", height: " ++ to_string (height img)
          ++ ", channels: " ++ to_string (colorChannels img));
    GlGenTextures id;
    GlBindTexture id;
    GlTexParameteri GL_TEXTURE_WRAP_S GL_REPEAT;
    GlTexParameteri GL_TEXTURE_WRAP_T GL_REPEAT;
    GlTexParameteri GL_TEXTURE_MIN_FILTER GL_LINEAR;
    GlTexParameteri GL_TEXTURE_MAG_FILTER GL_LINEAR;
    GlTexImage2D (if (colorChannels img =? 3)%Z then GL_RGB8 else GL_RGBA8)
      (width img) (height img)
      (if (colorChannels img =? 3)%Z then GL_RGB else GL_RGBA);
    GlGenerateMipmap;
    StbiImageFree;
    GlBindTexture 0 ].

(** The image a loadable file decodes to (a 0x0 image otherwise). *)
Definition image_of (w : Scene.World) (filename : string) : Image :=
  match files w filename with
  | Some img => img
  | None => {| width := 0; height := 0; colorChannels := 0 |}
  end.

(** The texture files of the scene. *)
Definition scene_texture_files : list string :=
  [ "textures/bark.jpg"; "textures/grass.jpg"; "textures/water.jpg";
    "textures/leaves.jpg"; "textures/sky.jpg" ].

Definition is_LoadMesh (e : Event) : bool :=
  match e with LoadMesh _ => true | _ => false end.

Definition is_GlGenTextures (e : Event) : bool :=
  match e with GlGenTextures _ => true | _ => false end.

(** Worlds where a load fails: no file at all, and files that decode
    to one-channel (greyscale) images. *)
Definition empty_disk_world : Scene.World :=
  {| Scene.this := SceneManager_new ShaderPtr;
     files := fun _ => None;
     gl_textures := [];
     gl_names := fun n => Z.of_nat n + 1;
     Scene.glfw_time := fun n => INR n |}.

Definition greyscale_world : Scene.World :=
  {| Scene.this := SceneManager_new ShaderPtr;
     files := fun _ => Some {| width := 8; height := 8; colorChannels := 1 |};
     gl_textures := [];
     gl_names := fun n => Z.of_nat n + 1;
     Scene.glfw_time := fun n => INR n |}.

(** [n] more textures fit in the array. *)
Definition room (n : Z) (w : Scene.World) : Prop :=
  0 <= m_loadedTextures (Scene.this w) /\
  m_loadedTextures (Scene.this w) + n <= Z.of_nat (length (m_textureIDs (Scene.this w))).

(** ** PrepareScene, when the five files load *)

Definition after_textures (w : Scene.World) : Scene.World :=
  texture_loaded "sky"
    (texture_loaded "leaves"
       (texture_loaded "water"
          (texture_loaded "grass"
             (texture_loaded "bark" w)))).

Definition after_PrepareScene (w : Scene.World) : Scene.World :=
  with_this
    (store_light 2 light3
       (store_light 1 light2
          (store_light 0 light1 (Scene.this (after_textures w)))))
    (after_textures w).

Definition PrepareScene_events (w : Scene.World) : list Event :=
  [ LoadMesh Plane; LoadMesh Cylinder; LoadMesh Cone; LoadMesh Sphere ]
  ++ texture_load_events "textures/bark.jpg"
       (image_of w "textures/bark.jpg") (gl_names w 0%nat)
  ++ texture_load_events "textures/grass.jpg"
       (image_of w "textures/grass.jpg") (gl_names w 1%nat)
  ++ texture_load_events "textures/water.jpg"
       (image_of w "textures/water.jpg") (gl_names w 2%nat)
  ++ texture_load_events "textures/leaves.jpg"
       (image_of w "textures/leaves.jpg") (gl_names w 3%nat)
  ++ texture_load_events "textures/sky.jpg"
       (image_of w "textures/sky.jpg") (gl_names w 4%nat)
  ++ light_uniforms 0 light1 ++ light_uniforms 1 light2 ++ light_uniforms 2 light3.

Definition scene_tags : list string := [ "bark"; "grass"; "water"; "leaves"; "sky" ].

Definition scene_meshes : list Event :=
  [ LoadMesh Plane; LoadMesh Cylinder; LoadMesh Cone; LoadMesh Sphere ].

(** ** Releasing the textures *)

(** The allocated names once [glDeleteTextures] has been called on each
    of [ids] in turn. *)
Definition release (ids : list Z) (live : list Z) : list Z :=
  foldl (fun live id => filter (fun n => n <> id) live) live ids.

Definition with_gl_textures (live : list Z) (w : Scene.World) : Scene.World :=
  {| Scene.this := Scene.this w; files := files w; gl_textures := live;
     gl_names := gl_names w; Scene.glfw_time := Scene.glfw_time w |}.

(** ** Painting a draw *)

(** The events of [SetShaderTexture(tag0)] with a ShaderManager
    attached. *)
Definition texture_events (sm : SceneManager) (tag0 : string) : list Event :=
  SetUniform "bUseTexture" (UInt 1) ::
  (let slot := slot_of tag0 (registered sm) 0 in
   if (slot =? -1)%Z then []
   else
     match m_textureIDs sm !! Z.to_nat slot with
     | Some t =>
         [ GlActiveTexture slot; GlBindTexture (ID t);
           SetUniform "objectTexture" (USampler2D slot) ]
     | None => []
     end).

(** ** A camera to run the ViewManager with *)

(** A stand-in for the [Camera] class: a position and a zoom; a key
    moves the position along one axis by 2.5 per second. *)
Definition demo_camera_move (direction : View.Camera_Movement) (dt : R)
    (c : vec3 * R) : vec3 * R :=
  let step := (2.5 * dt)%R in
  let p := fst c in
  (match direction with
   | View.FORWARD => Vec3 (x3 p) (y3 p) (z3 p - step)
   | View.BACKWARD => Vec3 (x3 p) (y3 p) (z3 p + step)
   | View.LEFT => Vec3 (x3 p - step) (y3 p) (z3 p)
   | View.RIGHT => Vec3 (x3 p + step) (y3 p) (z3 p)
   | View.UP => Vec3 (x3 p) (y3 p + step) (z3 p)
   | View.DOWN => Vec3 (x3 p) (y3 p - step) (z3 p)
   end, snd c).

#[local] Instance demo_camera : View.CameraClass :=
  {| View.Camera := vec3 * R;
     View.Camera_new := fun p => (p, 45%R);
     View.Zoom := snd;
     View.Position := fst;
     View.GetViewMatrix := fun c =>
       translation_matrix (Vec3 (- x3 (fst c)) (- y3 (fst c)) (- z3 (fst c)));
     View.ProcessKeyboard := demo_camera_move |}.

(** The first frame of a ViewManager with a ShaderManager attached, the
    given keys held down. *)
Definition demo_view_world (held : list View.Key) : View.World :=
  {| View.this := View.ViewManager_new ShaderPtr;
     View.globals := View.Globals_initial;
     View.keys := fun k =>
       existsb (fun h =>
         match h, k with
         | View.GLFW_KEY_ESCAPE, View.GLFW_KEY_ESCAPE
         | View.GLFW_KEY_W, View.GLFW_KEY_W
         | View.GLFW_KEY_S, View.GLFW_KEY_S
         | View.GLFW_KEY_A, View.GLFW_KEY_A
         | View.GLFW_KEY_D, View.GLFW_KEY_D
         | View.GLFW_KEY_Q, View.GLFW_KEY_Q
         | View.GLFW_KEY_E, View.GLFW_KEY_E
         | View.GLFW_KEY_P, View.GLFW_KEY_P
         | View.GLFW_KEY_O, View.GLFW_KEY_O => true
         | _, _ => false
         end) held;
     View.glfw_time := fun n => INR (S n) |}.

(** ** The scene as a list of draw steps *)

(** How a draw is painted: a texture looked up by tag (with UV scale
    1,1), or a flat colour. *)
Inductive Paint := Textured (tag0 : string) | Flat (color : vec4).

Record DrawStep := {
  step_model : mat4;
  step_paint : Paint;
  step_shape : Shape
}.

(** The events of [SetShaderTexture(tag); SetTextureUVScale(1, 1)] and
    of [SetShaderColor(r, g, b, a)]. *)
Definition paint_events (sm : SceneManager) (p : Paint) : list Event :=
  match p with
  | Textured tag0 =>
      texture_events sm tag0 ++ [SetUniform "UVscale" (UVec2 (Vec2 1 1))]
  | Flat color =>
      [SetUniform "bUseTexture" (UInt 0); SetUniform "objectColor" (UVec4 color)]
  end.

(** One draw step: the model matrix, the paint, the draw call. *)
Definition step_events (sm : SceneManager) (d : DrawStep) : list Event :=
  SetUniform "model" (UMat4 (step_model d))
  :: paint_events sm (step_paint d) ++ [DrawMesh (step_shape d)].

(** A tree: the trunk at [treePos], the canopy 1.5 above it, each
    turned by the time read for it. *)
Definition tree_steps (treePos : vec3) (t_trunk t_canopy : R) : list DrawStep :=
  [ {| step_model := tree_matrix treePos t_trunk (Vec3 0.5 3 0.5);
       step_paint := Textured "bark"; step_shape := Cylinder |};
    {| step_model := tree_matrix (vec3_add treePos (Vec3 0 1.5 0)) t_canopy (Vec3 2 3 2);
       step_paint := Textured "leaves"; step_shape := Cone |} ].

Fixpoint forest_steps (positions : list vec3) (time : nat -> R) : list DrawStep :=
  match positions with
  | [] => []
  | treePos :: rest =>
      tree_steps treePos (time 0%nat) (time 1%nat)
      ++ forest_steps rest (fun n => time (S (S n)))
  end.

(** The clock after the trees at [positions] have been drawn. *)
Fixpoint forest_clock (positions : list vec3) (time : nat -> R) : nat -> R :=
  match positions with
  | [] => time
  | _ :: rest => forest_clock rest (fun n => time (S (S n)))
  end.

Definition with_time (time : nat -> R) (w : Scene.World) : Scene.World :=
  {| Scene.this := Scene.this w; files := files w; gl_textures := gl_textures w;
     gl_names := gl_names w; Scene.glfw_time := time |}.

Definition orange : vec4 := Vec4 1 0.5 0 1.

Definition ground_and_sky_steps_before_trees : list DrawStep :=
  [ {| step_model := model_matrix (Vec3 25 5 36) 0 0 0 (Vec3 0 (-1) 0);
       step_paint := Textured "grass"; step_shape := Plane |};
    {| step_model := model_matrix (Vec3 25 1 2) 0 0 0 (Vec3 0 (-0.5) 0);
       step_paint := Textured "water"; step_shape := Plane |};
    {| step_model := model_matrix (Vec3 2 2 2) 0 0 0 (Vec3 (-10) 10 (-20));
       step_paint := Flat orange; step_shape := Sphere |};
    {| step_model := model_matrix (Vec3 1.5 1.5 1.5) 0 0 0 (Vec3 (-8) 8 (-22));
       step_paint := Flat orange; step_shape := Sphere |};
    {| step_model := model_matrix (Vec3 1 1 1) 0 0 0 (Vec3 10 9 (-18));
       step_paint := Flat orange; step_shape := Sphere |};
    {| step_model := model_matrix (Vec3 10 5 10) 0 0 0 (Vec3 (-10) 0 (-20));
       step_paint := Flat (Vec4 0.5 0.35 0.05 1); step_shape := Cone |};
    {| step_model := model_matrix (Vec3 8 4 8) 0 0 0 (Vec3 10 0 (-15));
       step_paint := Flat (Vec4 0.55 0.4 0.1 1); step_shape := Cone |};
    {| step_model := model_matrix (Vec3 12 6 12) 0 0 0 (Vec3 0 0 (-25));
       step_paint := Flat (Vec4 0.6 0.45 0.15 1); step_shape := Cone |} ].

Definition sky_step : DrawStep :=
  {| step_model := model_matrix (Vec3 25 5 10) 90 0 0 (Vec3 0 9 (-36));
     step_paint := Textured "sky"; step_shape := Plane |}.

(** The whole frame, in draw order. *)
Definition scene_steps (time : nat -> R) : list DrawStep :=
  ground_and_sky_steps_before_trees
  ++ forest_steps treePositions time
  ++ forest_steps additionalTreePositions (forest_clock treePositions time)
  ++ [sky_step].

(** What [RenderScene] issues before the first draw step. *)
Definition render_light_events (sm : SceneManager) (i : nat) : list Event :=
  match m_lightSources sm !! i with
  | Some l =>
      let path := "lightSources[" ++ to_string (Z.of_nat i) ++ "]." in
      [ SetUniform (path ++ "position") (UVec3 (position l));
        SetUniform (path ++ "ambientColor") (UVec3 (ambientColor l));
        SetUniform (path ++ "diffuseColor") (UVec3 (diffuseColor l));
        SetUniform (path ++ "specularColor") (UVec3 (specularColor l)) ]
  | None => []
  end.

Definition RenderScene_preamble (sm : SceneManager) : list Event :=
  [ GlEnableDepthTest; GlDepthFuncLequal; GlClearColorAndDepth; ShaderUse;
    SetUniform "viewPos" (UVec3 (Vec3 0 0 3)) ]
  ++ render_light_events sm 0 ++ render_light_events sm 1 ++ render_light_events sm 2
  ++ [ SetUniform "bUseLighting" (UInt 1);
       SetUniform "material.ambientColor" (UVec3 (Vec3 0.2 0.2 0.2));
       SetUniform "material.diffuseColor" (UVec3 (Vec3 0.8 0.8 0.8));
       SetUniform "material.specularColor" (UVec3 (Vec3 1 1 1));
       SetUniform "material.shininess" (UFloat 32) ].

Definition is_draw (e : Event) : bool :=
  match e with DrawMesh _ => true | _ => false end.

(** The shapes and paints of the frame, in draw order: 8 fixed steps,
    then trunk and canopy for each of [trees] trees, then the sky. *)
Definition frame_shapes (trees : nat) : list Shape :=
  [Plane; Plane; Sphere; Sphere; Sphere; Cone; Cone; Cone]
  ++ concat (replicate trees [Cylinder; Cone]) ++ [Plane].

Definition frame_paints (trees : nat) : list Paint :=
  [ Textured "grass"; Textured "water"; Flat orange; Flat orange; Flat orange;
    Flat (Vec4 0.5 0.35 0.05 1); Flat (Vec4 0.55 0.4 0.1 1);
    Flat (Vec4 0.6 0.45 0.15 1) ]
  ++ concat (replicate trees [Textured "bark"; Textured "leaves"])
  ++ [Textured "sky"].

(** ** More of the texture registry *)

(** [CreateGLTexture] accepts the decoded image: 3 or 4 channels. *)
Definition accepted (img : Image) : bool :=
  (colorChannels img =? 3)%Z || (colorChannels img =? 4)%Z.

(** Does [stbi_load] decode the file to an accepted image? *)
Definition loads (w : Scene.World) (filename : string) : bool :=
  match files w filename with
  | Some img => accepted img
  | None => false
  end.

(** The slots past the occupancy counter hold what the constructor put
    there. *)
Definition spare_slots_default (sm : SceneManager) : Prop :=
  forall i t, (Z.to_nat (m_loadedTextures sm) <= i)%nat ->
              m_textureIDs sm !! i = Some t -> t = TEXTURE_INFO_default.

(** The world after [glGenTextures] handed out a name that was not
    registered. *)
Definition name_taken (w : Scene.World) : Scene.World :=
  {| Scene.this := Scene.this w; files := files w;
     gl_textures := gl_names w 0%nat :: gl_textures w;
     gl_names := fun n => gl_names w (S n);
     Scene.glfw_time := Scene.glfw_time w |}.

(** The world after [CreateGLTexture(filename, tag0)], whatever the
    file holds. *)
Definition after_CreateGLTexture (filename tag0 : string) (w : Scene.World)
    : Scene.World :=
  match files w filename with
  | Some img => if accepted img then texture_loaded tag0 w else name_taken w
  | None => w
  end.

(** The events of [BindGLTextures] for the entries [l], the first of
    them at index [i]. *)
Fixpoint bind_events (i : nat) (l : list TEXTURE_INFO) : list Event :=
  match l with
  | [] => []
  | t :: l' =>
      GlActiveTexture (Z.of_nat i) :: GlBindTexture (ID t) :: bind_events (S i) l'
  end.

(** A one-channel image for [demo_world]'s grass file only. *)
Definition grey_grass_world : Scene.World :=
  {| Scene.this := SceneManager_new ShaderPtr;
     files := fun f =>
       if String.eqb f "textures/grass.jpg"
       then Some {| width := 8; height := 8; colorChannels := 1 |}
       else Some {| width := 64; height := 64; colorChannels := 3 |};
     gl_textures := [];
     gl_names := fun n => Z.of_nat n + 1;
     Scene.glfw_time := fun n => INR n |}.

(** A manager whose 128 slots are all registered. *)
Definition full_world : Scene.World :=
  with_this
    {| m_pShaderManager := ShaderPtr;
       m_loadedTextures := 128;
       m_textureIDs := replicate 128 {| ID := 7; tag := "stone" |};
       m_lightSources := replicate 4 LIGHT_SOURCE_default |}
    demo_world.

(** The arrays are sized, the counter is in range and the slots past
    it are as the constructor left them. *)
Definition registry_inv (sm : SceneManager) : Prop :=
  registry_ok sm /\ spare_slots_default sm.

(** ** Reading a frame's events *)

(** A scalar ([setFloatValue]) uniform. *)
Definition is_float_uniform (e : Event) : bool :=
  match e with SetUniform _ (UFloat _) => true | _ => false end.

(** An event that makes a texture reach the shader: a texture unit
    activation, a texture binding, a sampler uniform. *)
Definition is_texture_binding (e : Event) : bool :=
  match e with
  | GlActiveTexture _ | GlBindTexture _ | SetUniform _ (USampler2D _) => true
  | _ => false
  end.

(** The paint uses one of [tags], or no texture at all. *)
Definition paint_tag_in (tags : list string) (p : Paint) : Prop :=
  match p with
  | Textured tag0 => In tag0 tags
  | Flat _ => True
  end.

(** The four vector uniforms [RenderScene] pushes for light [i]. *)
Definition frame_light_uniforms (i : Z) (light : LIGHT_SOURCE) : list Event :=
  [ SetUniform ("lightSources[" ++ to_string i ++ "].position") (UVec3 (position light));
    SetUniform ("lightSources[" ++ to_string i ++ "].ambientColor")
      (UVec3 (ambientColor light));
    SetUniform ("lightSources[" ++ to_string i ++ "].diffuseColor")
      (UVec3 (diffuseColor light));
    SetUniform ("lightSources[" ++ to_string i ++ "].specularColor")
      (UVec3 (specularColor light)) ].

(** A light unlike the three of the scene. *)
Definition moonlight : LIGHT_SOURCE :=
  {| position := Vec3 0 30 0;
     ambientColor := Vec3 0.1 0.1 0.2;
     diffuseColor := Vec3 0.2 0.2 0.4;
     specularColor := Vec3 0.5 0.5 0.5;
     focalStrength := 8;
     specularIntensity := 0.5 |}.

(** [empty_disk_world] after one [PrepareScene]: nothing was loaded. *)
Definition unloaded_world : Scene.World := world_after PrepareScene empty_disk_world.

(** ** PrepareScene, whatever the files hold *)

(** The files [PrepareScene] loads, with their tags, in order. *)
Definition scene_textures : list (string * string) :=
  [ ("textures/bark.jpg", "bark"); ("textures/grass.jpg", "grass");
    ("textures/water.jpg", "water"); ("textures/leaves.jpg", "leaves");
    ("textures/sky.jpg", "sky") ].

(** The world after [CreateGLTexture] was called for each file of
    [sources] in turn. *)
Definition load_all (sources : list (string * string)) (w : Scene.World) : Scene.World :=
  foldl (fun w0 source => after_CreateGLTexture (fst source) (snd source) w0) w sources.

(** The tags of the files of [sources] that load. *)
Definition loaded_tags (w : Scene.World) (sources : list (string * string)) : list string :=
  map snd (List.filter (fun source => loads w (fst source)) sources).

(** [bUseTexture] set to 1. *)
Definition enables_texturing (e : Event) : bool :=
  match e with
  | SetUniform name (UInt 1) => String.eqb name "bUseTexture"
  | _ => false
  end.

Definition is_textured (p : Paint) : bool :=
  match p with Textured _ => true | Flat _ => false end.

(** ** What the model matrices do to points *)

(** A write of the ["model"] matrix. *)
Definition is_model_write (e : Event) : bool :=
  match e with
  | SetUniform name (UMat4 _) => String.eqb name "model"
  | _ => false
  end.

(** The squared length of the spatial part of a vector. *)
Definition norm2 (v : vec4) : R := (x4 v * x4 v + y4 v * y4 v + z4 v * z4 v)%R.

(** ** The keys that move the camera *)

Section Moves.

Context `{View.CameraClass}.

(** The movement keys with their directions, in the order
    [ProcessKeyboardEvents] polls them. *)
Definition movement_keys : list (View.Key * View.Camera_Movement) :=
  [ (View.GLFW_KEY_W, View.FORWARD); (View.GLFW_KEY_S, View.BACKWARD);
    (View.GLFW_KEY_A, View.LEFT); (View.GLFW_KEY_D, View.RIGHT);
    (View.GLFW_KEY_Q, View.UP); (View.GLFW_KEY_E, View.DOWN) ].

(** The directions whose key is down. *)
Definition held_moves (w : View.World) : list View.Camera_Movement :=
  map snd (List.filter (fun km => View.keys w (fst km)) movement_keys).

(** A camera taken through a list of moves, each lasting [dt]. *)
Definition moved (dt : R) (moves : list View.Camera_Movement)
    (c : View.Camera) : View.Camera :=
  fold_left (fun c d => View.ProcessKeyboard d dt c) moves c.

(** The window-close request of the Escape key. *)
Definition close_request (w : View.World) : list Event :=
  if View.keys w View.GLFW_KEY_ESCAPE then [GlfwSetWindowShouldClose] else [].

End Moves.

(** ** The mouse callbacks of ViewManager.cpp *)

Module Mouse.

(** The two further [Camera] methods the mouse callbacks call. *)
Class MouseCameraClass `{View.CameraClass} := {
  ProcessMouseMovement : R -> R -> View.Camera -> View.Camera;
  ProcessMouseScroll : R -> View.Camera -> View.Camera
}.

(** What [glfwGetWindowUserPointer(window)] gives, cast to
    [ViewManager*]: NULL, or the ViewManager of the world. *)
Inductive ViewManagerPtr := NullView | ViewPtr.

Section Callbacks.

Context `{MouseCameraClass}.

Local Open Scope R_scope.

(** [gLastX = x; gLastY = y;] and [gFirstMouse = first]. *)
Definition set_mouse (x y : R) (first : bool) (w : View.World) : View.World :=
  {| View.this := View.this w;
     View.globals :=
       {| View.gLastX := x;
          View.gLastY := y;
          View.gFirstMouse := first;
          View.gDeltaTime := View.gDeltaTime (View.globals w);
          View.gLastFrame := View.gLastFrame (View.globals w);
          View.bOrthographicProjection :=
            View.bOrthographicProjection (View.globals w) |};
     View.keys := View.keys w;
     View.glfw_time := View.glfw_time w |}.

(** [Mouse_Position_Callback(window, xMousePos, yMousePos)], with
    [viewManager] the user pointer of [window]. The two positions are
    [double]s; every use narrows them with [static_cast<float>], and
    the offsets are float subtractions. *)
Definition Mouse_Position_Callback (viewManager : ViewManagerPtr)
    (xMousePos yMousePos : R) (w : View.World) : View.World :=
  let w :=
    if View.gFirstMouse (View.globals w)
    then set_mouse (Float32.to_float xMousePos) (Float32.to_float yMousePos) false w
    else w in
  let xoffset :=
    Float32.to_float (Float32.to_float xMousePos - View.gLastX (View.globals w)) in
  let yoffset :=
    Float32.to_float (View.gLastY (View.globals w) - Float32.to_float yMousePos) in
  let w := set_mouse (Float32.to_float xMousePos) (Float32.to_float yMousePos)
             (View.gFirstMouse (View.globals w)) w in
  match viewManager with
  | ViewPtr =>
      View.set_camera
        (ProcessMouseMovement xoffset yoffset (View.m_Camera (View.this w))) w
  | NullView => w
  end.

(** [Mouse_Scroll_Callback(window, xOffset, yOffset)]; the wheel
    offset is a [double], narrowed with [static_cast<float>]. *)
Definition Mouse_Scroll_Callback (viewManager : ViewManagerPtr)
    (xOffset yOffset : R) (w : View.World) : View.World :=
  match viewManager with
  | ViewPtr =>
      View.set_camera
        (ProcessMouseScroll (Float32.to_float yOffset) (View.m_Camera (View.this w))) w
  | NullView => w
  end.

End Callbacks.

End Mouse.

(** A stand-in for the mouse methods of the camera: moving the mouse
    pans the position, the wheel narrows the zoom. *)
#[local] Instance demo_mouse_camera : @Mouse.MouseCameraClass demo_camera :=
  @Mouse.Build_MouseCameraClass demo_camera
    (fun xoffset yoffset (c : vec3 * R) =>
       (Vec3 (x3 (fst c) + 0.1 * xoffset) (y3 (fst c) + 0.1 * yoffset) (z3 (fst c)),
        snd c))
    (fun yoffset (c : vec3 * R) => (fst c, (snd c - yoffset)%R)).

(** A ViewManager late in a run: the time kept from the frame
    before, and the next clock readings [t0] and, from then on, [t1]. *)
Definition late_view_world (pShaderManager : ShaderManagerPtr)
    (last t0 t1 : R) (held : list View.Key) : View.World :=
  {| View.this := View.ViewManager_new pShaderManager;
     View.globals :=
       {| View.gLastX := View.gLastX View.Globals_initial;
          View.gLastY := View.gLastY View.Globals_initial;
          View.gFirstMouse := true;
          View.gDeltaTime := 0;
          View.gLastFrame := last;
          View.bOrthographicProjection := false |};
     View.keys := View.keys (demo_view_world held);
     View.glfw_time := fun n => match n with O => t0 | S _ => t1 end |}.

(** The binade of [x]: its unit in the last place is [2^e]. *)
Definition in_binade (x : R) (e : Z) : Prop :=
  (-149 <= e <= 104)%Z /\ (Rabs x < pow2 (e + 24))%R
  /\ (e = (-149)%Z \/ (pow2 (e + 23) <= Rabs x)%R).

(** * Properties *)

(** ** Rounding to single precision *)

Section Rounding.
Local Open Scope R_scope.

Lemma pow2_pos (e : Z) : 0 < pow2 e.
Proof. unfold pow2. apply powerRZ_lt. lra. Qed.

Lemma pow2_add (a b : Z) : pow2 (a + b) = pow2 a * pow2 b.
Proof. unfold pow2. apply powerRZ_add. lra. Qed.

Lemma pow2_nonneg_IZR (n : Z) : (0 <= n)%Z -> pow2 n = IZR (2 ^ n).
Proof.
  intros H. unfold pow2. rewrite <- (Z2Nat.id n H).
  rewrite <- pow_powerRZ, pow_IZR. reflexivity.
Qed.

Lemma pow2_ge_1 (n : Z) : (0 <= n)%Z -> 1 <= pow2 n.
Proof.
  intros H. unfold pow2. rewrite <- (Z2Nat.id n H), <- pow_powerRZ.
  apply pow_R1_Rle. lra.
Qed.

Lemma pow2_le (a b : Z) : (a <= b)%Z -> pow2 a <= pow2 b.
Proof.
  intros H. replace b with (a + (b - a))%Z by lia. rewrite pow2_add.
  pose proof (pow2_pos a). pose proof (pow2_ge_1 (b - a) ltac:(lia)). nra.
Qed.

Lemma Int_part_bounds (r : R) : IZR (Int_part r) <= r < IZR (Int_part r) + 1.
Proof. destruct (base_Int_part r) as [H1 H2]. lra. Qed.

Lemma nearest_even_near (r : R) (z : Z) :
  Rabs (r - IZR z) < 1 / 2 -> nearest_even r = z.
Proof.
  intros H. apply Rabs_def2 in H. destruct H as [Hlt Hgt].
  unfold nearest_even. cbv zeta.
  pose proof (Int_part_bounds r) as [Hn1 Hn2].
  set (n := Int_part r) in *.
  assert (Hle : (n <= z)%Z).
  { apply Z.lt_succ_r. apply lt_IZR. rewrite succ_IZR. lra. }
  assert (Hge : (z - 1 <= n)%Z).
  { apply Z.lt_succ_r. apply lt_IZR. rewrite succ_IZR, minus_IZR. lra. }
  assert (Hcases : n = z \/ n = (z - 1)%Z) by lia.
  destruct Hcases as [-> | Hn].
  - destruct (total_order_T (r - IZR z) (1 / 2)) as [[_|He]|Hg]; [reflexivity|lra|lra].
  - assert (Hr : IZR n = IZR z - 1) by (rewrite Hn, minus_IZR; lra).
    destruct (total_order_T (r - IZR n) (1 / 2)) as [[Hl|He]|Hg]; [lra|lra|lia].
Qed.

Lemma nearest_even_tie (r : R) (z : Z) :
  r = IZR z + 1 / 2 -> nearest_even r = if Z.even z then z else (z + 1)%Z.
Proof.
  intros ->. unfold nearest_even. cbv zeta.
  pose proof (Int_part_bounds (IZR z + 1 / 2)) as [Hn1 Hn2].
  set (n := Int_part (IZR z + 1 / 2)) in *.
  assert (Hle : (n <= z)%Z).
  { apply Z.lt_succ_r. apply lt_IZR. rewrite succ_IZR. lra. }
  assert (Hge : (z <= n)%Z).
  { apply Z.lt_succ_r. apply lt_IZR. rewrite succ_IZR. lra. }
  assert (n = z) as -> by lia.
  destruct (total_order_T (IZR z + 1 / 2 - IZR z) (1 / 2)) as [[Hl|_]|Hg];
    [lra|reflexivity|lra].
Qed.

Lemma ulp_exponent_from_found (fuel : nat) (e0 e : Z) (a : R) :
  (e0 <= e)%Z -> (e - e0 <= Z.of_nat fuel)%Z ->
  (forall k, (e0 <= k < e)%Z -> pow2 (k + 24) <= a) ->
  (a < pow2 (e + 24) \/ (e - e0 = Z.of_nat fuel)%Z) ->
  ulp_exponent_from fuel e0 a = e.
Proof.
  revert e0. induction fuel as [|fuel IH]; intros e0 H0 Hfuel Hbelow Hfound.
  - cbn. lia.
  - cbn [ulp_exponent_from].
    destruct (Rlt_dec a (pow2 (e0 + 24))) as [Hlt|Hnlt].
    + destruct (Z.eq_dec e0 e) as [|Hne]; [assumption|].
      specialize (Hbelow e0 ltac:(lia)). lra.
    + assert (e0 <> e).
      { intros ->. destruct Hfound as [Hf|Hf]; [contradiction|lia]. }
      apply IH; [lia|lia| |].
      * intros k Hk. apply Hbelow. lia.
      * destruct Hfound as [Hf|Hf]; [left; exact Hf|right; lia].
Qed.

Lemma ulp_exponent_binade (x : R) (e : Z) : in_binade x e -> ulp_exponent x = e.
Proof.
  intros (He & Hlt & Hge). unfold ulp_exponent.
  apply ulp_exponent_from_found; [lia|lia| |left; exact Hlt].
  intros k Hk. destruct Hge as [->|Hge]; [lia|].
  apply Rle_trans with (2 := Hge). apply pow2_le. lia.
Qed.

Lemma to_float_near (x : R) (e z : Z) :
  in_binade x e -> Rabs (x / pow2 e - IZR z) < 1 / 2 -> to_float x = IZR z * pow2 e.
Proof.
  intros Hb Hz. unfold to_float. cbv zeta.
  rewrite (ulp_exponent_binade x e Hb), (nearest_even_near _ z Hz). reflexivity.
Qed.

Lemma to_float_tie (x : R) (e z : Z) :
  in_binade x e -> x / pow2 e = IZR z + 1 / 2 ->
  to_float x = IZR (if Z.even z then z else z + 1) * pow2 e.
Proof.
  intros Hb Hz. unfold to_float. cbv zeta.
  rewrite (ulp_exponent_binade x e Hb), (nearest_even_tie _ z Hz). reflexivity.
Qed.

Lemma to_float_0 : to_float 0 = 0.
Proof.
  rewrite (to_float_near 0 (-149) 0).
  - lra.
  - split; [lia|]. split; [|left; reflexivity].
    rewrite Rabs_R0. apply pow2_pos.
  - unfold Rdiv. rewrite Rmult_0_l, Rminus_diag, Rabs_R0. lra.
Qed.

Lemma ulp_exponent_from_le (fuel : nat) (e0 e : Z) (a : R) :
  (e0 <= e)%Z -> a < pow2 (e + 24) ->
  (e0 <= ulp_exponent_from fuel e0 a <= e)%Z.
Proof.
  revert e0. induction fuel as [|fuel IH]; intros e0 H0 Hlt; cbn [ulp_exponent_from].
  - lia.
  - destruct (Rlt_dec a (pow2 (e0 + 24))) as [_|Hn]; [lia|].
    assert (e0 <> e) by (intros ->; contradiction).
    specialize (IH (e0 + 1)%Z ltac:(lia) Hlt). lia.
Qed.

(** A value with a 24-bit significand and an exponent in range is a
    float: rounding leaves it as it is. *)
Lemma to_float_exact (m e : Z) :
  (Z.abs m < 2 ^ 24)%Z -> (-149 <= e)%Z ->
  to_float (IZR m * pow2 e) = IZR m * pow2 e.
Proof.
  intros Hm He. unfold to_float. cbv zeta.
  set (x := IZR m * pow2 e).
  assert (Hx : Rabs x < pow2 (e + 24)).
  { unfold x. rewrite Rabs_mult, (Rabs_pos_eq (pow2 e)) by (apply Rlt_le, pow2_pos).
    rewrite Z.add_comm, pow2_add, (pow2_nonneg_IZR 24) by lia.
    apply Rmult_lt_compat_r; [apply pow2_pos|].
    rewrite <- abs_IZR. apply IZR_lt. exact Hm. }
  pose proof (ulp_exponent_from_le 253 (-149) e (Rabs x) He Hx) as He'.
  fold (ulp_exponent x) in He'. set (e' := ulp_exponent x) in *.
  assert (Hq : x / pow2 e' = IZR (m * 2 ^ (e - e'))).
  { unfold x. replace e with ((e - e') + e')%Z at 1 by lia.
    rewrite pow2_add, mult_IZR, <- pow2_nonneg_IZR by lia.
    field. apply Rgt_not_eq, pow2_pos. }
  rewrite Hq, (nearest_even_near _ (m * 2 ^ (e - e'))).
  - rewrite <- Hq. field. apply Rgt_not_eq, pow2_pos.
  - rewrite Rminus_diag, Rabs_R0. lra.
Qed.

Lemma to_float_IZR (m : Z) : (Z.abs m < 2 ^ 24)%Z -> to_float (IZR m) = IZR m.
Proof.
  intros Hm. pose proof (to_float_exact m 0 Hm ltac:(lia)) as H.
  unfold pow2 in H. cbn [powerRZ] in H. rewrite Rmult_1_r in H. exact H.
Qed.

(** Around [2^24] the floats are two apart: [2^24 + 1] lies midway
    and goes to the even neighbour. *)
Lemma to_float_2p24 : to_float 16777216 = 16777216.
Proof.
  pose proof (to_float_exact 1 24 ltac:(lia) ltac:(lia)) as H.
  rewrite (pow2_nonneg_IZR 24) in H by lia.
  change (2 ^ 24)%Z with 16777216%Z in H. rewrite Rmult_1_l in H. exact H.
Qed.

Lemma to_float_2p24_1 : to_float 16777217 = 16777216.
Proof.
  rewrite (to_float_tie 16777217 1 8388608).
  - change (Z.even 8388608) with true. cbv iota. unfold pow2. cbn [powerRZ]. simpl. lra.
  - split; [lia|]. split.
    + rewrite Rabs_pos_eq by lra. rewrite (pow2_nonneg_IZR (1 + 24)) by lia.
      change (2 ^ (1 + 24))%Z with 33554432%Z. lra.
    + right. rewrite Rabs_pos_eq by lra. rewrite (pow2_nonneg_IZR (1 + 23)) by lia.
      change (2 ^ (1 + 23))%Z with 16777216%Z. lra.
  - unfold pow2. cbn [powerRZ]. simpl. lra.
Qed.

Lemma to_float_2p24_2 : to_float 16777218 = 16777218.
Proof.
  pose proof (to_float_exact 8388609 1 ltac:(lia) ltac:(lia)) as H.
  unfold pow2 in H. cbn [powerRZ] in H. simpl in H.
  replace (8388609 * (2 * 1)) with 16777218 in H by lra. exact H.
Qed.

(** GLM's degree, [static_cast<float>(0.0174532925...)], is
    [9370165 * 2^-29]. *)
Lemma pow2_m29 : pow2 (-29) = / 536870912.
Proof. unfold pow2. cbn [powerRZ]. simpl. f_equal. lra. Qed.

Lemma to_float_degree : to_float 0.01745329251994329576923690768489 = 9370165 / 536870912.
Proof.
  rewrite (to_float_near _ (-29) 9370165).
  - rewrite pow2_m29. lra.
  - split; [lia|]. split.
    + rewrite Rabs_pos_eq by lra. unfold pow2. cbn [Z.add Z.pos_sub Pos.pred_double powerRZ]. simpl. lra.
    + right. rewrite Rabs_pos_eq by lra. unfold pow2. cbn [Z.add Z.pos_sub powerRZ]. simpl. lra.
  - rewrite pow2_m29. apply Rabs_def1; lra.
Qed.

(** A billion degrees is 17453292 radians to [glm::radians], not
    17453292.5...: the sines and cosines of the two differ. *)
Lemma radians_billion : radians 1000000000 = 17453292.
Proof.
  unfold radians. rewrite to_float_degree.
  rewrite (to_float_near _ 1 8726646).
  - unfold pow2. cbn [powerRZ]. simpl. lra.
  - split; [lia|]. split.
    + rewrite Rabs_pos_eq by lra. rewrite (pow2_nonneg_IZR (1 + 24)) by lia.
      change (2 ^ (1 + 24))%Z with 33554432%Z. lra.
    + right. rewrite Rabs_pos_eq by lra. rewrite (pow2_nonneg_IZR (1 + 23)) by lia.
      change (2 ^ (1 + 23))%Z with 16777216%Z. lra.
  - unfold pow2. cbn [powerRZ]. simpl. apply Rabs_def1; lra.
Qed.

(** Half a turn is the float nearest to pi. *)
Lemma radians_180 : radians 180 = 13176795 / 4194304.
Proof.
  unfold radians. rewrite to_float_degree.
  rewrite (to_float_near _ (-22) 13176795).
  - unfold pow2. cbn [powerRZ]. simpl. lra.
  - split; [lia|]. split.
    + rewrite Rabs_pos_eq by lra. rewrite (pow2_nonneg_IZR (-22 + 24)) by lia.
      change (2 ^ (-22 + 24))%Z with 4%Z. lra.
    + right. rewrite Rabs_pos_eq by lra. rewrite (pow2_nonneg_IZR (-22 + 23)) by lia.
      change (2 ^ (-22 + 23))%Z with 2%Z. lra.
  - unfold pow2. cbn [powerRZ]. simpl. apply Rabs_def1; lra.
Qed.

End Rounding.

(** ** GLM against the textbook matrices *)

Section GlmFacts.

Local Open Scope R_scope.

Lemma vec4_eq (a b c d a' b' c' d' : R) :
  a = a' -> b = b' -> c = c' -> d = d' -> Vec4 a b c d = Vec4 a' b' c' d'.
Proof. intros; subst; reflexivity. Qed.

Lemma mat4_eq (a b c d a' b' c' d' : vec4) :
  a = a' -> b = b' -> c = c' -> d = d' -> Mat4 a b c d = Mat4 a' b' c' d'.
Proof. intros; subst; reflexivity. Qed.

Ltac mat4_entries :=
  apply mat4_eq; apply vec4_eq; cbn; try ring.

Lemma translate_identity (p : vec3) :
  translate (mat4_diag 1) p = translation_matrix p.
Proof. unfold translate, translation_matrix. mat4_entries. Qed.

Lemma scale_identity (s : vec3) :
  scale (mat4_diag 1) s = scaling_matrix s.
Proof. unfold scale, scaling_matrix. mat4_entries. Qed.

Lemma normalize_x : normalize (Vec3 1 0 0) = Vec3 1 0 0.
Proof.
  unfold normalize, inversesqrt, dot, vec3_scale; cbn.
  replace (1 * 1 + 0 * 0 + 0 * 0) with 1 by ring.
  rewrite sqrt_1. f_equal; field.
Qed.

Lemma normalize_y : normalize (Vec3 0 1 0) = Vec3 0 1 0.
Proof.
  unfold normalize, inversesqrt, dot, vec3_scale; cbn.
  replace (0 * 0 + 1 * 1 + 0 * 0) with 1 by ring.
  rewrite sqrt_1. f_equal; field.
Qed.

Lemma normalize_z : normalize (Vec3 0 0 1) = Vec3 0 0 1.
Proof.
  unfold normalize, inversesqrt, dot, vec3_scale; cbn.
  replace (0 * 0 + 0 * 0 + 1 * 1) with 1 by ring.
  rewrite sqrt_1. f_equal; field.
Qed.

Lemma rotate_identity_x (a : R) :
  rotate (mat4_diag 1) a (Vec3 1 0 0) = rotation_x a.
Proof.
  unfold rotate. rewrite normalize_x. unfold rotation_x. mat4_entries.
Qed.

Lemma rotate_identity_y (a : R) :
  rotate (mat4_diag 1) a (Vec3 0 1 0) = rotation_y a.
Proof.
  unfold rotate. rewrite normalize_y. unfold rotation_y. mat4_entries.
Qed.

Lemma rotate_identity_z (a : R) :
  rotate (mat4_diag 1) a (Vec3 0 0 1) = rotation_z a.
Proof.
  unfold rotate. rewrite normalize_z. unfold rotation_z. mat4_entries.
Qed.

Lemma radians_0 : radians 0 = 0.
Proof. unfold radians. rewrite Rmult_0_l. apply to_float_0. Qed.

Lemma rotation_x_0 : rotation_x 0 = mat4_identity.
Proof. unfold rotation_x. rewrite cos_0, sin_0. mat4_entries. Qed.

Lemma rotation_y_0 : rotation_y 0 = mat4_identity.
Proof. unfold rotation_y. rewrite cos_0, sin_0. mat4_entries. Qed.

Lemma rotation_z_0 : rotation_z 0 = mat4_identity.
Proof. unfold rotation_z. rewrite cos_0, sin_0. mat4_entries. Qed.

Lemma mat4_mul_identity_l (m : mat4) : mat4_mul mat4_identity m = m.
Proof. destruct m as [[] [] [] []]. unfold mat4_mul. mat4_entries. Qed.

Lemma mat4_mul_identity_r (m : mat4) : mat4_mul m mat4_identity = m.
Proof. destruct m as [[] [] [] []]. unfold mat4_mul. mat4_entries. Qed.

Lemma mat4_mul_assoc (a b c : mat4) :
  mat4_mul (mat4_mul a b) c = mat4_mul a (mat4_mul b c).
Proof.
  destruct a as [[] [] [] []], b as [[] [] [] []], c as [[] [] [] []].
  unfold mat4_mul. mat4_entries.
Qed.

(** The matrix of [SetTransformations] is the product of the five
    textbook matrices, in the order translate, X, Y, Z, scale. *)
Lemma model_matrix_product (s : vec3) (rx ry rz : R) (p : vec3) :
  model_matrix s rx ry rz p =
  mat4_mul
    (mat4_mul
       (mat4_mul
          (mat4_mul (translation_matrix p) (rotation_x (radians rx)))
          (rotation_y (radians ry)))
       (rotation_z (radians rz)))
    (scaling_matrix s).
Proof.
  unfold model_matrix.
  rewrite translate_identity, rotate_identity_x, rotate_identity_y,
    rotate_identity_z, scale_identity.
  reflexivity.
Qed.

Lemma translation_matrix_0 : translation_matrix (Vec3 0 0 0) = mat4_identity.
Proof. reflexivity. Qed.

Lemma scaling_matrix_1 : scaling_matrix (Vec3 1 1 1) = mat4_identity.
Proof. reflexivity. Qed.

Lemma model_matrix_rest : model_matrix (Vec3 1 1 1) 0 0 0 (Vec3 0 0 0) = mat4_identity.
Proof.
  rewrite model_matrix_product, radians_0, rotation_x_0, rotation_y_0,
    rotation_z_0, translation_matrix_0, scaling_matrix_1.
  rewrite !mat4_mul_identity_l. reflexivity.
Qed.

Lemma model_matrix_y_only (ry : R) :
  model_matrix (Vec3 1 1 1) 0 ry 0 (Vec3 0 0 0) = rotation_y (radians ry).
Proof.
  rewrite model_matrix_product, radians_0, rotation_x_0, rotation_z_0,
    translation_matrix_0, scaling_matrix_1.
  rewrite !mat4_mul_identity_l, !mat4_mul_identity_r. reflexivity.
Qed.

End GlmFacts.

(** ** The guarded setters *)

Section Setters.

Variable w : Scene.World.

Lemma if_shader_attached (body : M unit) :
  m_pShaderManager (Scene.this w) = ShaderPtr -> if_shader body w =
  match body w with
  | Returns a w' e => Returns a w' e
  | NullDereference => NullDereference
  | OutOfBounds => OutOfBounds
  end.
Proof.
  intros Hp. unfold if_shader, bind, gets. rewrite Hp.
  destruct (body w); reflexivity.
Qed.

Lemma if_shader_null (body : M unit) :
  m_pShaderManager (Scene.this w) = NULL -> if_shader body w = Returns tt w [].
Proof. intros Hp. unfold if_shader, bind, gets, ret. rewrite Hp. reflexivity. Qed.

Lemma shader_call_attached (e : Event) :
  m_pShaderManager (Scene.this w) = ShaderPtr -> shader_call e w = Returns tt w [e].
Proof. intros Hp. unfold shader_call. rewrite Hp. reflexivity. Qed.

Lemma shader_call_null (e : Event) :
  m_pShaderManager (Scene.this w) = NULL -> shader_call e w = NullDereference.
Proof. intros Hp. unfold shader_call. rewrite Hp. reflexivity. Qed.

Lemma SetTransformations_attached (s : vec3) (rx ry rz : R) (p : vec3) :
  m_pShaderManager (Scene.this w) = ShaderPtr ->
  SetTransformations s rx ry rz p w =
  Returns tt w [SetUniform "model" (UMat4 (model_matrix s rx ry rz p))].
Proof.
  intros Hp. unfold SetTransformations.
  rewrite if_shader_attached, shader_call_attached by exact Hp. reflexivity.
Qed.

Lemma SetShaderColor_attached (r g b a : R) :
  m_pShaderManager (Scene.this w) = ShaderPtr ->
  SetShaderColor r g b a w =
  Returns tt w [SetUniform "bUseTexture" (UInt 0);
                SetUniform "objectColor" (UVec4 (Vec4 r g b a))].
Proof.
  intros Hp. unfold SetShaderColor.
  rewrite if_shader_attached by exact Hp.
  unfold bind. rewrite !shader_call_attached by exact Hp. reflexivity.
Qed.

Lemma SetTextureUVScale_attached (u v : R) :
  m_pShaderManager (Scene.this w) = ShaderPtr ->
  SetTextureUVScale u v w = Returns tt w [SetUniform "UVscale" (UVec2 (Vec2 u v))].
Proof.
  intros Hp. unfold SetTextureUVScale.
  rewrite if_shader_attached, shader_call_attached by exact Hp. reflexivity.
Qed.

Lemma SetLightColor_attached (r g b a : R) :
  m_pShaderManager (Scene.this w) = ShaderPtr ->
  SetLightColor r g b a w = Returns tt w [SetUniform "lightColor" (UVec4 (Vec4 r g b a))].
Proof.
  intros Hp. unfold SetLightColor.
  rewrite if_shader_attached, shader_call_attached by exact Hp. reflexivity.
Qed.

End Setters.

(** ** C1: the model matrix *)

(** C1. With a ShaderManager attached, [SetTransformations] pushes one
    uniform, ["model"], whose value is the product
    translate(position) * rotateX * rotateY * rotateZ * scale of the
    textbook matrices, the angles converted to radians as
    [glm::radians] converts a [float] (the product with the float
    nearest to pi/180, rounded to single precision), the entries up
    to the rounding of the matrix products; at scale (1,1,1), angles 0
    and position (0,0,0) that value is the identity, and with only the
    Y angle left free it is the rotation about the Y axis. *)
Theorem SetTransformations_pushes_model
    (w : Scene.World) (scaleXYZ : vec3) (X Y Z : R) (positionXYZ : vec3) :
  m_pShaderManager (Scene.this w) = ShaderPtr ->
  SetTransformations scaleXYZ X Y Z positionXYZ w =
    Returns tt w
      [SetUniform "model"
         (UMat4
            (mat4_mul
               (mat4_mul
                  (mat4_mul
                     (mat4_mul (translation_matrix positionXYZ)
                               (rotation_x (radians X)))
                     (rotation_y (radians Y)))
                  (rotation_z (radians Z)))
               (scaling_matrix scaleXYZ)))]
  /\ SetTransformations (Vec3 1 1 1) 0 0 0 (Vec3 0 0 0) w =
       Returns tt w [SetUniform "model" (UMat4 mat4_identity)]
  /\ SetTransformations (Vec3 1 1 1) 0 Y 0 (Vec3 0 0 0) w =
       Returns tt w [SetUniform "model" (UMat4 (rotation_y (radians Y)))].
Proof.
  intros Hp.
  rewrite !SetTransformations_attached by exact Hp.
  rewrite model_matrix_product, model_matrix_rest, model_matrix_y_only.
  repeat split.
Qed.

(** At half a turn about Y and a billion degrees about Z the angles
    are the floats 13176795 / 2^22 (the float nearest to pi) and
    17453292. *)
Lemma SetTransformations_pushes_model_witness :
  SetTransformations (Vec3 2 3 4) 30 180 1000000000 (Vec3 1 0 (-1)) demo_world =
    Returns tt demo_world
      [SetUniform "model"
         (UMat4
            (mat4_mul
               (mat4_mul
                  (mat4_mul
                     (mat4_mul (translation_matrix (Vec3 1 0 (-1)))
                               (rotation_x (radians 30)))
                     (rotation_y (13176795 / 4194304)))
                  (rotation_z 17453292))
               (scaling_matrix (Vec3 2 3 4))))]
  /\ SetTransformations (Vec3 1 1 1) 0 0 0 (Vec3 0 0 0) demo_world =
       Returns tt demo_world [SetUniform "model" (UMat4 mat4_identity)]
  /\ SetTransformations (Vec3 1 1 1) 0 180 0 (Vec3 0 0 0) demo_world =
       Returns tt demo_world
         [SetUniform "model" (UMat4 (rotation_y (13176795 / 4194304)))].
Proof.
  rewrite <- radians_180, <- radians_billion.
  apply (SetTransformations_pushes_model demo_world (Vec3 2 3 4) 30 180 1000000000
           (Vec3 1 0 (-1))).
  reflexivity.
Defined.

(** ** The two lookups *)

Section Lookups.

Lemma FindTextureSlot_loop_run (tag0 : string) (w : Scene.World) (count i : nat) :
  (i + count <= length (m_textureIDs (Scene.this w)))%nat ->
  FindTextureSlot_loop tag0 i count w =
  Returns (slot_of tag0 (take count (drop i (m_textureIDs (Scene.this w)))) i) w [].
Proof.
  revert i. induction count as [|count IH]; intros i Hlen.
  - reflexivity.
  - cbn [FindTextureSlot_loop]. unfold bind at 1, texture_at at 1.
    destruct (m_textureIDs (Scene.this w) !! i) as [t|] eqn:Hi.
    + rewrite (drop_S _ _ _ Hi). cbn [take slot_of].
      destruct (String.eqb (tag t) tag0).
      * reflexivity.
      * rewrite IH by lia. reflexivity.
    + apply lookup_ge_None in Hi. lia.
Qed.

Lemma FindTextureSlot_run (tag0 : string) (w : Scene.World) :
  registry_ok (Scene.this w) ->
  FindTextureSlot tag0 w = Returns (slot_of tag0 (registered (Scene.this w)) 0) w [].
Proof.
  intros (Hlen & _ & Hn). unfold FindTextureSlot, bind at 1, gets at 1.
  rewrite FindTextureSlot_loop_run by (cbn; lia).
  reflexivity.
Qed.

Lemma slot_of_found (tag0 : string) (l : list TEXTURE_INFO) (k i : nat) (t : TEXTURE_INFO) :
  l !! i = Some t -> tag t = tag0 ->
  (forall j t', (j < i)%nat -> l !! j = Some t' -> tag t' <> tag0) ->
  slot_of tag0 l k = Z.of_nat (k + i).
Proof.
  revert k i. induction l as [|a l IH]; intros k i Hi Ht Hfirst.
  - discriminate.
  - cbn [slot_of]. destruct i as [|i].
    + injection Hi as ->. rewrite (proj2 (String.eqb_eq _ _) Ht). f_equal. lia.
    + destruct (String.eqb_spec (tag a) tag0) as [Ha|_].
      * exfalso. apply (Hfirst 0%nat a); [lia|reflexivity|exact Ha].
      * rewrite (IH (S k) i); [f_equal; lia|exact Hi|exact Ht|].
        intros j t' Hj. apply (Hfirst (S j) t'). lia.
Qed.

Lemma slot_of_absent (tag0 : string) (l : list TEXTURE_INFO) (k : nat) :
  (forall j t', l !! j = Some t' -> tag t' <> tag0) -> slot_of tag0 l k = -1.
Proof.
  revert k. induction l as [|a l IH]; intros k Habs; [reflexivity|].
  cbn [slot_of]. destruct (String.eqb_spec (tag a) tag0) as [Ha|_].
  - exfalso. exact (Habs 0%nat a eq_refl Ha).
  - apply IH. intros j t'. apply (Habs (S j) t').
Qed.

Lemma slot_of_range (tag0 : string) (l : list TEXTURE_INFO) (k : nat) :
  slot_of tag0 l k = -1 \/
  exists i t, slot_of tag0 l k = Z.of_nat (k + i) /\ l !! i = Some t /\ tag t = tag0.
Proof.
  revert k. induction l as [|a l IH]; intros k; [left; reflexivity|].
  cbn [slot_of]. destruct (String.eqb_spec (tag a) tag0) as [Ha|_].
  - right. exists 0%nat, a. repeat split; [f_equal; lia|exact Ha].
  - destruct (IH (S k)) as [->|(i & t & -> & Hi & Ht)]; [left; reflexivity|].
    right. exists (S i), t. repeat split; [f_equal; lia|exact Hi|exact Ht].
Qed.

Lemma FindTextureID_run (tag0 : string) (w : Scene.World) :
  FindTextureID tag0 w =
  Returns (FindTextureID_loop (m_textureIDs (Scene.this w)) tag0) w [].
Proof. reflexivity. Qed.

(** A registered first match is also the first match of the scan over
    the whole array. *)
Lemma FindTextureID_loop_found (tag0 : string) (l : list TEXTURE_INFO)
    (i : nat) (t : TEXTURE_INFO) :
  l !! i = Some t -> tag t = tag0 ->
  (forall j t', (j < i)%nat -> l !! j = Some t' -> tag t' <> tag0) ->
  FindTextureID_loop l tag0 = int_of_GLuint (ID t).
Proof.
  revert i. induction l as [|a l IH]; intros i Hi Ht Hfirst; [discriminate|].
  cbn [FindTextureID_loop]. destruct i as [|i].
  - injection Hi as ->. rewrite (proj2 (String.eqb_eq _ _) Ht). reflexivity.
  - destruct (String.eqb_spec (tag a) tag0) as [Ha|_].
    + exfalso. apply (Hfirst 0%nat a); [lia|reflexivity|exact Ha].
    + apply (IH i); [exact Hi|exact Ht|].
      intros j t' Hj. apply (Hfirst (S j) t'). lia.
Qed.

Lemma int_of_GLuint_small (id : Z) : 0 <= id < 2 ^ 31 -> int_of_GLuint id = id.
Proof.
  intros Hid. unfold int_of_GLuint.
  rewrite Z.mod_small by lia. lia.
Qed.

End Lookups.

(** What [FindTextureSlot] returns, by the registered entries. *)
Lemma FindTextureSlot_first_registered (tag0 : string) (w : Scene.World) (i : nat) (t : TEXTURE_INFO) :
  registry_ok (Scene.this w) -> first_registered (Scene.this w) tag0 i t ->
  FindTextureSlot tag0 w = Returns (Z.of_nat i) w [].
Proof.
  intros Hok (Hi & Ht & Hfirst).
  rewrite FindTextureSlot_run by exact Hok.
  rewrite (slot_of_found tag0 _ 0 i t Hi Ht Hfirst). reflexivity.
Qed.

Lemma FindTextureSlot_never_registered (tag0 : string) (w : Scene.World) :
  registry_ok (Scene.this w) -> never_registered (Scene.this w) tag0 ->
  FindTextureSlot tag0 w = Returns (-1) w [].
Proof.
  intros Hok Habs.
  rewrite FindTextureSlot_run by exact Hok.
  rewrite (slot_of_absent tag0 _ 0 Habs). reflexivity.
Qed.

(** What [FindTextureID] returns for a registered tag. *)
Lemma FindTextureID_first_registered (tag0 : string) (w : Scene.World) (i : nat) (t : TEXTURE_INFO) :
  first_registered (Scene.this w) tag0 i t ->
  FindTextureID tag0 w = Returns (int_of_GLuint (ID t)) w [].
Proof.
  intros (Hi & Ht & Hfirst). rewrite FindTextureID_run.
  unfold registered in Hi, Hfirst.
  pose proof (lookup_lt_Some _ _ _ Hi) as Hlt. rewrite length_take in Hlt.
  rewrite lookup_take_lt in Hi by lia.
  rewrite (FindTextureID_loop_found tag0 _ i t Hi Ht); [reflexivity|].
  intros j t' Hj Hj'. apply (Hfirst j t' Hj).
  rewrite lookup_take_lt by lia. exact Hj'.
Qed.

Lemma FindTextureID_loop_absent (tag0 : string) (l : list TEXTURE_INFO) :
  (forall i t, l !! i = Some t -> tag t <> tag0) -> FindTextureID_loop l tag0 = -1.
Proof.
  induction l as [|a l IH]; intros Habs; [reflexivity|].
  cbn [FindTextureID_loop]. destruct (String.eqb_spec (tag a) tag0) as [Ha|_].
  - exfalso. exact (Habs 0%nat a eq_refl Ha).
  - apply IH. intros i t. apply (Habs (S i) t).
Qed.

(** For a non-empty tag that was never registered, [FindTextureID]
    answers -1 as long as the slots past the registered ones still hold
    the default entry. *)
Lemma FindTextureID_never_registered (tag0 : string) (w : Scene.World) :
  tag0 <> "" ->
  never_registered (Scene.this w) tag0 ->
  (forall i t, (Z.to_nat (m_loadedTextures (Scene.this w)) <= i)%nat ->
               m_textureIDs (Scene.this w) !! i = Some t -> t = TEXTURE_INFO_default) ->
  FindTextureID tag0 w = Returns (-1) w [].
Proof.
  intros Hne Habs Hrest. rewrite FindTextureID_run.
  rewrite FindTextureID_loop_absent; [reflexivity|].
  intros i t Hi.
  destruct (Nat.lt_ge_cases i (Z.to_nat (m_loadedTextures (Scene.this w)))) as [Hlt|Hge].
  - apply (Habs i t). unfold registered. rewrite lookup_take_lt by exact Hlt. exact Hi.
  - rewrite (Hrest i t Hge Hi). cbn. congruence.
Qed.

(** C2. On a freshly constructed SceneManager, and again after
    [PrepareScene] has registered bark, grass, water, leaves and sky,
    the empty string is the tag of no registered entry and
    [FindTextureSlot] answers -1 for it; [FindTextureID] answers 0, the
    [ID] of the first array entry that was never registered. *)
Theorem FindTextureID_empty_tag_returns_0 :
  (never_registered (Scene.this demo_world) ""
   /\ FindTextureSlot "" demo_world = Returns (-1) demo_world []
   /\ FindTextureID "" demo_world = Returns 0 demo_world [])
  /\ (map tag (registered (Scene.this prepared_world))
        = ["bark"; "grass"; "water"; "leaves"; "sky"]
      /\ FindTextureSlot "" prepared_world = Returns (-1) prepared_world []
      /\ FindTextureID "" prepared_world = Returns 0 prepared_world []).
Proof.
  split; split.
  - intros j t' Hj. destruct j; discriminate Hj.
  - split; reflexivity.
  - reflexivity.
  - split; reflexivity.
Qed.

(** ** C3: SetLightSource *)

Lemma string_append_assoc (a b c : string) : ((a ++ b) ++ c = a ++ (b ++ c))%string.
Proof. induction a as [|ch a IH]; cbn; [reflexivity|]. rewrite IH. reflexivity. Qed.

Lemma SetLightSource_out_of_range (w : Scene.World) (index : Z) (light : LIGHT_SOURCE) :
  ~ (0 <= index < 4) -> SetLightSource index light w = Returns tt w [].
Proof.
  intros Hout. unfold SetLightSource.
  destruct (Z.ltb_spec index 0) as [Hlo|Hlo]; [reflexivity|].
  destruct (Z.geb_spec index 4) as [Hhi|Hhi]; [reflexivity|lia].
Qed.

Lemma SetLightSource_in_range (w : Scene.World) (index : Z) (light : LIGHT_SOURCE) :
  0 <= index < 4 -> m_pShaderManager (Scene.this w) = ShaderPtr ->
  SetLightSource index light w =
  Returns tt (with_this (store_light (Z.to_nat index) light (Scene.this w)) w)
    (light_uniforms index light).
Proof.
  intros Hin Hp. unfold SetLightSource.
  destruct (Z.ltb_spec index 0) as [Hlo|_]; [lia|].
  destruct (Z.geb_spec index 4) as [Hhi|_]; [lia|].
  destruct w as [[p n ts ls] fs gt gn tm]. cbn in Hp. subst p. reflexivity.
Qed.

Lemma SetLightSource_null (w : Scene.World) (index : Z) (light : LIGHT_SOURCE) :
  0 <= index < 4 -> m_pShaderManager (Scene.this w) = NULL ->
  SetLightSource index light w = NullDereference.
Proof.
  intros Hin Hp. unfold SetLightSource.
  destruct (Z.ltb_spec index 0) as [Hlo|_]; [lia|].
  destruct (Z.geb_spec index 4) as [Hhi|_]; [lia|].
  destruct w as [[p n ts ls] fs gt gn tm]. cbn in Hp. subst p. reflexivity.
Qed.

(** C3. With a ShaderManager attached and the four-slot light array,
    [SetLightSource(i, L)] for [i] in [0,4) returns normally in a world
    where slot [i] holds [L], the other slots and the rest of the
    manager are as before, and the events issued are exactly the six
    uniforms [lightSources[i].position], [.ambientColor],
    [.diffuseColor], [.specularColor], [.focalStrength],
    [.specularIntensity] carrying the fields of [L]; for [i] outside
    [0,4) it returns normally in the same world with no event. *)
Theorem SetLightSource_bounds_checked
    (w : Scene.World) (index : Z) (light : LIGHT_SOURCE) :
  m_pShaderManager (Scene.this w) = ShaderPtr ->
  length (m_lightSources (Scene.this w)) = 4%nat ->
  (0 <= index < 4 ->
     exists w',
       SetLightSource index light w =
         Returns tt w'
           [ SetUniform ("lightSources[" ++ to_string index ++ "].position")
               (UVec3 (position light));
             SetUniform ("lightSources[" ++ to_string index ++ "].ambientColor")
               (UVec3 (ambientColor light));
             SetUniform ("lightSources[" ++ to_string index ++ "].diffuseColor")
               (UVec3 (diffuseColor light));
             SetUniform ("lightSources[" ++ to_string index ++ "].specularColor")
               (UVec3 (specularColor light));
             SetUniform ("lightSources[" ++ to_string index ++ "].focalStrength")
               (UFloat (focalStrength light));
             SetUniform ("lightSources[" ++ to_string index ++ "].specularIntensity")
               (UFloat (specularIntensity light)) ]
       /\ m_lightSources (Scene.this w') !! Z.to_nat index = Some light
       /\ (forall j, j <> Z.to_nat index ->
             m_lightSources (Scene.this w') !! j = m_lightSources (Scene.this w) !! j)
       /\ length (m_lightSources (Scene.this w')) = 4%nat
       /\ m_textureIDs (Scene.this w') = m_textureIDs (Scene.this w)
       /\ m_loadedTextures (Scene.this w') = m_loadedTextures (Scene.this w))
  /\ (~ (0 <= index < 4) -> SetLightSource index light w = Returns tt w []).
Proof.
  intros Hp Hlen. split.
  - intros Hin. eexists. split.
    + rewrite SetLightSource_in_range by assumption.
      unfold light_uniforms. cbn zeta.
      rewrite !string_append_assoc. reflexivity.
    + cbn. repeat split.
      * apply list_lookup_insert_eq. lia.
      * intros j Hj. apply list_lookup_insert_ne. congruence.
      * rewrite length_insert. exact Hlen.
  - apply SetLightSource_out_of_range.
Qed.

Lemma SetLightSource_bounds_checked_witness :
  (exists w',
     SetLightSource 2 light1 demo_world =
       Returns tt w'
         [ SetUniform "lightSources[2].position" (UVec3 (position light1));
           SetUniform "lightSources[2].ambientColor" (UVec3 (ambientColor light1));
           SetUniform "lightSources[2].diffuseColor" (UVec3 (diffuseColor light1));
           SetUniform "lightSources[2].specularColor" (UVec3 (specularColor light1));
           SetUniform "lightSources[2].focalStrength" (UFloat (focalStrength light1));
           SetUniform "lightSources[2].specularIntensity"
             (UFloat (specularIntensity light1)) ]
     /\ m_lightSources (Scene.this w') !! 2%nat = Some light1
     /\ (forall j, j <> 2%nat ->
           m_lightSources (Scene.this w') !! j
           = m_lightSources (Scene.this demo_world) !! j)
     /\ length (m_lightSources (Scene.this w')) = 4%nat
     /\ m_textureIDs (Scene.this w') = m_textureIDs (Scene.this demo_world)
     /\ m_loadedTextures (Scene.this w') = m_loadedTextures (Scene.this demo_world))
  /\ SetLightSource 7 light1 demo_world = Returns tt demo_world [].
Proof.
  split.
  - apply (proj1 (SetLightSource_bounds_checked demo_world 2 light1 eq_refl eq_refl)).
    lia.
  - apply (proj2 (SetLightSource_bounds_checked demo_world 7 light1 eq_refl eq_refl)).
    lia.
Defined.

(** ** C4: a failed texture load *)

(** C4. When [stbi_load] cannot decode the file, and when it decodes an
    image whose channel count is neither 3 nor 4, [CreateGLTexture]
    returns [false] and the SceneManager is the one it started from:
    same occupancy counter, same texture array. *)
Theorem CreateGLTexture_failure_keeps_registry
    (w : Scene.World) (filename tag0 : string) :
  (files w filename = None \/
   exists img, files w filename = Some img /\
               colorChannels img <> 3 /\ colorChannels img <> 4) ->
  exists w' events,
    CreateGLTexture filename tag0 w = Returns false w' events
    /\ Scene.this w' = Scene.this w
    /\ m_loadedTextures (Scene.this w') = m_loadedTextures (Scene.this w)
    /\ m_textureIDs (Scene.this w') = m_textureIDs (Scene.this w).
Proof.
  intros Hfile. destruct w as [sm fs gt gn tm]. cbn in Hfile.
  unfold CreateGLTexture, bind, emit, stbi_load. cbn [files].
  destruct Hfile as [Hnone|(img & Himg & H3 & H4)].
  - rewrite Hnone. do 2 eexists. split; [reflexivity|]. repeat split.
  - rewrite Himg. cbn [glGenTextures].
    destruct (Z.eqb_spec (colorChannels img) 3) as [E3|_]; [contradiction|].
    destruct (Z.eqb_spec (colorChannels img) 4) as [E4|_]; [contradiction|].
    do 2 eexists. split; [reflexivity|]. repeat split.
Qed.

Lemma CreateGLTexture_failure_keeps_registry_witness :
  (exists w' events,
     CreateGLTexture "textures/grass.jpg" "grass" empty_disk_world
       = Returns false w' events
     /\ Scene.this w' = Scene.this empty_disk_world
     /\ m_loadedTextures (Scene.this w') = m_loadedTextures (Scene.this empty_disk_world)
     /\ m_textureIDs (Scene.this w') = m_textureIDs (Scene.this empty_disk_world))
  /\ (exists w' events,
        CreateGLTexture "textures/grass.jpg" "grass" greyscale_world
          = Returns false w' events
        /\ Scene.this w' = Scene.this greyscale_world
        /\ m_loadedTextures (Scene.this w') = m_loadedTextures (Scene.this greyscale_world)
        /\ m_textureIDs (Scene.this w') = m_textureIDs (Scene.this greyscale_world)).
Proof.
  split.
  - apply (CreateGLTexture_failure_keeps_registry empty_disk_world).
    left. reflexivity.
  - apply (CreateGLTexture_failure_keeps_registry greyscale_world).
    right. exists {| width := 8; height := 8; colorChannels := 1 |}.
    split; [reflexivity|]. split; discriminate.
Defined.

(** ** Sequencing runs *)

Section Runs.

Lemma runs_ret {A} (a : A) (w : Scene.World) : runs (ret a) w a w [].
Proof. reflexivity. Qed.

Lemma runs_bind {A B} (m : M A) (k : A -> M B) (w w1 w2 : Scene.World)
    (a : A) (b : B) (e1 e2 : list Event) :
  runs m w a w1 e1 -> runs (k a) w1 b w2 e2 -> runs (bind m k) w b w2 (e1 ++ e2).
Proof. unfold runs, bind. intros -> ->. reflexivity. Qed.

Lemma runs_emit (e : Event) (w : Scene.World) : runs (emit e) w tt w [e].
Proof. reflexivity. Qed.

Lemma runs_shader_call (e : Event) (w : Scene.World) :
  m_pShaderManager (Scene.this w) = ShaderPtr -> runs (shader_call e) w tt w [e].
Proof. apply shader_call_attached. Qed.

Lemma runs_eq {A} (m : M A) (w w1 w2 : Scene.World) (a : A) (e1 e2 : list Event) :
  runs m w a w1 e1 -> w1 = w2 -> e1 = e2 -> runs m w a w2 e2.
Proof. intros Hrun <- <-. exact Hrun. Qed.

End Runs.

(** ** A successful texture load *)

Lemma CreateGLTexture_success (w : Scene.World) (filename tag0 : string) (img : Image) :
  files w filename = Some img ->
  colorChannels img = 3 \/ colorChannels img = 4 ->
  0 <= m_loadedTextures (Scene.this w) ->
  (Z.to_nat (m_loadedTextures (Scene.this w)) < length (m_textureIDs (Scene.this w)))%nat ->
  CreateGLTexture filename tag0 w =
  Returns true (texture_loaded tag0 w)
    (texture_load_events filename img (gl_names w 0%nat)).
Proof.
  intros Hfile Hch Hpos Hroom.
  destruct (lookup_lt_is_Some_2 _ _ Hroom) as [old Hold].
  destruct w as [sm fs gt gn tm]. cbn in Hfile, Hold, Hpos.
  apply Z.ltb_ge in Hpos.
  unfold CreateGLTexture, bind, emit, stbi_load. cbn [files].
  rewrite Hfile. cbn [glGenTextures]. unfold texture_load_events.
  destruct Hch as [E|E]; rewrite E; cbn [Z.eqb Pos.eqb];
    unfold set_texture_at, gets, set_loadedTextures, modify, ret; cbn;
    rewrite Hpos, Hold; reflexivity.
Qed.

(** ** C8: PrepareScene twice *)

(** ** C8: PrepareScene twice *)

Lemma room_texture_loaded (n : Z) (tag0 : string) (w : Scene.World) :
  room (n + 1) w -> room n (texture_loaded tag0 w).
Proof. unfold room. cbn. rewrite length_insert. lia. Qed.

Lemma room_next (n : Z) (w : Scene.World) :
  0 <= n -> room (n + 1) w ->
  (Z.to_nat (m_loadedTextures (Scene.this w)) < length (m_textureIDs (Scene.this w)))%nat.
Proof. unfold room. lia. Qed.

Lemma loadable_image (w : Scene.World) (f : string) :
  loadable w f ->
  files w f = Some (image_of w f) /\
  (colorChannels (image_of w f) = 3 \/ colorChannels (image_of w f) = 4).
Proof.
  intros (img & Hf & Hch). unfold image_of. rewrite Hf. split; [reflexivity|exact Hch].
Qed.

Lemma CreateGLTexture_loads (n : Z) (w : Scene.World) (filename tag0 : string) :
  loadable w filename -> 0 <= n -> room (n + 1) w ->
  runs (CreateGLTexture filename tag0) w true (texture_loaded tag0 w)
    (texture_load_events filename (image_of w filename) (gl_names w 0%nat)).
Proof.
  intros Hl Hn Hroom. destruct (loadable_image w filename Hl) as [Hf Hch].
  apply CreateGLTexture_success; [exact Hf|exact Hch|apply Hroom|].
  exact (room_next n w Hn Hroom).
Qed.

Section PrepareOnce.

Variable w : Scene.World.
Hypothesis attached : m_pShaderManager (Scene.this w) = ShaderPtr.
Hypothesis on_disk : forall f, In f scene_texture_files -> loadable w f.
Hypothesis space : room 5 w.

Lemma PrepareScene_run :
  runs PrepareScene w tt (after_PrepareScene w) (PrepareScene_events w).
Proof using attached on_disk space.
  assert (exists w' e, runs PrepareScene w tt w' e
                       /\ w' = after_PrepareScene w
                       /\ e = PrepareScene_events w) as (w' & e & Hrun & -> & ->);
    [|exact Hrun].
  do 2 eexists. split; [|split].
  - unfold PrepareScene.
    do 4 (eapply runs_bind; [apply runs_emit|cbv beta]).
    eapply runs_bind; [apply (CreateGLTexture_loads 4)|cbv beta];
      [apply on_disk; cbn; tauto|lia|exact space|].
    eapply runs_bind; [apply (CreateGLTexture_loads 3)|cbv beta];
      [apply on_disk; cbn; tauto|lia|repeat apply room_texture_loaded; exact space|].
    eapply runs_bind; [apply (CreateGLTexture_loads 2)|cbv beta];
      [apply on_disk; cbn; tauto|lia|repeat apply room_texture_loaded; exact space|].
    eapply runs_bind; [apply (CreateGLTexture_loads 1)|cbv beta];
      [apply on_disk; cbn; tauto|lia|repeat apply room_texture_loaded; exact space|].
    eapply runs_bind; [apply (CreateGLTexture_loads 0)|cbv beta];
      [apply on_disk; cbn; tauto|lia|repeat apply room_texture_loaded; exact space|].
    eapply runs_bind; [apply SetLightSource_in_range; [lia|exact attached]|cbv beta].
    eapply runs_bind; [apply SetLightSource_in_range; [lia|exact attached]|cbv beta].
    apply SetLightSource_in_range; [lia|exact attached].
  - reflexivity.
  - reflexivity.
Qed.

End PrepareOnce.

(** C8. From a freshly constructed SceneManager with a ShaderManager
    attached and the five texture files loadable, [PrepareScene] returns
    with occupancy 5, the registered tags bark, grass, water, leaves,
    sky in that order, and light slots 0, 1, 2 holding the three lights
    of the scene (slot 3 still the default); a second [PrepareScene]
    loads the four meshes and the five textures again and returns with
    occupancy 10, the five tags registered twice. *)
Theorem PrepareScene_twice_doubles_registry (w : Scene.World) :
  Scene.this w = SceneManager_new ShaderPtr ->
  (forall f, In f scene_texture_files -> loadable w f) ->
  exists w1 e1 w2 e2,
    PrepareScene w = Returns tt w1 e1
    /\ PrepareScene w1 = Returns tt w2 e2
    /\ m_loadedTextures (Scene.this w1) = 5
    /\ map tag (registered (Scene.this w1)) = scene_tags
    /\ m_lightSources (Scene.this w1) = [light1; light2; light3; LIGHT_SOURCE_default]
    /\ m_loadedTextures (Scene.this w2) = 10
    /\ m_loadedTextures (Scene.this w2) = 2 * m_loadedTextures (Scene.this w1)
    /\ map tag (registered (Scene.this w2)) = (scene_tags ++ scene_tags)%list
    /\ m_lightSources (Scene.this w2) = [light1; light2; light3; LIGHT_SOURCE_default]
    /\ List.filter is_LoadMesh e1 = scene_meshes
    /\ List.filter is_LoadMesh e2 = scene_meshes
    /\ length (List.filter is_GlGenTextures e1) = 5%nat
    /\ length (List.filter is_GlGenTextures e2) = 5%nat.
Proof.
  intros Hfresh Hdisk.
  destruct w as [sm fs gt gn tm]. cbn in Hfresh. subst sm.
  set (w0 := {| Scene.this := SceneManager_new ShaderPtr; files := fs;
                gl_textures := gt; gl_names := gn; Scene.glfw_time := tm |}) in *.
  exists (after_PrepareScene w0), (PrepareScene_events w0),
    (after_PrepareScene (after_PrepareScene w0)),
    (PrepareScene_events (after_PrepareScene w0)).
  split; [|split].
  - apply PrepareScene_run; [reflexivity|exact Hdisk|].
    unfold room, w0. vm_compute. split; discriminate.
  - apply PrepareScene_run; [reflexivity|exact Hdisk|].
    unfold room, w0. vm_compute. split; discriminate.
  - repeat split.
Qed.

Lemma PrepareScene_twice_doubles_registry_witness :
  exists w1 e1 w2 e2,
    PrepareScene demo_world = Returns tt w1 e1
    /\ PrepareScene w1 = Returns tt w2 e2
    /\ m_loadedTextures (Scene.this w1) = 5
    /\ map tag (registered (Scene.this w1)) = scene_tags
    /\ m_lightSources (Scene.this w1) = [light1; light2; light3; LIGHT_SOURCE_default]
    /\ m_loadedTextures (Scene.this w2) = 10
    /\ m_loadedTextures (Scene.this w2) = 2 * m_loadedTextures (Scene.this w1)
    /\ map tag (registered (Scene.this w2)) = (scene_tags ++ scene_tags)%list
    /\ m_lightSources (Scene.this w2) = [light1; light2; light3; LIGHT_SOURCE_default]
    /\ List.filter is_LoadMesh e1 = scene_meshes
    /\ List.filter is_LoadMesh e2 = scene_meshes
    /\ length (List.filter is_GlGenTextures e1) = 5%nat
    /\ length (List.filter is_GlGenTextures e2) = 5%nat.
Proof.
  apply (PrepareScene_twice_doubles_registry demo_world).
  - reflexivity.
  - intros f _. exists {| width := 64; height := 64; colorChannels := 3 |}.
    split; [reflexivity|]. left. reflexivity.
Defined.

(** ** C9: DestroyGLTextures *)

Lemma release_not_elem (ids live : list Z) (id : Z) :
  id ∈ ids -> id ∉ release ids live.
Proof.
  revert live. induction ids as [|a ids IH]; intros live Hin.
  - inversion Hin.
  - cbn [release foldl]. apply elem_of_cons in Hin as [->|Hin].
    + assert (Hgone : forall l : list Z, a ∉ l -> a ∉ release ids l).
      { clear. induction ids as [|b ids IH]; intros l Hl; [exact Hl|].
        cbn [release foldl]. apply IH. rewrite list_elem_of_filter. tauto. }
      apply Hgone. rewrite list_elem_of_filter. tauto.
    + apply (IH _ Hin).
Qed.

Lemma DestroyGLTextures_loop (count : nat) (w : Scene.World) (i : nat) :
  (i + count <= length (m_textureIDs (Scene.this w)))%nat ->
  runs
    (for_range i count (fun i => bind (texture_at i) (fun t => glDeleteTextures (ID t))))
    w tt
    (with_gl_textures
       (release (map ID (take count (drop i (m_textureIDs (Scene.this w)))))
                (gl_textures w)) w)
    (map (fun t => GlDeleteTextures (ID t))
         (take count (drop i (m_textureIDs (Scene.this w))))).
Proof.
  revert w i. induction count as [|count IH]; intros w i Hlen.
  - destruct w; reflexivity.
  - destruct (lookup_lt_is_Some_2 (m_textureIDs (Scene.this w)) i) as [t Ht]; [lia|].
    rewrite (drop_S _ _ _ Ht). cbn [take map release foldl for_range].
    change (GlDeleteTextures (ID t) :: ?l) with ([GlDeleteTextures (ID t)] ++ l)%list.
    eapply runs_bind.
    + unfold runs, bind, texture_at. rewrite Ht. reflexivity.
    + cbv beta.
      specialize (IH (with_gl_textures (filter (fun n => n <> ID t) (gl_textures w)) w) (S i)).
      cbn in IH. apply IH. lia.
Qed.

Lemma DestroyGLTextures_run (w : Scene.World) :
  registry_ok (Scene.this w) ->
  runs DestroyGLTextures w tt
    (with_gl_textures (release (map ID (registered (Scene.this w))) (gl_textures w)) w)
    (map (fun t => GlDeleteTextures (ID t)) (registered (Scene.this w))).
Proof.
  intros (Hlen & _ & Hn). unfold DestroyGLTextures.
  change (map (fun t => GlDeleteTextures (ID t)) (registered (Scene.this w)))
    with ([] ++ map (fun t => GlDeleteTextures (ID t)) (registered (Scene.this w)))%list.
  eapply runs_bind; [reflexivity|]. cbv beta.
  pose proof (DestroyGLTextures_loop (Z.to_nat (m_loadedTextures (Scene.this w))) w 0) as Hloop.
  rewrite drop_0 in Hloop. apply Hloop. lia.
Qed.

(** C9. On a manager whose arrays have their declared sizes,
    [DestroyGLTextures] calls [glDeleteTextures] once for each
    registered entry, in registration order, after which none of the
    registered identifiers is an allocated texture name; the
    SceneManager itself is unchanged (occupancy counter, tags, stored
    identifiers), so for a tag with a registered entry [FindTextureSlot]
    still returns its index and [FindTextureID] still returns its
    identifier, which is no longer allocated. *)
Theorem DestroyGLTextures_keeps_registry (w : Scene.World) :
  registry_ok (Scene.this w) ->
  exists w' events,
    DestroyGLTextures w = Returns tt w' events
    /\ events = map (fun t => GlDeleteTextures (ID t)) (registered (Scene.this w))
    /\ (forall t, t ∈ registered (Scene.this w) -> ID t ∉ gl_textures w')
    /\ Scene.this w' = Scene.this w
    /\ m_loadedTextures (Scene.this w') = m_loadedTextures (Scene.this w)
    /\ m_textureIDs (Scene.this w') = m_textureIDs (Scene.this w)
    /\ (forall tag0 i t,
          first_registered (Scene.this w) tag0 i t ->
          FindTextureSlot tag0 w' = Returns (Z.of_nat i) w' []
          /\ FindTextureID tag0 w' = Returns (int_of_GLuint (ID t)) w' []
          /\ ID t ∉ gl_textures w').
Proof.
  intros Hok. do 2 eexists. split; [apply (DestroyGLTextures_run w Hok)|].
  assert (Hfreed : forall t, t ∈ registered (Scene.this w) ->
            ID t ∉ release (map ID (registered (Scene.this w))) (gl_textures w)).
  { intros t Ht. apply release_not_elem. apply list_elem_of_fmap. exists t. tauto. }
  split; [reflexivity|]. split; [exact Hfreed|]. do 3 (split; [reflexivity|]).
  intros tag0 i t Hfirst. split; [|split].
  - apply (FindTextureSlot_first_registered tag0 _ i t); [exact Hok|exact Hfirst].
  - apply (FindTextureID_first_registered tag0 _ i t). exact Hfirst.
  - apply Hfreed. destruct Hfirst as (Hi & _). apply (list_elem_of_lookup_2 _ _ _ Hi).
Qed.

Lemma DestroyGLTextures_keeps_registry_witness :
  exists w' events,
    DestroyGLTextures prepared_world = Returns tt w' events
    /\ events = map (fun t => GlDeleteTextures (ID t)) (registered (Scene.this prepared_world))
    /\ (forall t, t ∈ registered (Scene.this prepared_world) -> ID t ∉ gl_textures w')
    /\ Scene.this w' = Scene.this prepared_world
    /\ m_loadedTextures (Scene.this w') = m_loadedTextures (Scene.this prepared_world)
    /\ m_textureIDs (Scene.this w') = m_textureIDs (Scene.this prepared_world)
    /\ (forall tag0 i t,
          first_registered (Scene.this prepared_world) tag0 i t ->
          FindTextureSlot tag0 w' = Returns (Z.of_nat i) w' []
          /\ FindTextureID tag0 w' = Returns (int_of_GLuint (ID t)) w' []
          /\ ID t ∉ gl_textures w').
Proof.
  apply (DestroyGLTextures_keeps_registry prepared_world).
  repeat split; vm_compute; discriminate.
Defined.

(** ** C6: SetShaderTexture *)

Lemma registered_lookup (sm : SceneManager) (i : nat) (t : TEXTURE_INFO) :
  registered sm !! i = Some t -> m_textureIDs sm !! i = Some t.
Proof.
  unfold registered. intros Hi.
  pose proof (lookup_lt_Some _ _ _ Hi) as Hlt. rewrite length_take in Hlt.
  rewrite lookup_take_lt in Hi by lia. exact Hi.
Qed.

Lemma SetShaderTexture_run (w : Scene.World) (tag0 : string) :
  m_pShaderManager (Scene.this w) = ShaderPtr -> registry_ok (Scene.this w) ->
  runs (SetShaderTexture tag0) w tt w (texture_events (Scene.this w) tag0).
Proof.
  intros Hp Hok. unfold runs, SetShaderTexture.
  rewrite if_shader_attached by exact Hp.
  unfold bind at 1. rewrite shader_call_attached by exact Hp.
  unfold bind at 1. rewrite FindTextureSlot_run by exact Hok.
  unfold texture_events. cbv zeta.
  destruct (slot_of_range tag0 (registered (Scene.this w)) 0)
    as [Hnone|(i & t & Hslot & Hi & Ht)].
  - rewrite Hnone. reflexivity.
  - rewrite Hslot. cbn [Nat.add].
    destruct (Z.eqb_spec (Z.of_nat i) (-1)) as [Hneg|_]; [lia|].
    cbn [negb]. unfold bind, emit, texture_at.
    rewrite Nat2Z.id, (registered_lookup _ _ _ Hi).
    rewrite shader_call_attached by exact Hp. reflexivity.
Qed.

(** C6. With a ShaderManager attached, [SetShaderTexture(tag)] returns
    normally in the same world. When the tag's first registered entry
    is entry [i], the events are: [bUseTexture] set to 1, texture unit
    [i] made active, the entry's texture bound, and [objectTexture] set
    to sampler [i]. When no registered entry has the tag, the only
    event is [bUseTexture] set to 1: no sampler uniform is pushed. *)
Theorem SetShaderTexture_resolved_or_not (w : Scene.World) (textureTag : string) :
  m_pShaderManager (Scene.this w) = ShaderPtr ->
  registry_ok (Scene.this w) ->
  (forall i t,
     first_registered (Scene.this w) textureTag i t ->
     SetShaderTexture textureTag w =
       Returns tt w
         [ SetUniform "bUseTexture" (UInt 1);
           GlActiveTexture (Z.of_nat i);
           GlBindTexture (ID t);
           SetUniform "objectTexture" (USampler2D (Z.of_nat i)) ])
  /\ (never_registered (Scene.this w) textureTag ->
      SetShaderTexture textureTag w =
        Returns tt w [ SetUniform "bUseTexture" (UInt 1) ]).
Proof.
  intros Hp Hok. split.
  - intros i t (Hi & Ht & Hfirst).
    rewrite (SetShaderTexture_run w textureTag Hp Hok). unfold texture_events.
    rewrite (slot_of_found textureTag _ 0 i t Hi Ht Hfirst). cbn [Nat.add].
    destruct (Z.eqb_spec (Z.of_nat i) (-1)) as [Hneg|_]; [lia|].
    rewrite Nat2Z.id, (registered_lookup _ _ _ Hi). reflexivity.
  - intros Habs.
    rewrite (SetShaderTexture_run w textureTag Hp Hok). unfold texture_events.
    rewrite (slot_of_absent textureTag _ 0 Habs). reflexivity.
Qed.

Lemma SetShaderTexture_resolved_or_not_witness :
  SetShaderTexture "grass" prepared_world =
    Returns tt prepared_world
      [ SetUniform "bUseTexture" (UInt 1);
        GlActiveTexture 1;
        GlBindTexture 2;
        SetUniform "objectTexture" (USampler2D 1) ]
  /\ SetShaderTexture "marble" prepared_world =
       Returns tt prepared_world [ SetUniform "bUseTexture" (UInt 1) ].
Proof.
  assert (Hok : registry_ok (Scene.this prepared_world)).
  { repeat split; vm_compute; discriminate. }
  split.
  - apply (proj1 (SetShaderTexture_resolved_or_not prepared_world "grass" eq_refl Hok)
             1%nat {| ID := 2; tag := "grass" |}).
    split; [reflexivity|]. split; [reflexivity|].
    intros j t' Hj Hlook. assert (j = 0%nat) as -> by lia.
    vm_compute in Hlook. injection Hlook as <-. discriminate.
  - apply (proj2 (SetShaderTexture_resolved_or_not prepared_world "marble" eq_refl Hok)).
    intros j t' Hlook.
    do 5 (destruct j as [|j];
          [vm_compute in Hlook; injection Hlook as <-; discriminate|]).
    vm_compute in Hlook. discriminate Hlook.
Defined.

(** ** C7: the projection of a frame *)

Section Projection.

Context `{View.CameraClass}.

Local Open Scope R_scope.

Lemma on_key_keys (k : View.Key) (f : View.World -> View.World) (w : View.World) :
  (forall w0, View.keys (f w0) = View.keys w0) ->
  View.keys (View.on_key k f w) = View.keys w.
Proof. intros Hf. unfold View.on_key. destruct (View.keys w k); [apply Hf|reflexivity]. Qed.

Lemma on_key_globals (k : View.Key) (f : View.World -> View.World) (w : View.World) :
  (forall w0, View.globals (f w0) = View.globals w0) ->
  View.globals (View.on_key k f w) = View.globals w.
Proof. intros Hf. unfold View.on_key. destruct (View.keys w k); [apply Hf|reflexivity]. Qed.

Lemma on_key_shader (k : View.Key) (f : View.World -> View.World) (w : View.World) :
  (forall w0, View.m_pShaderManager (View.this (f w0)) = View.m_pShaderManager (View.this w0)) ->
  View.m_pShaderManager (View.this (View.on_key k f w)) = View.m_pShaderManager (View.this w).
Proof. intros Hf. unfold View.on_key. destruct (View.keys w k); [apply Hf|reflexivity]. Qed.

(** Which mode a frame ends in: O switches to orthographic, otherwise P
    switches to perspective, otherwise the mode stays. *)
Lemma ProcessKeyboardEvents_mode (w : View.World) :
  View.bOrthographicProjection (View.globals (fst (View.ProcessKeyboardEvents w))) =
  if View.keys w View.GLFW_KEY_O then true
  else if View.keys w View.GLFW_KEY_P then false
  else View.bOrthographicProjection (View.globals w).
Proof.
  unfold View.ProcessKeyboardEvents. cbn [fst].
  unfold View.on_key at 1. rewrite !on_key_keys by (intros; reflexivity).
  destruct (View.keys w View.GLFW_KEY_O); [reflexivity|].
  unfold View.on_key at 1. rewrite !on_key_keys by (intros; reflexivity).
  destruct (View.keys w View.GLFW_KEY_P); [reflexivity|].
  rewrite !on_key_globals by (intros; reflexivity). reflexivity.
Qed.

Lemma ProcessKeyboardEvents_shader (w : View.World) :
  View.m_pShaderManager (View.this (fst (View.ProcessKeyboardEvents w))) =
  View.m_pShaderManager (View.this w).
Proof.
  unfold View.ProcessKeyboardEvents. cbn [fst].
  rewrite !on_key_shader by (intros; reflexivity). reflexivity.
Qed.

Lemma ortho_fixed_extent :
  ortho (-10) 10 (-10) 10 0.1 100 =
  Mat4 (Vec4 (1 / 10) 0 0 0) (Vec4 0 (1 / 10) 0 0)
       (Vec4 0 0 (- (2 / 99.9)) 0)
       (Vec4 0 0 (- (100.1 / 99.9)) 1).
Proof. unfold ortho. apply mat4_eq; apply vec4_eq; lra. Qed.

(** C7. With a ShaderManager attached, a frame update pushes, after
    the window-close request of the Escape key if any, exactly three
    uniforms: ["view"], ["projection"] and ["viewPosition"]. When the
    frame ends in orthographic mode the projection is
    [ortho(-10, 10, -10, 10, 0.1, 100)]; otherwise it is
    [perspective(radians(Zoom), 1000/800, 0.1, 100)] with the zoom of
    the camera as the frame leaves it. *)
Theorem PrepareSceneView_projection (w : View.World) :
  View.m_pShaderManager (View.this w) = ShaderPtr ->
  let w' := fst (View.PrepareSceneView w) in
  let camera := View.m_Camera (View.this w') in
  let projection :=
    if View.bOrthographicProjection (View.globals w')
    then ortho (-10) 10 (-10) 10 0.1 100
    else perspective (radians (View.Zoom camera)) (1000 / 800) 0.1 100 in
  snd (View.PrepareSceneView w) =
    ((if View.keys w View.GLFW_KEY_ESCAPE then [GlfwSetWindowShouldClose] else [])
     ++ [ SetUniform "view" (UMat4 (View.GetViewMatrix camera));
          SetUniform "projection" (UMat4 projection);
          SetUniform "viewPosition" (UVec3 (View.Position camera)) ])%list
  /\ View.bOrthographicProjection (View.globals w') =
       (if View.keys w View.GLFW_KEY_O then true
        else if View.keys w View.GLFW_KEY_P then false
        else View.bOrthographicProjection (View.globals w)).
Proof.
  intros Hp. cbv zeta. unfold View.PrepareSceneView.
  destruct (View.ProcessKeyboardEvents (View.frame_timing w)) as [w1 polled] eqn:Hkeys.
  cbn [fst snd].
  pose proof (ProcessKeyboardEvents_shader (View.frame_timing w)) as Hs.
  pose proof (ProcessKeyboardEvents_mode (View.frame_timing w)) as Hm.
  rewrite Hkeys in Hs, Hm. cbn [fst] in Hs, Hm.
  cbn [View.frame_timing View.this View.keys View.globals
       View.bOrthographicProjection] in Hs, Hm.
  rewrite Hs, Hp. split; [|exact Hm].
  assert (Hpolled : polled =
    if View.keys w View.GLFW_KEY_ESCAPE then [GlfwSetWindowShouldClose] else []).
  { unfold View.ProcessKeyboardEvents in Hkeys. injection Hkeys as _ <-. reflexivity. }
  rewrite Hpolled. reflexivity.
Qed.

End Projection.

Lemma PrepareSceneView_projection_witness :
  (snd (View.PrepareSceneView (demo_view_world [View.GLFW_KEY_O])) =
     [ SetUniform "view"
         (UMat4 (View.GetViewMatrix
                   (View.m_Camera (View.this
                      (fst (View.PrepareSceneView (demo_view_world [View.GLFW_KEY_O])))))));
       SetUniform "projection" (UMat4 (ortho (-10) 10 (-10) 10 0.1 100));
       SetUniform "viewPosition" (UVec3 (Vec3 0 5 12)) ])
  /\ (snd (View.PrepareSceneView (demo_view_world [View.GLFW_KEY_ESCAPE])) =
        [ GlfwSetWindowShouldClose;
          SetUniform "view"
            (UMat4 (View.GetViewMatrix
                      (View.m_Camera (View.this
                         (fst (View.PrepareSceneView
                                 (demo_view_world [View.GLFW_KEY_ESCAPE])))))));
          SetUniform "projection"
            (UMat4 (perspective (radians 45) (1000 / 800) 0.1 100));
          SetUniform "viewPosition" (UVec3 (Vec3 0 5 12)) ]).
Proof.
  split.
  - exact (proj1 (PrepareSceneView_projection (demo_view_world [View.GLFW_KEY_O]) eq_refl)).
  - exact (proj1 (PrepareSceneView_projection (demo_view_world [View.GLFW_KEY_ESCAPE]) eq_refl)).
Defined.

(** ** RenderScene, step by step *)

Section Render.

Variable w : Scene.World.
Hypothesis attached : m_pShaderManager (Scene.this w) = ShaderPtr.
Hypothesis arrays : registry_ok (Scene.this w).

Lemma render_light_run (i : nat) (time : nat -> R) :
  (i < 4)%nat ->
  runs (RenderScene_light i) (with_time time w) tt (with_time time w)
    (render_light_events (Scene.this w) i).
Proof using attached arrays.
  intros Hi. destruct arrays as (_ & Hlights & _).
  destruct (lookup_lt_is_Some_2 (m_lightSources (Scene.this w)) i) as [l Hl]; [lia|].
  unfold render_light_events, RenderScene_light. rewrite Hl. cbv zeta.
  eapply runs_eq.
  - eapply runs_bind.
    + unfold runs, lightSource_at. cbn [Scene.this with_time]. rewrite Hl. reflexivity.
    + cbv beta.
      do 3 (eapply runs_bind; [apply runs_shader_call; exact attached|cbv beta]).
      apply runs_shader_call. exact attached.
  - reflexivity.
  - reflexivity.
Qed.

Local Ltac setter_step :=
  first
    [ apply runs_emit
    | apply runs_shader_call; exact attached
    | apply SetTransformations_attached; exact attached
    | apply SetShaderColor_attached; exact attached
    | apply SetTextureUVScale_attached; exact attached
    | apply SetShaderTexture_run; [exact attached|exact arrays]
    | reflexivity ].

Local Ltac run_chain :=
  repeat (eapply runs_bind; [setter_step|cbv beta]); setter_step.

Local Ltac flatten_events :=
  repeat
    (progress
       (cbn [flat_map tree_steps step_events paint_events step_model step_paint
             step_shape app];
        rewrite <- ?app_assoc, ?app_nil_r)).

Lemma RenderScene_tree_run (treePos : vec3) (time : nat -> R) :
  runs (RenderScene_tree treePos) (with_time time w) tt
    (with_time (fun n => time (S (S n))) w)
    (flat_map (step_events (Scene.this w))
       (tree_steps treePos (time 0%nat) (time 1%nat))).
Proof using attached arrays.
  unfold RenderScene_tree. cbv zeta.
  eapply runs_eq; [run_chain|reflexivity|].
  flatten_events. reflexivity.
Qed.

Lemma RenderScene_forest_run (positions : list vec3) (time : nat -> R) :
  runs (for_each positions RenderScene_tree) (with_time time w) tt
    (with_time (forest_clock positions time) w)
    (flat_map (step_events (Scene.this w)) (forest_steps positions time)).
Proof using attached arrays.
  revert time. induction positions as [|treePos rest IH]; intros time.
  - reflexivity.
  - cbn [for_each forest_steps forest_clock]. rewrite flat_map_app.
    eapply runs_bind; [apply RenderScene_tree_run|apply IH].
Qed.

Lemma RenderScene_lights_run (time : nat -> R) :
  runs (for_range 0 3 RenderScene_light) (with_time time w) tt (with_time time w)
    (render_light_events (Scene.this w) 0
     ++ render_light_events (Scene.this w) 1
     ++ render_light_events (Scene.this w) 2).
Proof using attached arrays.
  cbn [for_range].
  eapply runs_eq.
  - eapply runs_bind; [apply render_light_run; lia|cbv beta].
    eapply runs_bind; [apply render_light_run; lia|cbv beta].
    eapply runs_bind; [apply render_light_run; lia|apply runs_ret].
  - reflexivity.
  - rewrite app_nil_r. reflexivity.
Qed.

Lemma RenderScene_run_at (time : nat -> R) :
  runs RenderScene (with_time time w) tt
    (with_time (forest_clock additionalTreePositions (forest_clock treePositions time)) w)
    (RenderScene_preamble (Scene.this w)
     ++ flat_map (step_events (Scene.this w)) (scene_steps time)).
Proof using attached arrays.
  unfold RenderScene. cbv zeta.
  eapply runs_eq.
  - do 5 (eapply runs_bind; [setter_step|cbv beta]).
    eapply runs_bind; [apply RenderScene_lights_run|cbv beta].
    do 31 (eapply runs_bind; [setter_step|cbv beta]).
    eapply runs_bind; [apply RenderScene_forest_run|cbv beta].
    eapply runs_bind; [apply RenderScene_forest_run|cbv beta].
    run_chain.
  - reflexivity.
  - unfold scene_steps, RenderScene_preamble, ground_and_sky_steps_before_trees,
      sky_step.
    rewrite !flat_map_app. flatten_events. reflexivity.
Qed.

End Render.

(** ** What PrepareScene leaves behind *)

Lemma bind_returns_inv {A B} (m : M A) (k : A -> M B) (w w2 : Scene.World)
    (b : B) (e : list Event) :
  bind m k w = Returns b w2 e ->
  exists a w1 e1 e2,
    m w = Returns a w1 e1 /\ k a w1 = Returns b w2 e2 /\ e = (e1 ++ e2)%list.
Proof.
  unfold bind. destruct (m w) as [a w1 e1| |]; try discriminate.
  destruct (k a w1) as [b' w2' e2| |] eqn:Hk; try discriminate.
  intros [= -> -> <-]. exists a, w1, e1, e2. auto.
Qed.

Lemma emit_returns_inv (ev : Event) (w w1 : Scene.World) (a : unit) (e : list Event) :
  emit ev w = Returns a w1 e -> w1 = w.
Proof. unfold emit. intros [= _ -> _]. reflexivity. Qed.

Lemma CreateGLTexture_keeps_ok (w w' : Scene.World) (filename tag0 : string)
    (b : bool) (e : list Event) :
  registry_ok (Scene.this w) ->
  CreateGLTexture filename tag0 w = Returns b w' e ->
  registry_ok (Scene.this w') /\
  m_pShaderManager (Scene.this w') = m_pShaderManager (Scene.this w).
Proof.
  intros (Hlen & Hlights & Hn) Hrun.
  destruct w as [sm fs gt gn tm]. cbn in Hlen, Hlights, Hn.
  unfold CreateGLTexture, bind, emit, stbi_load in Hrun. cbn [files] in Hrun.
  destruct (fs filename) as [img|].
  - cbn [glGenTextures] in Hrun.
    destruct (colorChannels img =? 3)%Z;
      [|destruct (colorChannels img =? 4)%Z].
    3: { injection Hrun as _ <- _. cbn. repeat split; assumption || lia. }
    all: unfold set_texture_at, gets, set_loadedTextures, modify, ret in Hrun;
      cbn in Hrun;
      destruct (m_loadedTextures sm <? 0)%Z; [discriminate Hrun|];
      destruct (m_textureIDs sm !! Z.to_nat (m_loadedTextures sm)) as [old|] eqn:Hold;
      [|discriminate Hrun];
      injection Hrun as _ <- _; simpl;
      apply lookup_lt_Some in Hold;
      repeat split; simpl; rewrite ?length_insert; assumption || lia.
  - injection Hrun as _ <- _. cbn. repeat split; assumption || lia.
Qed.

Lemma SetLightSource_keeps_ok (w w' : Scene.World) (index : Z) (light : LIGHT_SOURCE)
    (e : list Event) :
  registry_ok (Scene.this w) ->
  SetLightSource index light w = Returns tt w' e ->
  registry_ok (Scene.this w') /\
  m_pShaderManager (Scene.this w') = m_pShaderManager (Scene.this w) /\
  (0 <= index < 4 -> m_pShaderManager (Scene.this w) = ShaderPtr).
Proof.
  intros Hok Hrun.
  destruct (Z_lt_dec index 0) as [Hlo|Hlo];
    [|destruct (Z_ge_dec index 4) as [Hhi|Hhi]].
  1, 2: rewrite SetLightSource_out_of_range in Hrun by lia;
    injection Hrun as <- _; repeat split; (assumption || lia || apply Hok).
  destruct (m_pShaderManager (Scene.this w)) eqn:Hp.
  - rewrite SetLightSource_null in Hrun by (lia || exact Hp). discriminate.
  - rewrite SetLightSource_in_range in Hrun by (lia || exact Hp).
    injection Hrun as <- _. destruct Hok as (Hlen & Hlights & Hn).
    repeat split; simpl; rewrite ?length_insert; assumption || lia.
Qed.

Lemma PrepareScene_keeps_ok (w0 w : Scene.World) (e0 : list Event) :
  registry_ok (Scene.this w0) ->
  PrepareScene w0 = Returns tt w e0 ->
  registry_ok (Scene.this w) /\ m_pShaderManager (Scene.this w) = ShaderPtr.
Proof.
  intros Hok Hrun. unfold PrepareScene in Hrun.
  do 4 (apply bind_returns_inv in Hrun as (? & ? & ? & ? & Hemit & Hrun & _);
        apply emit_returns_inv in Hemit; subst).
  do 5 (apply bind_returns_inv in Hrun as (? & ? & ? & ? & Hload & Hrun & _);
        apply (CreateGLTexture_keeps_ok _ _ _ _ _ _ Hok) in Hload as [Hok' _];
        clear Hok; rename Hok' into Hok).
  apply bind_returns_inv in Hrun as ([] & w1 & ? & ? & Hl1 & Hrun & _).
  apply (SetLightSource_keeps_ok _ _ _ _ _ Hok) in Hl1 as (Hok1 & Hs1 & Hp1).
  apply bind_returns_inv in Hrun as ([] & w2 & ? & ? & Hl2 & Hrun & _).
  apply (SetLightSource_keeps_ok _ _ _ _ _ Hok1) in Hl2 as (Hok2 & Hs2 & _).
  apply (SetLightSource_keeps_ok _ _ _ _ _ Hok2) in Hrun as (Hok3 & Hs3 & _).
  split; [exact Hok3|]. rewrite Hs3, Hs2, Hs1. apply Hp1. lia.
Qed.

(** ** C5: the draw order of a frame *)

Lemma texture_events_no_draw (sm : SceneManager) (tag0 : string) :
  List.filter is_draw (texture_events sm tag0) = [].
Proof.
  unfold texture_events. cbv zeta. cbn [List.filter is_draw].
  destruct (slot_of tag0 (registered sm) 0 =? -1)%Z; [reflexivity|].
  destruct (m_textureIDs sm !! Z.to_nat (slot_of tag0 (registered sm) 0));
    reflexivity.
Qed.

Lemma step_events_draw (sm : SceneManager) (d : DrawStep) :
  List.filter is_draw (step_events sm d) = [DrawMesh (step_shape d)].
Proof.
  unfold step_events. cbn [List.filter is_draw]. rewrite List.filter_app.
  destruct (step_paint d) as [tag0|color]; cbn [paint_events].
  - rewrite List.filter_app, texture_events_no_draw. reflexivity.
  - reflexivity.
Qed.

Lemma steps_events_draws (sm : SceneManager) (steps : list DrawStep) :
  List.filter is_draw (flat_map (step_events sm) steps) =
  map DrawMesh (map step_shape steps).
Proof.
  induction steps as [|d steps IH]; [reflexivity|].
  cbn [flat_map map]. rewrite List.filter_app, step_events_draw, IH. reflexivity.
Qed.

Lemma RenderScene_preamble_no_draw (sm : SceneManager) :
  List.filter is_draw (RenderScene_preamble sm) = [].
Proof.
  unfold RenderScene_preamble, render_light_events.
  rewrite !List.filter_app.
  destruct (m_lightSources sm !! 0%nat), (m_lightSources sm !! 1%nat),
    (m_lightSources sm !! 2%nat); reflexivity.
Qed.

Lemma RenderScene_run (w : Scene.World) :
  m_pShaderManager (Scene.this w) = ShaderPtr -> registry_ok (Scene.this w) ->
  exists w',
    RenderScene w =
      Returns tt w'
        (RenderScene_preamble (Scene.this w)
         ++ flat_map (step_events (Scene.this w)) (scene_steps (Scene.glfw_time w)))
    /\ Scene.this w' = Scene.this w.
Proof.
  intros Hp Hok. destruct w as [sm fs gt gn tm].
  eexists. split.
  - exact (RenderScene_run_at
             {| Scene.this := sm; files := fs; gl_textures := gt; gl_names := gn;
                Scene.glfw_time := tm |} Hp Hok tm).
  - reflexivity.
Qed.

Lemma RenderScene_draws (w : Scene.World) :
  m_pShaderManager (Scene.this w) = ShaderPtr -> registry_ok (Scene.this w) ->
  List.filter is_draw (events_of RenderScene w) = map DrawMesh (frame_shapes 24).
Proof.
  intros Hp Hok. destruct (RenderScene_run w Hp Hok) as (w' & Hrun & _).
  unfold events_of. rewrite Hrun.
  rewrite List.filter_app, RenderScene_preamble_no_draw, steps_events_draws.
  reflexivity.
Qed.

(** C5. After a [PrepareScene] that returned, on a manager whose
    arrays have their declared sizes, [RenderScene] returns, and its
    events are the preamble (no draw in it) followed by the events of
    its draw steps, each of which is: the write of its own ["model"]
    matrix, the writes of its own paint (texture by tag with UV scale,
    or flat colour), then its draw call. In order the steps are: the
    ground plane (grass), the water plane, three orange spheres of
    decreasing scale 2, 1.5, 1, three cone mountains in flat browns,
    then the 24 trees at the 12 + 12 positions, each a bark cylinder
    trunk followed by a leaves cone canopy, then the sky plane. The 24
    trees make 48 draw calls, the frame 57. *)
Theorem RenderScene_draw_order (w0 w : Scene.World) (e0 : list Event) :
  registry_ok (Scene.this w0) ->
  PrepareScene w0 = Returns tt w e0 ->
  exists w' events steps,
    RenderScene w = Returns tt w' events
    /\ events = (RenderScene_preamble (Scene.this w)
                 ++ flat_map (step_events (Scene.this w)) steps)%list
    /\ List.filter is_draw (RenderScene_preamble (Scene.this w)) = []
    /\ map step_shape steps =
         ([Plane; Plane; Sphere; Sphere; Sphere; Cone; Cone; Cone]
          ++ concat (replicate (12 + 12) [Cylinder; Cone]) ++ [Plane])%list
    /\ map step_paint steps =
         ([ Textured "grass"; Textured "water";
            Flat (Vec4 1 0.5 0 1); Flat (Vec4 1 0.5 0 1); Flat (Vec4 1 0.5 0 1);
            Flat (Vec4 0.5 0.35 0.05 1); Flat (Vec4 0.55 0.4 0.1 1);
            Flat (Vec4 0.6 0.45 0.15 1) ]
          ++ concat (replicate (12 + 12) [Textured "bark"; Textured "leaves"])
          ++ [Textured "sky"])%list
    /\ map step_model (take 3 (drop 2 steps)) =
         [ model_matrix (Vec3 2 2 2) 0 0 0 (Vec3 (-10) 10 (-20));
           model_matrix (Vec3 1.5 1.5 1.5) 0 0 0 (Vec3 (-8) 8 (-22));
           model_matrix (Vec3 1 1 1) 0 0 0 (Vec3 10 9 (-18)) ]
    /\ List.filter is_draw events = map DrawMesh (map step_shape steps)
    /\ length (concat (replicate (12 + 12) [Cylinder; Cone])) = 48%nat
    /\ length (List.filter is_draw events) = 57%nat.
Proof.
  intros Hok0 Hprep.
  destruct (PrepareScene_keeps_ok w0 w e0 Hok0 Hprep) as [Hok Hp].
  destruct (RenderScene_run w Hp Hok) as (w' & Hrun & _).
  exists w'. eexists. exists (scene_steps (Scene.glfw_time w)).
  split; [exact Hrun|]. split; [reflexivity|].
  split; [apply RenderScene_preamble_no_draw|].
  do 3 (split; [reflexivity|]).
  assert (Hdraws :
    List.filter is_draw
      (RenderScene_preamble (Scene.this w)
       ++ flat_map (step_events (Scene.this w)) (scene_steps (Scene.glfw_time w)))
    = map DrawMesh (map step_shape (scene_steps (Scene.glfw_time w)))).
  { rewrite List.filter_app, RenderScene_preamble_no_draw, steps_events_draws.
    reflexivity. }
  split; [exact Hdraws|]. split; [reflexivity|].
  rewrite Hdraws. reflexivity.
Qed.

Lemma prepared_world_ok :
  registry_ok (Scene.this prepared_world)
  /\ m_pShaderManager (Scene.this prepared_world) = ShaderPtr.
Proof. repeat split; vm_compute; discriminate. Qed.

Lemma RenderScene_draw_order_witness :
  exists w' events steps,
    RenderScene prepared_world = Returns tt w' events
    /\ events = (RenderScene_preamble (Scene.this prepared_world)
                 ++ flat_map (step_events (Scene.this prepared_world)) steps)%list
    /\ List.filter is_draw (RenderScene_preamble (Scene.this prepared_world)) = []
    /\ map step_shape steps =
         ([Plane; Plane; Sphere; Sphere; Sphere; Cone; Cone; Cone]
          ++ concat (replicate (12 + 12) [Cylinder; Cone]) ++ [Plane])%list
    /\ map step_paint steps =
         ([ Textured "grass"; Textured "water";
            Flat (Vec4 1 0.5 0 1); Flat (Vec4 1 0.5 0 1); Flat (Vec4 1 0.5 0 1);
            Flat (Vec4 0.5 0.35 0.05 1); Flat (Vec4 0.55 0.4 0.1 1);
            Flat (Vec4 0.6 0.45 0.15 1) ]
          ++ concat (replicate (12 + 12) [Textured "bark"; Textured "leaves"])
          ++ [Textured "sky"])%list
    /\ map step_model (take 3 (drop 2 steps)) =
         [ model_matrix (Vec3 2 2 2) 0 0 0 (Vec3 (-10) 10 (-20));
           model_matrix (Vec3 1.5 1.5 1.5) 0 0 0 (Vec3 (-8) 8 (-22));
           model_matrix (Vec3 1 1 1) 0 0 0 (Vec3 10 9 (-18)) ]
    /\ List.filter is_draw events = map DrawMesh (map step_shape steps)
    /\ length (concat (replicate (12 + 12) [Cylinder; Cone])) = 48%nat
    /\ length (List.filter is_draw events) = 57%nat.
Proof.
  apply (RenderScene_draw_order demo_world prepared_world
           (events_of PrepareScene demo_world)).
  - repeat split; vm_compute; discriminate.
  - vm_compute. reflexivity.
Defined.

(** Counted as draw calls, the trees between the third mountain and
    the sky plane are 48 (24 trees of two primitives each), not 24. *)
Lemma RenderScene_tree_part_draws_not_24 :
  ~ exists tree_parts : list Shape,
      List.filter is_draw (events_of RenderScene prepared_world) =
        map DrawMesh
          ([Plane; Plane; Sphere; Sphere; Sphere; Cone; Cone; Cone]
           ++ tree_parts ++ [Plane])%list
      /\ length tree_parts = 24%nat.
Proof.
  intros (tree_parts & Hdraws & Hlen).
  destruct prepared_world_ok as [Hok Hp].
  rewrite (RenderScene_draws prepared_world Hp Hok) in Hdraws.
  apply (f_equal (@length Event)) in Hdraws.
  rewrite !length_map, !length_app, Hlen in Hdraws.
  vm_compute in Hdraws. discriminate Hdraws.
Qed.

(** ** C10: which operations go through a null ShaderManager pointer *)

Lemma bind_null {A B} (m : M A) (k : A -> M B) (w : Scene.World) :
  m w = NullDereference -> bind m k w = NullDereference.
Proof. unfold bind. intros ->. reflexivity. Qed.

Lemma bind_null_after {A B} (m : M A) (k : A -> M B) (w w1 : Scene.World)
    (a : A) (e1 : list Event) :
  m w = Returns a w1 e1 -> k a w1 = NullDereference -> bind m k w = NullDereference.
Proof. unfold bind. intros -> ->. reflexivity. Qed.

Lemma RenderScene_null (w : Scene.World) :
  m_pShaderManager (Scene.this w) = NULL -> RenderScene w = NullDereference.
Proof.
  intros Hp. unfold RenderScene. cbv zeta.
  do 3 (eapply bind_null_after; [apply runs_emit|]).
  apply bind_null. apply shader_call_null. exact Hp.
Qed.

(** The frame dereferences a null ShaderManager pointer, and with a
    ShaderManager attached it pushes uniforms, the viewer position
    first. *)
Lemma RenderScene_dereferences_unguarded :
  RenderScene headless_world = NullDereference
  /\ In (SetUniform "viewPos" (UVec3 (Vec3 0 0 3))) (events_of RenderScene prepared_world).
Proof.
  split.
  - apply RenderScene_null. reflexivity.
  - destruct prepared_world_ok as [Hok Hp].
    destruct (RenderScene_run prepared_world Hp Hok) as (w' & Hrun & _).
    unfold events_of. rewrite Hrun. apply in_or_app. left.
    unfold RenderScene_preamble. cbn [app In]. tauto.
Qed.

(** C10 (amended). With a null ShaderManager pointer,
    [SetTransformations], [SetShaderColor], [SetShaderTexture],
    [SetTextureUVScale] and [SetLightColor] return normally in the same
    world with no event; [SetLightSource] with an index in [0,4) and
    [RenderScene] dereference the null pointer; [SetLightSource] with
    an index outside [0,4) returns normally with no event. With a
    ShaderManager attached, [SetLightSource] returns normally for every
    index. *)
Theorem null_shader_guards (w : Scene.World) :
  (m_pShaderManager (Scene.this w) = NULL ->
     (forall s rx ry rz p, SetTransformations s rx ry rz p w = Returns tt w [])
     /\ (forall r g b a, SetShaderColor r g b a w = Returns tt w [])
     /\ (forall tag0, SetShaderTexture tag0 w = Returns tt w [])
     /\ (forall u v, SetTextureUVScale u v w = Returns tt w [])
     /\ (forall r g b a, SetLightColor r g b a w = Returns tt w [])
     /\ (forall index light, 0 <= index < 4 ->
           SetLightSource index light w = NullDereference)
     /\ (forall index light, ~ (0 <= index < 4) ->
           SetLightSource index light w = Returns tt w [])
     /\ RenderScene w = NullDereference)
  /\ (m_pShaderManager (Scene.this w) = ShaderPtr ->
      forall index light, exists w' events,
        SetLightSource index light w = Returns tt w' events).
Proof.
  split.
  - intros Hp. repeat split; intros.
    + apply if_shader_null. exact Hp.
    + apply if_shader_null. exact Hp.
    + apply if_shader_null. exact Hp.
    + apply if_shader_null. exact Hp.
    + apply if_shader_null. exact Hp.
    + apply SetLightSource_null; assumption.
    + apply SetLightSource_out_of_range. assumption.
    + apply RenderScene_null. exact Hp.
  - intros Hp index light.
    destruct (Z_lt_dec index 0) as [Hlo|Hlo];
      [|destruct (Z_ge_dec index 4) as [Hhi|Hhi]].
    1, 2: exists w, []; apply SetLightSource_out_of_range; lia.
    do 2 eexists. apply SetLightSource_in_range; [lia|exact Hp].
Qed.

Lemma null_shader_guards_witness :
  ((forall s rx ry rz p, SetTransformations s rx ry rz p headless_world
                         = Returns tt headless_world [])
   /\ (forall r g b a, SetShaderColor r g b a headless_world = Returns tt headless_world [])
   /\ (forall tag0, SetShaderTexture tag0 headless_world = Returns tt headless_world [])
   /\ (forall u v, SetTextureUVScale u v headless_world = Returns tt headless_world [])
   /\ (forall r g b a, SetLightColor r g b a headless_world = Returns tt headless_world [])
   /\ (forall index light, 0 <= index < 4 ->
         SetLightSource index light headless_world = NullDereference)
   /\ (forall index light, ~ (0 <= index < 4) ->
         SetLightSource index light headless_world = Returns tt headless_world [])
   /\ RenderScene headless_world = NullDereference)
  /\ (forall index light, exists w' events,
        SetLightSource index light demo_world = Returns tt w' events).
Proof.
  split.
  - apply (proj1 (null_shader_guards headless_world)). reflexivity.
  - apply (proj2 (null_shader_guards demo_world)). reflexivity.
Defined.

(** * Further properties *)

(** ** Loading textures: outcome, round trip, limits *)

Lemma loads_loadable (w : Scene.World) (filename : string) :
  loads w filename = true <-> loadable w filename.
Proof.
  unfold loads, loadable, accepted. split.
  - destruct (files w filename) as [img|]; [|discriminate].
    intros Hacc. exists img. split; [reflexivity|].
    apply orb_prop in Hacc as [H3|H4]; [left|right]; apply Z.eqb_eq; assumption.
  - intros (img & -> & [H3|H4]); rewrite ?H3, ?H4; reflexivity.
Qed.

Lemma registered_register (id : Z) (tag0 : string) (sm : SceneManager) :
  0 <= m_loadedTextures sm ->
  (Z.to_nat (m_loadedTextures sm) < length (m_textureIDs sm))%nat ->
  registered (register id tag0 sm) = (registered sm ++ [{| ID := id; tag := tag0 |}])%list.
Proof.
  intros Hpos Hroom. unfold registered, register. simpl.
  replace (Z.to_nat (m_loadedTextures sm + 1)) with (S (Z.to_nat (m_loadedTextures sm)))
    by lia.
  rewrite (take_S_r _ _ {| ID := id; tag := tag0 |})
    by (apply list_lookup_insert_eq; exact Hroom).
  rewrite take_insert_ge by lia. reflexivity.
Qed.

(** What one call to [CreateGLTexture] does, for any file content. *)
Lemma CreateGLTexture_run (w : Scene.World) (filename tag0 : string) :
  0 <= m_loadedTextures (Scene.this w) ->
  (Z.to_nat (m_loadedTextures (Scene.this w)) < length (m_textureIDs (Scene.this w)))%nat ->
  exists e,
    CreateGLTexture filename tag0 w =
    Returns (loads w filename) (after_CreateGLTexture filename tag0 w) e.
Proof.
  intros Hpos Hroom. unfold loads, after_CreateGLTexture.
  destruct (files w filename) as [img|] eqn:Hfile.
  - unfold accepted.
    destruct (Z.eqb_spec (colorChannels img) 3) as [H3|H3];
      [|destruct (Z.eqb_spec (colorChannels img) 4) as [H4|H4]].
    1, 2: eexists; apply (CreateGLTexture_success w filename tag0 img); auto.
    eexists. destruct w as [sm fs gt gn tm]. cbn in Hfile.
    unfold CreateGLTexture, bind, emit, stbi_load. cbn [files]. rewrite Hfile.
    cbn [glGenTextures].
    destruct (Z.eqb_spec (colorChannels img) 3) as [E3|_]; [contradiction|].
    destruct (Z.eqb_spec (colorChannels img) 4) as [E4|_]; [contradiction|].
    reflexivity.
  - eexists. destruct w as [sm fs gt gn tm]. cbn in Hfile.
    unfold CreateGLTexture, bind, emit, stbi_load. cbn [files]. rewrite Hfile.
    reflexivity.
Qed.

(** X1. On a manager with a free slot, [CreateGLTexture] returns, and
    it returns [true] exactly when the file decodes to a 3- or
    4-channel image; then the new entry (the name OpenGL handed out,
    the tag) is appended to the registered entries and the counter
    grows by one; on [false] the manager is untouched. *)
Theorem CreateGLTexture_outcome (w : Scene.World) (filename tag0 : string) :
  registry_ok (Scene.this w) ->
  m_loadedTextures (Scene.this w) < 128 ->
  exists b w' e,
    CreateGLTexture filename tag0 w = Returns b w' e
    /\ (b = true <-> loadable w filename)
    /\ (b = true ->
          registered (Scene.this w') =
            (registered (Scene.this w) ++ [{| ID := gl_names w 0%nat; tag := tag0 |}])%list
          /\ m_loadedTextures (Scene.this w') = m_loadedTextures (Scene.this w) + 1)
    /\ (b = false -> Scene.this w' = Scene.this w)
    /\ registry_ok (Scene.this w').
Proof.
  intros Hok Hlt. pose proof Hok as (Hlen & Hlights & Hn).
  assert (Hroom : (Z.to_nat (m_loadedTextures (Scene.this w))
                   < length (m_textureIDs (Scene.this w)))%nat) by lia.
  destruct (CreateGLTexture_run w filename tag0 (proj1 Hn) Hroom) as [e Hrun].
  exists (loads w filename), (after_CreateGLTexture filename tag0 w), e.
  split; [exact Hrun|]. split; [apply loads_loadable|].
  pose proof (CreateGLTexture_keeps_ok _ _ _ _ _ _ Hok Hrun) as [Hok' _].
  unfold loads, after_CreateGLTexture in *.
  destruct (files w filename) as [img|]; [destruct (accepted img)|].
  - split; [|split; [discriminate|exact Hok']].
    intros _. split; [|reflexivity].
    apply registered_register; [exact (proj1 Hn)|exact Hroom].
  - split; [discriminate|]. split; [reflexivity|exact Hok'].
  - split; [discriminate|]. split; [reflexivity|exact Hok'].
Qed.

Lemma CreateGLTexture_outcome_witness :
  exists b w' e,
    CreateGLTexture "textures/grass.jpg" "grass" demo_world = Returns b w' e
    /\ (b = true <-> loadable demo_world "textures/grass.jpg")
    /\ (b = true ->
          registered (Scene.this w') =
            (registered (Scene.this demo_world)
             ++ [{| ID := gl_names demo_world 0%nat; tag := "grass" |}])%list
          /\ m_loadedTextures (Scene.this w') = m_loadedTextures (Scene.this demo_world) + 1)
    /\ (b = false -> Scene.this w' = Scene.this demo_world)
    /\ registry_ok (Scene.this w').
Proof.
  apply (CreateGLTexture_outcome demo_world).
  - repeat split; vm_compute; discriminate.
  - reflexivity.
Defined.

Lemma CreateGLTexture_rejected (w : Scene.World) (filename tag0 : string) :
  loads w filename = false ->
  exists e,
    CreateGLTexture filename tag0 w =
      Returns false (after_CreateGLTexture filename tag0 w) e
    /\ Scene.this (after_CreateGLTexture filename tag0 w) = Scene.this w
    /\ (forall img, files w filename = Some img ->
          In (GlGenTextures (gl_names w 0%nat)) e /\ ~ In StbiImageFree e).
Proof.
  unfold loads, after_CreateGLTexture, accepted. intros Hrej.
  destruct w as [sm fs gt gn tm]. cbn [files] in *.
  unfold CreateGLTexture, bind, emit, stbi_load. cbn [files].
  destruct (fs filename) as [img|].
  - rewrite Hrej. apply orb_false_elim in Hrej as [H3 H4].
    cbn [glGenTextures]. rewrite H3, H4. eexists. split; [reflexivity|].
    split; [reflexivity|]. intros img' _. cbn. split.
    + tauto.
    + intros Hin. repeat (destruct Hin as [Hin|Hin]; [discriminate Hin|]). exact Hin.
  - eexists. split; [reflexivity|]. split; [reflexivity|]. intros img Himg.
    discriminate Himg.
Qed.

Lemma first_registered_after_register (sm : SceneManager) (id : Z) (tag0 : string) :
  registry_ok sm -> m_loadedTextures sm < 128 -> never_registered sm tag0 ->
  first_registered (register id tag0 sm) tag0 (Z.to_nat (m_loadedTextures sm))
    {| ID := id; tag := tag0 |}.
Proof.
  intros (Hlen & _ & Hn) Hlt Hnever.
  assert (Hcount : length (registered sm) = Z.to_nat (m_loadedTextures sm)).
  { unfold registered. rewrite length_take. lia. }
  rewrite <- Hcount.
  unfold first_registered. rewrite registered_register by lia.
  split; [|split].
  - rewrite lookup_app_r by lia. rewrite Nat.sub_diag. reflexivity.
  - reflexivity.
  - intros j t' Hj Hlook. rewrite lookup_app_l in Hlook by exact Hj.
    exact (Hnever j t' Hlook).
Qed.

Lemma first_registered_kept_by_register (sm : SceneManager) (id : Z)
    (tag0 tag1 : string) (i : nat) (t : TEXTURE_INFO) :
  registry_ok sm -> m_loadedTextures sm < 128 ->
  first_registered sm tag0 i t ->
  first_registered (register id tag1 sm) tag0 i t.
Proof.
  intros (Hlen & _ & Hn) Hlt (Hi & Ht & Hfirst).
  pose proof (lookup_lt_Some _ _ _ Hi) as Hbound.
  unfold first_registered. rewrite registered_register by lia.
  split; [|split].
  - apply lookup_app_l_Some. exact Hi.
  - exact Ht.
  - intros j t' Hj Hlook. rewrite lookup_app_l in Hlook by lia.
    exact (Hfirst j t' Hj Hlook).
Qed.

Lemma SetShaderTexture_first_registered (w : Scene.World) (tag0 : string)
    (i : nat) (t : TEXTURE_INFO) :
  m_pShaderManager (Scene.this w) = ShaderPtr -> registry_ok (Scene.this w) ->
  first_registered (Scene.this w) tag0 i t ->
  SetShaderTexture tag0 w =
    Returns tt w
      [ SetUniform "bUseTexture" (UInt 1); GlActiveTexture (Z.of_nat i);
        GlBindTexture (ID t); SetUniform "objectTexture" (USampler2D (Z.of_nat i)) ].
Proof.
  intros Hp Hok (Hi & Ht & Hfirst).
  rewrite (SetShaderTexture_run w tag0 Hp Hok). unfold texture_events.
  rewrite (slot_of_found tag0 _ 0 i t Hi Ht Hfirst). cbn [Nat.add].
  destruct (Z.eqb_spec (Z.of_nat i) (-1)) as [Hneg|_]; [lia|].
  rewrite Nat2Z.id, (registered_lookup _ _ _ Hi). reflexivity.
Qed.

(** X2. Load, then look up: after [CreateGLTexture] has loaded a file
    under a tag that no registered entry had, [FindTextureSlot] returns
    the slot the load filled (the old occupancy), [FindTextureID]
    returns the name OpenGL handed out, and [SetShaderTexture] enables
    texturing, binds that texture on that unit and pushes the unit as
    the sampler. *)
Theorem CreateGLTexture_then_lookup (w : Scene.World) (filename tag0 : string) :
  m_pShaderManager (Scene.this w) = ShaderPtr ->
  registry_ok (Scene.this w) ->
  m_loadedTextures (Scene.this w) < 128 ->
  loadable w filename ->
  never_registered (Scene.this w) tag0 ->
  exists w' e,
    CreateGLTexture filename tag0 w = Returns true w' e
    /\ FindTextureSlot tag0 w' = Returns (m_loadedTextures (Scene.this w)) w' []
    /\ FindTextureID tag0 w' = Returns (int_of_GLuint (gl_names w 0%nat)) w' []
    /\ SetShaderTexture tag0 w' =
         Returns tt w'
           [ SetUniform "bUseTexture" (UInt 1);
             GlActiveTexture (m_loadedTextures (Scene.this w));
             GlBindTexture (gl_names w 0%nat);
             SetUniform "objectTexture" (USampler2D (m_loadedTextures (Scene.this w))) ].
Proof.
  intros Hp Hok Hlt Hload Hnever. pose proof Hok as (Hlen & Hlights & Hn).
  destruct (loadable_image w filename Hload) as [Hfile Hch].
  exists (texture_loaded tag0 w). eexists.
  split; [apply (CreateGLTexture_success w filename tag0 _ Hfile Hch); lia|].
  pose proof (first_registered_after_register (Scene.this w) (gl_names w 0%nat) tag0
                Hok Hlt Hnever) as Hfirst.
  assert (Hok' : registry_ok (Scene.this (texture_loaded tag0 w))).
  { repeat split; simpl; rewrite ?length_insert; assumption || lia. }
  rewrite <- (Z2Nat.id (m_loadedTextures (Scene.this w))) by lia.
  split; [|split].
  - apply (FindTextureSlot_first_registered tag0 (texture_loaded tag0 w) _ _ Hok' Hfirst).
  - apply (FindTextureID_first_registered tag0 (texture_loaded tag0 w) _ _ Hfirst).
  - apply (SetShaderTexture_first_registered (texture_loaded tag0 w) tag0 _ _ Hp Hok' Hfirst).
Qed.

Lemma CreateGLTexture_then_lookup_witness :
  exists w' e,
    CreateGLTexture "textures/grass.jpg" "grass" demo_world = Returns true w' e
    /\ FindTextureSlot "grass" w' = Returns 0 w' []
    /\ FindTextureID "grass" w' = Returns 1 w' []
    /\ SetShaderTexture "grass" w' =
         Returns tt w'
           [ SetUniform "bUseTexture" (UInt 1); GlActiveTexture 0;
             GlBindTexture 1; SetUniform "objectTexture" (USampler2D 0) ].
Proof.
  apply (CreateGLTexture_then_lookup demo_world "textures/grass.jpg" "grass").
  - reflexivity.
  - repeat split; vm_compute; discriminate.
  - reflexivity.
  - exists {| width := 64; height := 64; colorChannels := 3 |}.
    split; [reflexivity|]. left. reflexivity.
  - intros j t' Hlook. destruct j; discriminate Hlook.
Defined.

Lemma CreateGLTexture_overflow (w : Scene.World) (filename tag0 : string) :
  registry_ok (Scene.this w) ->
  m_loadedTextures (Scene.this w) = 128 ->
  loadable w filename ->
  CreateGLTexture filename tag0 w = OutOfBounds.
Proof.
  intros (Hlen & _ & _) Hfull (img & Hfile & Hch).
  destruct w as [sm fs gt gn tm]. cbn in *.
  unfold CreateGLTexture, bind, emit, stbi_load. cbn [files].
  rewrite Hfile. cbn [glGenTextures].
  assert (Hnone : m_textureIDs sm !! Z.to_nat (m_loadedTextures sm) = None)
    by (apply lookup_ge_None; lia).
  destruct Hch as [E|E]; rewrite E; cbn [Z.eqb Pos.eqb];
    unfold set_texture_at, gets, set_loadedTextures, modify, ret;
    cbn; rewrite Hnone, Hfull; reflexivity.
Qed.

(** X3. First match wins, also later: a [CreateGLTexture] that returns
    (whatever it loaded, under whatever tag) leaves the first
    registered entry of every tag where it was, so [FindTextureSlot]
    and [FindTextureID] answer for that tag as before. *)
Theorem lookups_survive_loads (w w' : Scene.World) (filename tag1 : string)
    (b : bool) (e : list Event) (tag0 : string) (i : nat) (t : TEXTURE_INFO) :
  registry_ok (Scene.this w) ->
  first_registered (Scene.this w) tag0 i t ->
  CreateGLTexture filename tag1 w = Returns b w' e ->
  first_registered (Scene.this w') tag0 i t
  /\ FindTextureSlot tag0 w' = Returns (Z.of_nat i) w' []
  /\ FindTextureID tag0 w' = Returns (int_of_GLuint (ID t)) w' [].
Proof.
  intros Hok Hfirst Hrun.
  pose proof (CreateGLTexture_keeps_ok _ _ _ _ _ _ Hok Hrun) as [Hok' _].
  assert (Hkept : first_registered (Scene.this w') tag0 i t).
  { destruct (loads w filename) eqn:Hloads.
    - pose proof Hok as (Hlen & _ & Hn).
      destruct (Z_lt_dec (m_loadedTextures (Scene.this w)) 128) as [Hlt|Hfull].
      + destruct (CreateGLTexture_run w filename tag1) as [e' Hrun']; [lia|lia|].
        rewrite Hrun' in Hrun. injection Hrun as _ <- _.
        unfold after_CreateGLTexture, loads in *.
        destruct (files w filename) as [img|]; [|discriminate Hloads].
        rewrite Hloads. apply first_registered_kept_by_register; assumption.
      + exfalso. apply loads_loadable in Hloads.
        rewrite (CreateGLTexture_overflow w filename tag1 Hok ltac:(lia) Hloads) in Hrun.
        discriminate Hrun.
    - destruct (CreateGLTexture_rejected w filename tag1 Hloads) as (e' & Hrun' & Hsame & _).
      rewrite Hrun' in Hrun. injection Hrun as _ <- _. rewrite Hsame. exact Hfirst. }
  split; [exact Hkept|]. split.
  - apply (FindTextureSlot_first_registered tag0 _ i t Hok' Hkept).
  - apply (FindTextureID_first_registered tag0 _ i t Hkept).
Qed.

Lemma grass_first_registered :
  first_registered (Scene.this prepared_world) "grass" 1 {| ID := 2; tag := "grass" |}.
Proof.
  split; [reflexivity|]. split; [reflexivity|].
  intros j t' Hj Hlook. assert (j = 0%nat) as -> by lia.
  vm_compute in Hlook. injection Hlook as <-. discriminate.
Qed.

Lemma lookups_survive_loads_witness :
  first_registered
    (Scene.this (world_after (CreateGLTexture "textures/grass.jpg" "grass") prepared_world))
    "grass" 1 {| ID := 2; tag := "grass" |}
  /\ FindTextureSlot "grass"
       (world_after (CreateGLTexture "textures/grass.jpg" "grass") prepared_world) =
     Returns 1
       (world_after (CreateGLTexture "textures/grass.jpg" "grass") prepared_world) []
  /\ FindTextureID "grass"
       (world_after (CreateGLTexture "textures/grass.jpg" "grass") prepared_world) =
     Returns 2
       (world_after (CreateGLTexture "textures/grass.jpg" "grass") prepared_world) [].
Proof.
  apply (lookups_survive_loads prepared_world _ "textures/grass.jpg" "grass" true
           (events_of (CreateGLTexture "textures/grass.jpg" "grass") prepared_world)
           "grass" 1 {| ID := 2; tag := "grass" |}).
  - apply prepared_world_ok.
  - exact grass_first_registered.
  - vm_compute. reflexivity.
Defined.

(** X4. The 128-slot limit is not checked: on a manager whose 128
    slots are all taken, loading a file that decodes to a 3- or
    4-channel image writes past the end of [m_textureIDs]; a file that
    is rejected still gives [false] and leaves the manager as it was. *)
Theorem CreateGLTexture_full_registry (w : Scene.World) (filename tag0 : string) :
  registry_ok (Scene.this w) ->
  m_loadedTextures (Scene.this w) = 128 ->
  (loadable w filename -> CreateGLTexture filename tag0 w = OutOfBounds)
  /\ (~ loadable w filename ->
      exists w' e, CreateGLTexture filename tag0 w = Returns false w' e
                   /\ Scene.this w' = Scene.this w).
Proof.
  intros Hok Hfull. split.
  - apply CreateGLTexture_overflow; assumption.
  - intros Hrej.
    destruct (loads w filename) eqn:Hloads;
      [exfalso; apply Hrej, loads_loadable; exact Hloads|].
    destruct (CreateGLTexture_rejected w filename tag0 Hloads) as (e & Hrun & Hsame & _).
    eauto.
Qed.

Lemma CreateGLTexture_full_registry_witness :
  CreateGLTexture "textures/bark.jpg" "bark" full_world = OutOfBounds
  /\ exists w' e,
       CreateGLTexture "textures/bark.jpg" "bark"
         (with_this (Scene.this full_world) greyscale_world) = Returns false w' e
       /\ Scene.this w' = Scene.this (with_this (Scene.this full_world) greyscale_world).
Proof.
  split.
  - apply (proj1 (CreateGLTexture_full_registry full_world "textures/bark.jpg" "bark"
                    ltac:(repeat split; vm_compute; discriminate) eq_refl)).
    exists {| width := 64; height := 64; colorChannels := 3 |}.
    split; [reflexivity|]. left. reflexivity.
  - apply (proj2 (CreateGLTexture_full_registry
                    (with_this (Scene.this full_world) greyscale_world)
                    "textures/bark.jpg" "bark"
                    ltac:(repeat split; vm_compute; discriminate) eq_refl)).
    intros (img & Hfile & Hch). injection Hfile as <-.
    destruct Hch as [Hch|Hch]; discriminate Hch.
Defined.

Lemma release_keeps (ids live : list Z) (id : Z) :
  id ∈ live -> id ∉ ids -> id ∈ release ids live.
Proof.
  revert live. induction ids as [|a ids IH]; intros live Hlive Hout; [exact Hlive|].
  cbn [release foldl]. apply IH.
  - apply list_elem_of_filter. split; [|exact Hlive].
    intros ->. apply Hout. left.
  - intros Hin. apply Hout. right. exact Hin.
Qed.

(** X5. A texture allocated for an image with an unsupported channel
    count is never released: [CreateGLTexture] has OpenGL hand out a
    name, returns [false] without registering it and without freeing
    the image data, and a later [DestroyGLTextures] (which walks the
    registered entries only) leaves that name allocated. *)
Theorem unsupported_image_leaks_texture
    (w : Scene.World) (filename tag0 : string) (img : Image) :
  registry_ok (Scene.this w) ->
  files w filename = Some img ->
  colorChannels img <> 3 -> colorChannels img <> 4 ->
  gl_names w 0%nat ∉ map ID (registered (Scene.this w)) ->
  exists w1 e1 w2 e2,
    CreateGLTexture filename tag0 w = Returns false w1 e1
    /\ In (GlGenTextures (gl_names w 0%nat)) e1
    /\ ~ In StbiImageFree e1
    /\ Scene.this w1 = Scene.this w
    /\ DestroyGLTextures w1 = Returns tt w2 e2
    /\ ~ In (GlDeleteTextures (gl_names w 0%nat)) e2
    /\ gl_names w 0%nat ∈ gl_textures w2.
Proof.
  intros Hok Hfile H3 H4 Hfresh.
  assert (Hloads : loads w filename = false).
  { unfold loads, accepted. rewrite Hfile.
    apply orb_false_intro; apply Z.eqb_neq; assumption. }
  destruct (CreateGLTexture_rejected w filename tag0 Hloads) as (e1 & Hrun & Hsame & Hev).
  destruct (Hev img Hfile) as [Hgen Hfree].
  assert (Hok1 : registry_ok (Scene.this (after_CreateGLTexture filename tag0 w)))
    by (rewrite Hsame; exact Hok).
  do 4 eexists. split; [exact Hrun|]. split; [exact Hgen|]. split; [exact Hfree|].
  split; [exact Hsame|]. split; [apply (DestroyGLTextures_run _ Hok1)|].
  rewrite Hsame. split.
  - intros Hin. apply in_map_iff in Hin as (t & Ht & Hin).
    apply Hfresh. injection Ht as Ht. rewrite <- Ht.
    apply list_elem_of_fmap. exists t. split; [reflexivity|].
    apply list_elem_of_In. exact Hin.
  - cbn [gl_textures with_gl_textures]. apply release_keeps; [|exact Hfresh].
    unfold after_CreateGLTexture. rewrite Hfile.
    unfold accepted in Hloads |- *. unfold loads in Hloads. rewrite Hfile in Hloads.
    unfold accepted in Hloads. rewrite Hloads. cbn. left.
Qed.

Lemma unsupported_image_leaks_texture_witness :
  exists w1 e1 w2 e2,
    CreateGLTexture "textures/grass.jpg" "grass" greyscale_world = Returns false w1 e1
    /\ In (GlGenTextures 1) e1
    /\ ~ In StbiImageFree e1
    /\ Scene.this w1 = Scene.this greyscale_world
    /\ DestroyGLTextures w1 = Returns tt w2 e2
    /\ ~ In (GlDeleteTextures 1) e2
    /\ 1 ∈ gl_textures w2.
Proof.
  apply (unsupported_image_leaks_texture greyscale_world "textures/grass.jpg" "grass"
           {| width := 8; height := 8; colorChannels := 1 |}).
  - repeat split; vm_compute; discriminate.
  - reflexivity.
  - discriminate.
  - discriminate.
  - intros Hin. inversion Hin.
Defined.

(** ** Binding and releasing *)

Lemma BindGLTextures_loop (count : nat) (w : Scene.World) (i : nat) :
  (i + count <= length (m_textureIDs (Scene.this w)))%nat ->
  runs
    (for_range i count (fun i =>
       bind (emit (GlActiveTexture (Z.of_nat i))) (fun _ =>
       bind (texture_at i) (fun t => emit (GlBindTexture (ID t))))))
    w tt w
    (bind_events i (take count (drop i (m_textureIDs (Scene.this w))))).
Proof.
  revert i. induction count as [|count IH]; intros i Hlen.
  - reflexivity.
  - destruct (lookup_lt_is_Some_2 (m_textureIDs (Scene.this w)) i) as [t Ht]; [lia|].
    rewrite (drop_S _ _ _ Ht). cbn [take bind_events for_range].
    eapply runs_eq.
    + eapply runs_bind.
      * eapply runs_bind; [apply runs_emit|cbv beta].
        eapply runs_bind; [|apply runs_emit].
        unfold runs, texture_at. rewrite Ht. reflexivity.
      * cbv beta. apply IH. lia.
    + reflexivity.
    + reflexivity.
Qed.

Lemma bind_events_lookup (l : list TEXTURE_INFO) (k i : nat) (t : TEXTURE_INFO) :
  l !! i = Some t ->
  bind_events k l !! (2 * i)%nat = Some (GlActiveTexture (Z.of_nat (k + i)))
  /\ bind_events k l !! (2 * i + 1)%nat = Some (GlBindTexture (ID t)).
Proof.
  revert k i. induction l as [|a l IH]; intros k i Hi; [discriminate|].
  destruct i as [|i].
  - injection Hi as ->. cbn. rewrite Nat.add_0_r. split; reflexivity.
  - replace (2 * S i)%nat with (S (S (2 * i))) by lia.
    replace (S (S (2 * i)) + 1)%nat with (S (S (2 * i + 1))) by lia.
    cbn [bind_events lookup list_lookup].
    destruct (IH (S k) i Hi) as [Hunit Htex].
    replace (k + S i)%nat with (S k + i)%nat by lia. split; assumption.
Qed.

Lemma bind_events_length (l : list TEXTURE_INFO) (k : nat) :
  length (bind_events k l) = (2 * length l)%nat.
Proof.
  revert k. induction l as [|a l IH]; intros k; [reflexivity|].
  cbn [bind_events length]. rewrite IH. lia.
Qed.

(** X6. [BindGLTextures] binds the registered textures and nothing
    else, unit number = registration index: it issues two events per
    registered entry, for entry [i] the activation of texture unit [i]
    followed by the binding of that entry's texture, and leaves the
    world as it was. *)
Theorem BindGLTextures_units (w : Scene.World) :
  registry_ok (Scene.this w) ->
  exists e,
    BindGLTextures w = Returns tt w e
    /\ length e = (2 * length (registered (Scene.this w)))%nat
    /\ length (registered (Scene.this w)) = Z.to_nat (m_loadedTextures (Scene.this w))
    /\ forall i t,
         registered (Scene.this w) !! i = Some t ->
         e !! (2 * i)%nat = Some (GlActiveTexture (Z.of_nat i))
         /\ e !! (2 * i + 1)%nat = Some (GlBindTexture (ID t)).
Proof.
  intros (Hlen & _ & Hn).
  exists (bind_events 0 (registered (Scene.this w))). split; [|split; [|split]].
  - unfold BindGLTextures.
    pose proof (BindGLTextures_loop (Z.to_nat (m_loadedTextures (Scene.this w))) w 0)
      as Hloop.
    rewrite drop_0 in Hloop.
    change (bind_events 0 (registered (Scene.this w)))
      with ([] ++ bind_events 0 (registered (Scene.this w)))%list.
    eapply runs_bind; [reflexivity|]. cbv beta. apply Hloop. lia.
  - apply bind_events_length.
  - unfold registered. rewrite length_take. lia.
  - intros i t Hi. exact (bind_events_lookup _ 0 i t Hi).
Qed.

Lemma BindGLTextures_units_witness :
  exists e,
    BindGLTextures prepared_world = Returns tt prepared_world e
    /\ length e = (2 * length (registered (Scene.this prepared_world)))%nat
    /\ length (registered (Scene.this prepared_world))
       = Z.to_nat (m_loadedTextures (Scene.this prepared_world))
    /\ forall i t,
         registered (Scene.this prepared_world) !! i = Some t ->
         e !! (2 * i)%nat = Some (GlActiveTexture (Z.of_nat i))
         /\ e !! (2 * i + 1)%nat = Some (GlBindTexture (ID t)).
Proof.
  apply (BindGLTextures_units prepared_world). apply prepared_world_ok.
Defined.

Lemma release_filter (ids live : list Z) :
  release ids live = filter (fun n => n ∉ ids) live.
Proof.
  revert live. induction ids as [|a ids IH]; intros live.
  - cbn [release foldl]. induction live as [|x live IHl]; [reflexivity|].
    rewrite filter_cons_True by (intros Hx; inversion Hx). f_equal. exact IHl.
  - cbn [release foldl]. change (foldl _ ?l ids) with (release ids l).
    rewrite IH, list_filter_filter. apply list_filter_iff.
    intros x. rewrite not_elem_of_cons. tauto.
Qed.

Lemma release_twice (ids live : list Z) :
  release ids (release ids live) = release ids live.
Proof.
  rewrite !release_filter, list_filter_filter. apply list_filter_iff. tauto.
Qed.

(** X7. [DestroyGLTextures] does not forget what it released: a second
    call returns as well, issues the same [glDeleteTextures] calls for
    the same identifiers again, and leaves the world of the first call
    as it is. *)
Theorem DestroyGLTextures_twice (w : Scene.World) :
  registry_ok (Scene.this w) ->
  exists w1 e,
    DestroyGLTextures w = Returns tt w1 e
    /\ DestroyGLTextures w1 = Returns tt w1 e
    /\ length e = Z.to_nat (m_loadedTextures (Scene.this w)).
Proof.
  intros Hok. pose proof Hok as (Hlen & _ & Hn). do 2 eexists.
  split; [apply (DestroyGLTextures_run w Hok)|]. split.
  - eapply runs_eq; [apply DestroyGLTextures_run; exact Hok| |reflexivity].
    unfold with_gl_textures. cbn [Scene.this files gl_textures gl_names Scene.glfw_time].
    rewrite release_twice. reflexivity.
  - rewrite length_map. unfold registered. rewrite length_take. lia.
Qed.

Lemma DestroyGLTextures_twice_witness :
  exists w1 e,
    DestroyGLTextures prepared_world = Returns tt w1 e
    /\ DestroyGLTextures w1 = Returns tt w1 e
    /\ length e = Z.to_nat (m_loadedTextures (Scene.this prepared_world)).
Proof.
  apply (DestroyGLTextures_twice prepared_world). apply prepared_world_ok.
Defined.

(** ** Lookups in every state the manager can reach *)

Lemma slot_of_cases (tag0 : string) (l : list TEXTURE_INFO) (k : nat) :
  (slot_of tag0 l k = -1 /\ forall j t', l !! j = Some t' -> tag t' <> tag0)
  \/ exists i t,
       slot_of tag0 l k = Z.of_nat (k + i) /\ l !! i = Some t /\ tag t = tag0
       /\ forall j t', (j < i)%nat -> l !! j = Some t' -> tag t' <> tag0.
Proof.
  revert k. induction l as [|a l IH]; intros k.
  - left. split; [reflexivity|]. intros j t' Hj. destruct j; discriminate Hj.
  - cbn [slot_of]. destruct (String.eqb_spec (tag a) tag0) as [Ha|Ha].
    + right. exists 0%nat, a. repeat split; [f_equal; lia|exact Ha|].
      intros j t' Hj. lia.
    + destruct (IH (S k)) as [[Hnone Habs]|(i & t & Hslot & Hi & Ht & Hfirst)].
      * left. split; [exact Hnone|]. intros [|j] t' Hj.
        -- injection Hj as <-. exact Ha.
        -- exact (Habs j t' Hj).
      * right. exists (S i), t. repeat split; [rewrite Hslot; f_equal; lia|exact Hi|exact Ht|].
        intros [|j] t' Hj Hlook.
        -- injection Hlook as <-. exact Ha.
        -- apply (Hfirst j t'); [lia|exact Hlook].
Qed.

(** X8. [FindTextureSlot] never fails and never changes anything on a
    manager whose arrays are sized; its answer is -1 exactly when no
    registered entry has the tag, and otherwise it is the index, below
    the occupancy counter, of the first registered entry with the
    tag. *)
Theorem FindTextureSlot_answer (w : Scene.World) (tag0 : string) :
  registry_ok (Scene.this w) ->
  exists s,
    FindTextureSlot tag0 w = Returns s w []
    /\ (s = -1 <-> never_registered (Scene.this w) tag0)
    /\ (s <> -1 ->
          0 <= s < m_loadedTextures (Scene.this w)
          /\ exists t, first_registered (Scene.this w) tag0 (Z.to_nat s) t).
Proof.
  intros Hok. pose proof Hok as (Hlen & _ & Hn).
  exists (slot_of tag0 (registered (Scene.this w)) 0).
  split; [apply FindTextureSlot_run; exact Hok|].
  destruct (slot_of_cases tag0 (registered (Scene.this w)) 0)
    as [[Hnone Habs]|(i & t & Hslot & Hi & Ht & Hfirst)].
  - rewrite Hnone. split; [tauto|]. intros Hne. contradiction.
  - rewrite Hslot. cbn [Nat.add].
    pose proof (lookup_lt_Some _ _ _ Hi) as Hbound.
    unfold registered in Hbound. rewrite length_take in Hbound.
    split.
    + split; [lia|]. intros Habs. exfalso. exact (Habs i t Hi Ht).
    + intros _. split; [lia|]. exists t. rewrite Nat2Z.id.
      split; [exact Hi|]. split; [exact Ht|exact Hfirst].
Qed.

Lemma FindTextureSlot_answer_witness :
  exists s,
    FindTextureSlot "water" prepared_world = Returns s prepared_world []
    /\ (s = -1 <-> never_registered (Scene.this prepared_world) "water")
    /\ (s <> -1 ->
          0 <= s < m_loadedTextures (Scene.this prepared_world)
          /\ exists t, first_registered (Scene.this prepared_world) "water" (Z.to_nat s) t).
Proof.
  apply (FindTextureSlot_answer prepared_world "water"). apply prepared_world_ok.
Defined.

Lemma registry_inv_new (p : ShaderManagerPtr) : registry_inv (SceneManager_new p).
Proof.
  split.
  - repeat split; vm_compute; discriminate.
  - intros i t _ Hlook. cbn [SceneManager_new m_textureIDs] in Hlook.
    apply lookup_replicate_1 in Hlook as [-> _]. reflexivity.
Qed.

Lemma registry_inv_register (id : Z) (tag0 : string) (sm : SceneManager) :
  registry_inv sm -> m_loadedTextures sm < 128 -> registry_inv (register id tag0 sm).
Proof.
  intros [(Hlen & Hlights & Hn) Hspare] Hlt. split.
  - repeat split; simpl; rewrite ?length_insert; assumption || lia.
  - intros i t Hi Hlook. simpl in Hi, Hlook.
    rewrite list_lookup_insert_ne in Hlook by lia.
    apply (Hspare i t); [lia|exact Hlook].
Qed.

Lemma CreateGLTexture_keeps_inv (w w' : Scene.World) (filename tag0 : string)
    (b : bool) (e : list Event) :
  registry_inv (Scene.this w) ->
  CreateGLTexture filename tag0 w = Returns b w' e ->
  registry_inv (Scene.this w').
Proof.
  intros Hinv Hrun. pose proof Hinv as [Hok Hspare].
  pose proof Hok as (Hlen & Hlights & Hn).
  destruct (loads w filename) eqn:Hloads.
  - destruct (Z_lt_dec (m_loadedTextures (Scene.this w)) 128) as [Hlt|Hfull].
    + destruct (CreateGLTexture_run w filename tag0) as [e' Hrun']; [lia|lia|].
      rewrite Hrun' in Hrun. injection Hrun as _ <- _.
      unfold after_CreateGLTexture, loads in *.
      destruct (files w filename) as [img|]; [|discriminate Hloads].
      rewrite Hloads. apply registry_inv_register; assumption.
    + apply loads_loadable in Hloads.
      rewrite (CreateGLTexture_overflow w filename tag0 Hok ltac:(lia) Hloads) in Hrun.
      discriminate Hrun.
  - destruct (CreateGLTexture_rejected w filename tag0 Hloads) as (e' & Hrun' & Hsame & _).
    rewrite Hrun' in Hrun. injection Hrun as _ <- _. rewrite Hsame. exact Hinv.
Qed.

Lemma SetLightSource_keeps_inv (w w' : Scene.World) (index : Z) (light : LIGHT_SOURCE)
    (e : list Event) :
  registry_inv (Scene.this w) ->
  SetLightSource index light w = Returns tt w' e ->
  registry_inv (Scene.this w').
Proof.
  intros [Hok Hspare] Hrun. split.
  - apply (SetLightSource_keeps_ok w w' index light e Hok Hrun).
  - destruct (Z_lt_dec index 0) as [Hlo|Hlo];
      [|destruct (Z_ge_dec index 4) as [Hhi|Hhi]].
    1, 2: rewrite SetLightSource_out_of_range in Hrun by lia;
      injection Hrun as <- _; exact Hspare.
    destruct (m_pShaderManager (Scene.this w)) eqn:Hp.
    + rewrite SetLightSource_null in Hrun by (lia || exact Hp). discriminate.
    + rewrite SetLightSource_in_range in Hrun by (lia || exact Hp).
      injection Hrun as <- _. exact Hspare.
Qed.

Lemma PrepareScene_keeps_inv (w0 w : Scene.World) (e0 : list Event) :
  registry_inv (Scene.this w0) ->
  PrepareScene w0 = Returns tt w e0 ->
  registry_inv (Scene.this w).
Proof.
  intros Hinv Hrun. unfold PrepareScene in Hrun.
  do 4 (apply bind_returns_inv in Hrun as (? & ? & ? & ? & Hemit & Hrun & _);
        apply emit_returns_inv in Hemit; subst).
  do 5 (apply bind_returns_inv in Hrun as (? & ? & ? & ? & Hload & Hrun & _);
        apply (CreateGLTexture_keeps_inv _ _ _ _ _ _ Hinv) in Hload;
        clear Hinv; rename Hload into Hinv).
  apply bind_returns_inv in Hrun as ([] & w1 & ? & ? & Hl1 & Hrun & _).
  apply (SetLightSource_keeps_inv _ _ _ _ _ Hinv) in Hl1.
  apply bind_returns_inv in Hrun as ([] & w2 & ? & ? & Hl2 & Hrun & _).
  apply (SetLightSource_keeps_inv _ _ _ _ _ Hl1) in Hl2.
  apply (SetLightSource_keeps_inv _ _ _ _ _ Hl2) in Hrun. exact Hrun.
Qed.

(** X9. The constructor sets up, and every [CreateGLTexture],
    [SetLightSource] and [PrepareScene] that returns keeps: 128 texture
    slots, 4 light slots, an occupancy counter between 0 and 128, and
    every slot past the counter still holding the default entry (ID 0,
    empty tag). *)
Theorem registry_invariant (w w' : Scene.World) :
  registry_inv (Scene.this w) ->
  (forall filename tag0 b e,
     CreateGLTexture filename tag0 w = Returns b w' e -> registry_inv (Scene.this w'))
  /\ (forall index light e,
        SetLightSource index light w = Returns tt w' e -> registry_inv (Scene.this w'))
  /\ (forall e, PrepareScene w = Returns tt w' e -> registry_inv (Scene.this w'))
  /\ (forall p, registry_inv (SceneManager_new p)).
Proof.
  intros Hinv. split; [|split; [|split]].
  - intros filename tag0 b e. apply CreateGLTexture_keeps_inv. exact Hinv.
  - intros index light e. apply SetLightSource_keeps_inv. exact Hinv.
  - intros e. apply PrepareScene_keeps_inv. exact Hinv.
  - apply registry_inv_new.
Qed.

Lemma registry_invariant_witness :
  (forall filename tag0 b e,
     CreateGLTexture filename tag0 demo_world = Returns b prepared_world e ->
     registry_inv (Scene.this prepared_world))
  /\ (forall index light e,
        SetLightSource index light demo_world = Returns tt prepared_world e ->
        registry_inv (Scene.this prepared_world))
  /\ (forall e, PrepareScene demo_world = Returns tt prepared_world e ->
                registry_inv (Scene.this prepared_world))
  /\ (forall p, registry_inv (SceneManager_new p)).
Proof.
  apply (registry_invariant demo_world prepared_world).
  split.
  - repeat split; vm_compute; discriminate.
  - intros i t _ Hlook. cbn [demo_world Scene.this SceneManager_new m_textureIDs] in Hlook.
    apply lookup_replicate_1 in Hlook as [-> _]. reflexivity.
Defined.

(** X10. What [FindTextureID] answers for a tag no registered entry
    has, in every state that keeps the invariant of X9: -1, except for
    the empty tag while a slot is still free, where it is 0 (the ID of
    the first free slot). *)
Theorem FindTextureID_unregistered (w : Scene.World) (tag0 : string) :
  registry_inv (Scene.this w) ->
  never_registered (Scene.this w) tag0 ->
  FindTextureID tag0 w =
    Returns (if String.eqb tag0 "" && (m_loadedTextures (Scene.this w) <? 128)%Z
             then 0 else -1) w [].
Proof.
  intros [(Hlen & Hlights & Hn) Hspare] Hnever. rewrite FindTextureID_run.
  destruct (String.eqb_spec tag0 "") as [->|Hne]; cbn [andb].
  - destruct (Z.ltb_spec (m_loadedTextures (Scene.this w)) 128) as [Hlt|Hfull].
    + destruct (lookup_lt_is_Some_2 (m_textureIDs (Scene.this w))
                  (Z.to_nat (m_loadedTextures (Scene.this w)))) as [t Ht]; [lia|].
      pose proof (Hspare _ t (Nat.le_refl _) Ht) as ->.
      rewrite (FindTextureID_loop_found "" _ _ _ Ht eq_refl); [reflexivity|].
      intros j t' Hj Hlook. apply (Hnever j t').
      unfold registered. rewrite lookup_take_lt by exact Hj. exact Hlook.
    + rewrite FindTextureID_loop_absent; [reflexivity|].
      intros i t Hi. apply (Hnever i t). unfold registered.
      pose proof (lookup_lt_Some _ _ _ Hi).
      rewrite lookup_take_lt by lia. exact Hi.
  - apply (FindTextureID_never_registered tag0 w Hne Hnever Hspare).
Qed.

Lemma FindTextureID_unregistered_witness :
  FindTextureID "marble" prepared_world = Returns (-1) prepared_world []
  /\ FindTextureID "marble" full_world = Returns (-1) full_world [].
Proof.
  split.
  - apply (FindTextureID_unregistered prepared_world "marble").
    + apply (PrepareScene_keeps_inv demo_world prepared_world
               (events_of PrepareScene demo_world)).
      * apply registry_inv_new.
      * vm_compute. reflexivity.
    + intros j t' Hlook.
      do 5 (destruct j as [|j];
            [vm_compute in Hlook; injection Hlook as <-; discriminate|]).
      vm_compute in Hlook. discriminate Hlook.
  - apply (FindTextureID_unregistered full_world "marble").
    + split.
      * repeat split; vm_compute; discriminate.
      * intros i t Hi Hlook. apply lookup_lt_Some in Hlook.
        change (128 <= i)%nat in Hi. change (i < 128)%nat in Hlook. lia.
    + intros j t' Hlook. unfold registered in Hlook.
      apply lookup_take_Some in Hlook as [Hlook _].
      change (replicate 128 {| ID := 7; tag := "stone" |} !! j = Some t') in Hlook.
      apply lookup_replicate_1 in Hlook as [-> _]. discriminate.
Defined.

(** ** A frame: what it reads, what it leaves, what it pushes *)

Lemma RenderScene_run_world (w : Scene.World) :
  m_pShaderManager (Scene.this w) = ShaderPtr -> registry_ok (Scene.this w) ->
  RenderScene w =
    Returns tt
      (with_time
         (forest_clock additionalTreePositions
            (forest_clock treePositions (Scene.glfw_time w))) w)
      (RenderScene_preamble (Scene.this w)
       ++ flat_map (step_events (Scene.this w)) (scene_steps (Scene.glfw_time w))).
Proof.
  intros Hp Hok. destruct w as [sm fs gt gn tm].
  exact (RenderScene_run_at
           {| Scene.this := sm; files := fs; gl_textures := gt; gl_names := gn;
              Scene.glfw_time := tm |} Hp Hok tm).
Qed.

(** X11. A frame changes nothing but the clock: with a ShaderManager
    attached, [RenderScene] returns with the same SceneManager, the
    same files and the same OpenGL textures, having read the clock
    exactly 48 times (once per tree part); so a second frame returns
    too, and issues the same 57 draws. *)
Theorem RenderScene_frame (w : Scene.World) :
  m_pShaderManager (Scene.this w) = ShaderPtr ->
  registry_ok (Scene.this w) ->
  exists w1 e1 w2 e2,
    RenderScene w = Returns tt w1 e1
    /\ Scene.this w1 = Scene.this w
    /\ files w1 = files w
    /\ gl_textures w1 = gl_textures w
    /\ gl_names w1 = gl_names w
    /\ (forall n, Scene.glfw_time w1 n = Scene.glfw_time w (48 + n)%nat)
    /\ RenderScene w1 = Returns tt w2 e2
    /\ List.filter is_draw e2 = List.filter is_draw e1
    /\ length (List.filter is_draw e1) = 57%nat.
Proof.
  intros Hp Hok. do 4 eexists.
  split; [apply (RenderScene_run_world w Hp Hok)|].
  do 5 (split; [reflexivity|]).
  split; [apply (RenderScene_run_world (with_time _ w) Hp Hok)|].
  rewrite !List.filter_app, !RenderScene_preamble_no_draw, !steps_events_draws.
  split; reflexivity.
Qed.

Lemma RenderScene_frame_witness :
  exists w1 e1 w2 e2,
    RenderScene prepared_world = Returns tt w1 e1
    /\ Scene.this w1 = Scene.this prepared_world
    /\ files w1 = files prepared_world
    /\ gl_textures w1 = gl_textures prepared_world
    /\ gl_names w1 = gl_names prepared_world
    /\ (forall n, Scene.glfw_time w1 n = Scene.glfw_time prepared_world (48 + n)%nat)
    /\ RenderScene w1 = Returns tt w2 e2
    /\ List.filter is_draw e2 = List.filter is_draw e1
    /\ length (List.filter is_draw e1) = 57%nat.
Proof.
  apply (RenderScene_frame prepared_world); apply prepared_world_ok.
Defined.

Lemma texture_events_floats (sm : SceneManager) (tag0 : string) :
  List.filter is_float_uniform (texture_events sm tag0) = [].
Proof.
  unfold texture_events. cbv zeta. cbn [List.filter is_float_uniform].
  destruct (slot_of tag0 (registered sm) 0 =? -1)%Z; [reflexivity|].
  destruct (m_textureIDs sm !! Z.to_nat (slot_of tag0 (registered sm) 0));
    reflexivity.
Qed.

Lemma steps_events_floats (sm : SceneManager) (steps : list DrawStep) :
  List.filter is_float_uniform (flat_map (step_events sm) steps) = [].
Proof.
  induction steps as [|d steps IH]; [reflexivity|].
  cbn [flat_map]. rewrite List.filter_app, IH, app_nil_r.
  unfold step_events. cbn [List.filter is_float_uniform]. rewrite List.filter_app.
  destruct (step_paint d) as [tag0|color]; cbn [paint_events].
  - rewrite List.filter_app, texture_events_floats. reflexivity.
  - reflexivity.
Qed.

Lemma RenderScene_preamble_lights (sm : SceneManager) (l0 l1 l2 : LIGHT_SOURCE) :
  m_lightSources sm !! 0%nat = Some l0 ->
  m_lightSources sm !! 1%nat = Some l1 ->
  m_lightSources sm !! 2%nat = Some l2 ->
  RenderScene_preamble sm =
    ([ GlEnableDepthTest; GlDepthFuncLequal; GlClearColorAndDepth; ShaderUse;
       SetUniform "viewPos" (UVec3 (Vec3 0 0 3)) ]
     ++ frame_light_uniforms 0 l0 ++ frame_light_uniforms 1 l1 ++ frame_light_uniforms 2 l2
     ++ [ SetUniform "bUseLighting" (UInt 1);
          SetUniform "material.ambientColor" (UVec3 (Vec3 0.2 0.2 0.2));
          SetUniform "material.diffuseColor" (UVec3 (Vec3 0.8 0.8 0.8));
          SetUniform "material.specularColor" (UVec3 (Vec3 1 1 1));
          SetUniform "material.shininess" (UFloat 32) ])%list.
Proof.
  intros H0 H1 H2. unfold RenderScene_preamble, render_light_events.
  rewrite H0, H1, H2. reflexivity.
Qed.

(** X12. What a frame takes from the light slots. After
    [SetLightSource(i, L)] with [i] in [0,4), the next [RenderScene]
    pushes, for each of the slots 0, 1 and 2, the position and the
    ambient, diffuse and specular colours the slot now holds (those of
    [L] for slot [i]); it pushes no light's [focalStrength] or
    [specularIntensity] (its only scalar uniform is
    [material.shininess]); and slot 3 does not reach the frame: for
    [i = 3] the frame's events are those of a frame without the
    call. *)
Theorem SetLightSource_then_RenderScene
    (w : Scene.World) (index : Z) (light : LIGHT_SOURCE) :
  m_pShaderManager (Scene.this w) = ShaderPtr ->
  registry_ok (Scene.this w) ->
  0 <= index < 4 ->
  exists w1 e1 w2 e2 l0 l1 l2,
    SetLightSource index light w = Returns tt w1 e1
    /\ RenderScene w1 = Returns tt w2 e2
    /\ m_lightSources (Scene.this w1) !! 0%nat = Some l0
    /\ m_lightSources (Scene.this w1) !! 1%nat = Some l1
    /\ m_lightSources (Scene.this w1) !! 2%nat = Some l2
    /\ (index = 0 -> l0 = light) /\ (index = 1 -> l1 = light) /\ (index = 2 -> l2 = light)
    /\ take 22 e2 =
         ([ GlEnableDepthTest; GlDepthFuncLequal; GlClearColorAndDepth; ShaderUse;
            SetUniform "viewPos" (UVec3 (Vec3 0 0 3)) ]
          ++ frame_light_uniforms 0 l0 ++ frame_light_uniforms 1 l1
          ++ frame_light_uniforms 2 l2
          ++ [ SetUniform "bUseLighting" (UInt 1);
               SetUniform "material.ambientColor" (UVec3 (Vec3 0.2 0.2 0.2));
               SetUniform "material.diffuseColor" (UVec3 (Vec3 0.8 0.8 0.8));
               SetUniform "material.specularColor" (UVec3 (Vec3 1 1 1));
               SetUniform "material.shininess" (UFloat 32) ])%list
    /\ List.filter is_float_uniform e2 = [SetUniform "material.shininess" (UFloat 32)]
    /\ (index = 3 -> e2 = events_of RenderScene w).
Proof.
  intros Hp Hok Hin. pose proof Hok as (Hlen & Hlights & Hn).
  set (sm1 := store_light (Z.to_nat index) light (Scene.this w)).
  assert (Hok1 : registry_ok sm1).
  { repeat split; simpl; rewrite ?length_insert; assumption || lia. }
  assert (Hl : forall i, (i < 4)%nat -> exists l, m_lightSources sm1 !! i = Some l).
  { intros i Hi. apply lookup_lt_is_Some_2. simpl. rewrite length_insert. lia. }
  destruct (Hl 0%nat) as [l0 H0]; [lia|].
  destruct (Hl 1%nat) as [l1 H1]; [lia|].
  destruct (Hl 2%nat) as [l2 H2]; [lia|].
  exists (with_this sm1 w). do 3 eexists. exists l0, l1, l2.
  split; [apply (SetLightSource_in_range w index light Hin Hp)|].
  split; [apply (RenderScene_run_world (with_this sm1 w) Hp Hok1)|].
  do 3 (split; [assumption|]).
  assert (Hstored : m_lightSources sm1 !! Z.to_nat index = Some light).
  { simpl. apply list_lookup_insert_eq. lia. }
  split; [intros ->; change (Z.to_nat 0) with 0%nat in Hstored; congruence|].
  split; [intros ->; change (Z.to_nat 1) with 1%nat in Hstored; congruence|].
  split; [intros ->; change (Z.to_nat 2) with 2%nat in Hstored; congruence|].
  change (Scene.this (with_this sm1 w)) with sm1.
  rewrite (RenderScene_preamble_lights sm1 l0 l1 l2 H0 H1 H2).
  split; [reflexivity|]. split.
  - rewrite List.filter_app, steps_events_floats. reflexivity.
  - intros ->. unfold events_of. rewrite (RenderScene_run_world w Hp Hok).
    change (Z.to_nat 3) with 3%nat in *.
    assert (Hsame : forall i, (i < 3)%nat ->
              m_lightSources sm1 !! i = m_lightSources (Scene.this w) !! i).
    { intros i Hi. simpl. apply list_lookup_insert_ne. lia. }
    rewrite <- (RenderScene_preamble_lights sm1 l0 l1 l2 H0 H1 H2).
    f_equal. unfold RenderScene_preamble, render_light_events.
    rewrite !Hsame by lia. reflexivity.
Qed.

Lemma SetLightSource_then_RenderScene_witness :
  (exists w1 e1 w2 e2 l0 l1 l2,
     SetLightSource 1 moonlight prepared_world = Returns tt w1 e1
     /\ RenderScene w1 = Returns tt w2 e2
     /\ m_lightSources (Scene.this w1) !! 0%nat = Some l0
     /\ m_lightSources (Scene.this w1) !! 1%nat = Some l1
     /\ m_lightSources (Scene.this w1) !! 2%nat = Some l2
     /\ (1 = 0 -> l0 = moonlight) /\ (1 = 1 -> l1 = moonlight) /\ (1 = 2 -> l2 = moonlight)
     /\ take 22 e2 =
          ([ GlEnableDepthTest; GlDepthFuncLequal; GlClearColorAndDepth; ShaderUse;
             SetUniform "viewPos" (UVec3 (Vec3 0 0 3)) ]
           ++ frame_light_uniforms 0 l0 ++ frame_light_uniforms 1 l1
           ++ frame_light_uniforms 2 l2
           ++ [ SetUniform "bUseLighting" (UInt 1);
                SetUniform "material.ambientColor" (UVec3 (Vec3 0.2 0.2 0.2));
                SetUniform "material.diffuseColor" (UVec3 (Vec3 0.8 0.8 0.8));
                SetUniform "material.specularColor" (UVec3 (Vec3 1 1 1));
                SetUniform "material.shininess" (UFloat 32) ])%list
     /\ List.filter is_float_uniform e2 = [SetUniform "material.shininess" (UFloat 32)]
     /\ (1 = 3 -> e2 = events_of RenderScene prepared_world)).
Proof.
  apply (SetLightSource_then_RenderScene prepared_world 1 moonlight);
    [apply prepared_world_ok|apply prepared_world_ok|lia].
Defined.

Lemma texture_events_unregistered (sm : SceneManager) (tag0 : string) :
  never_registered sm tag0 ->
  texture_events sm tag0 = [SetUniform "bUseTexture" (UInt 1)].
Proof.
  intros Hnever. unfold texture_events.
  rewrite (slot_of_absent tag0 _ 0 Hnever). reflexivity.
Qed.

Lemma forest_steps_paints (tags : list string) (positions : list vec3) (time : nat -> R) :
  In "bark" tags -> In "leaves" tags ->
  Forall (fun d => paint_tag_in tags (step_paint d)) (forest_steps positions time).
Proof.
  intros Hbark Hleaves. revert time.
  induction positions as [|p rest IH]; intros time; [constructor|].
  cbn [forest_steps tree_steps app].
  constructor; [exact Hbark|]. constructor; [exact Hleaves|]. apply IH.
Qed.

Lemma scene_steps_paints (time : nat -> R) :
  Forall (fun d => paint_tag_in scene_tags (step_paint d)) (scene_steps time).
Proof.
  unfold scene_steps. rewrite !Forall_app. repeat split.
  - unfold ground_and_sky_steps_before_trees.
    repeat constructor; cbn; tauto.
  - apply forest_steps_paints; cbn; tauto.
  - apply forest_steps_paints; cbn; tauto.
  - repeat constructor; cbn; tauto.
Qed.

Lemma steps_events_no_binding (sm : SceneManager) (steps : list DrawStep) :
  (forall tag0, In tag0 scene_tags -> never_registered sm tag0) ->
  Forall (fun d => paint_tag_in scene_tags (step_paint d)) steps ->
  List.filter is_texture_binding (flat_map (step_events sm) steps) = [].
Proof.
  intros Hnever Hsteps. induction Hsteps as [|d steps Hd _ IH]; [reflexivity|].
  cbn [flat_map]. rewrite List.filter_app, IH, app_nil_r.
  unfold step_events. cbn [List.filter is_texture_binding]. rewrite List.filter_app.
  destruct (step_paint d) as [tag0|color]; cbn [paint_events].
  - rewrite (texture_events_unregistered sm tag0 (Hnever tag0 Hd)). reflexivity.
  - reflexivity.
Qed.

Lemma RenderScene_preamble_no_binding (sm : SceneManager) :
  List.filter is_texture_binding (RenderScene_preamble sm) = [].
Proof.
  unfold RenderScene_preamble, render_light_events.
  rewrite !List.filter_app.
  destruct (m_lightSources sm !! 0%nat), (m_lightSources sm !! 1%nat),
    (m_lightSources sm !! 2%nat); reflexivity.
Qed.

Lemma steps_events_texturing (sm : SceneManager) (steps : list DrawStep) :
  (forall tag0, In tag0 scene_tags -> never_registered sm tag0) ->
  Forall (fun d => paint_tag_in scene_tags (step_paint d)) steps ->
  length (List.filter enables_texturing (flat_map (step_events sm) steps)) =
  length (List.filter is_textured (map step_paint steps)).
Proof.
  intros Hnever Hsteps. induction Hsteps as [|d steps Hd _ IH]; [reflexivity|].
  cbn [flat_map map]. rewrite List.filter_app, length_app, IH.
  unfold step_events. cbn [List.filter enables_texturing]. rewrite List.filter_app.
  destruct (step_paint d) as [tag0|color]; cbn [paint_events].
  - rewrite (texture_events_unregistered sm tag0 (Hnever tag0 Hd)). reflexivity.
  - reflexivity.
Qed.

Lemma RenderScene_preamble_no_texturing (sm : SceneManager) :
  List.filter enables_texturing (RenderScene_preamble sm) = [].
Proof.
  unfold RenderScene_preamble, render_light_events.
  rewrite !List.filter_app.
  destruct (m_lightSources sm !! 0%nat), (m_lightSources sm !! 1%nat),
    (m_lightSources sm !! 2%nat); reflexivity.
Qed.

(** X13. A frame without its textures still draws everything: when
    none of the tags bark, grass, water, leaves, sky is registered,
    [RenderScene] returns with all 57 draws and issues no texture unit
    activation, no texture binding and no sampler uniform at all, while
    the 51 textured steps still set [bUseTexture] to 1. *)
Theorem RenderScene_without_textures (w : Scene.World) :
  m_pShaderManager (Scene.this w) = ShaderPtr ->
  registry_ok (Scene.this w) ->
  (forall tag0, In tag0 scene_tags -> never_registered (Scene.this w) tag0) ->
  exists w' e,
    RenderScene w = Returns tt w' e
    /\ List.filter is_texture_binding e = []
    /\ length (List.filter is_draw e) = 57%nat
    /\ length (List.filter enables_texturing e) = 51%nat.
Proof.
  intros Hp Hok Hnever. do 2 eexists.
  split; [apply (RenderScene_run_world w Hp Hok)|].
  pose proof (scene_steps_paints (Scene.glfw_time w)) as Hpaints.
  rewrite !List.filter_app.
  rewrite RenderScene_preamble_no_binding, RenderScene_preamble_no_draw,
    RenderScene_preamble_no_texturing.
  cbn [app].
  rewrite (steps_events_no_binding _ _ Hnever Hpaints), steps_events_draws,
    (steps_events_texturing _ _ Hnever Hpaints).
  repeat split.
Qed.

Lemma unloaded_world_ok :
  registry_ok (Scene.this unloaded_world)
  /\ m_pShaderManager (Scene.this unloaded_world) = ShaderPtr
  /\ m_loadedTextures (Scene.this unloaded_world) = 0.
Proof. repeat split; vm_compute; discriminate. Qed.

Lemma RenderScene_without_textures_witness :
  exists w' e,
    RenderScene unloaded_world = Returns tt w' e
    /\ List.filter is_texture_binding e = []
    /\ length (List.filter is_draw e) = 57%nat
    /\ length (List.filter enables_texturing e) = 51%nat.
Proof.
  apply (RenderScene_without_textures unloaded_world);
    [apply unloaded_world_ok|apply unloaded_world_ok|].
  intros tag0 _ j t' Hlook. vm_compute in Hlook. destruct j; discriminate Hlook.
Defined.

(** ** PrepareScene with files that fail, and without a ShaderManager *)

Lemma after_CreateGLTexture_cases (filename tag0 : string) (w : Scene.World) :
  (loads w filename = true /\ after_CreateGLTexture filename tag0 w = texture_loaded tag0 w)
  \/ (loads w filename = false
      /\ Scene.this (after_CreateGLTexture filename tag0 w) = Scene.this w
      /\ files (after_CreateGLTexture filename tag0 w) = files w).
Proof.
  unfold loads, after_CreateGLTexture.
  destruct (files w filename) as [img|]; [destruct (accepted img)|]; auto.
Qed.

Lemma room_after_CreateGLTexture (n : Z) (filename tag0 : string) (w : Scene.World) :
  room (n + 1) w -> room n (after_CreateGLTexture filename tag0 w).
Proof.
  intros Hroom.
  destruct (after_CreateGLTexture_cases filename tag0 w) as [[_ ->]|(_ & Hsame & _)].
  - apply room_texture_loaded. exact Hroom.
  - unfold room in *. rewrite Hsame. lia.
Qed.

Lemma load_all_registered (sources : list (string * string)) (w : Scene.World) :
  registry_ok (Scene.this w) ->
  m_loadedTextures (Scene.this w) + Z.of_nat (length sources) <= 128 ->
  registry_ok (Scene.this (load_all sources w))
  /\ map tag (registered (Scene.this (load_all sources w))) =
       (map tag (registered (Scene.this w)) ++ loaded_tags w sources)%list
  /\ m_loadedTextures (Scene.this (load_all sources w)) =
       m_loadedTextures (Scene.this w) + Z.of_nat (length (loaded_tags w sources))
  /\ m_lightSources (Scene.this (load_all sources w)) = m_lightSources (Scene.this w)
  /\ m_pShaderManager (Scene.this (load_all sources w)) = m_pShaderManager (Scene.this w).
Proof.
  revert w. induction sources as [|[f t] rest IH]; intros w Hok Hfit.
  - cbn. rewrite app_nil_r, Z.add_0_r. auto.
  - cbn [length] in Hfit. pose proof Hok as (Hlen & Hlights & Hn).
    cbn [load_all foldl fst snd].
    change (foldl _ ?w0 rest) with (load_all rest w0).
    unfold loaded_tags. cbn [List.filter fst snd].
    destruct (after_CreateGLTexture_cases f t w) as [[Hloads ->]|(Hloads & Hsame & Hfiles)];
      rewrite Hloads.
    + assert (Hok1 : registry_ok (Scene.this (texture_loaded t w))).
      { repeat split; simpl; rewrite ?length_insert; assumption || lia. }
      destruct (IH (texture_loaded t w) Hok1) as (Hok' & Htags & Hcount & Hl & Hp).
      { simpl. lia. }
      change (loaded_tags (texture_loaded t w) rest) with (loaded_tags w rest) in *.
      unfold loaded_tags in *.
      split; [exact Hok'|]. split; [|split; [|split]].
      * rewrite Htags. cbn [Scene.this texture_loaded].
        rewrite registered_register by lia.
        rewrite map_app, <- app_assoc. reflexivity.
      * rewrite Hcount.
        cbn [Scene.this texture_loaded register m_loadedTextures map length].
        rewrite Nat2Z.inj_succ. lia.
      * rewrite Hl. reflexivity.
      * rewrite Hp. reflexivity.
    + assert (Hok1 : registry_ok (Scene.this (after_CreateGLTexture f t w)))
        by (rewrite Hsame; exact Hok).
      destruct (IH (after_CreateGLTexture f t w) Hok1) as (Hok' & Htags & Hcount & Hl & Hp).
      { rewrite Hsame. lia. }
      assert (Hsame_tags :
        loaded_tags (after_CreateGLTexture f t w) rest = loaded_tags w rest).
      { unfold loaded_tags, loads. rewrite Hfiles. reflexivity. }
      rewrite Hsame_tags, Hsame in *. unfold loaded_tags in *. auto.
Qed.

Lemma bind_run {A B} (m : M A) (k : A -> M B) (w w1 : Scene.World) (a : A)
    (e1 : list Event) :
  m w = Returns a w1 e1 ->
  bind m k w =
    match k a w1 with
    | Returns b w2 e2 => Returns b w2 (e1 ++ e2)
    | NullDereference => NullDereference
    | OutOfBounds => OutOfBounds
    end.
Proof. unfold bind. intros ->. reflexivity. Qed.

(** [PrepareScene] in two phases: the meshes and the five loads, which
    always return when five slots are free, then the three lights. *)
Lemma PrepareScene_phases (w : Scene.World) :
  registry_ok (Scene.this w) ->
  m_loadedTextures (Scene.this w) + 5 <= 128 ->
  exists e,
    PrepareScene w =
      match bind (SetLightSource 0 light1) (fun _ =>
            bind (SetLightSource 1 light2) (fun _ => SetLightSource 2 light3))
              (load_all scene_textures w) with
      | Returns b w' e2 => Returns b w' (e ++ e2)
      | NullDereference => NullDereference
      | OutOfBounds => OutOfBounds
      end.
Proof.
  intros (Hlen & _ & Hn) Hfit.
  assert (Hroom : room 5 w) by (unfold room; lia).
  set (w1 := after_CreateGLTexture "textures/bark.jpg" "bark" w).
  set (w2 := after_CreateGLTexture "textures/grass.jpg" "grass" w1).
  set (w3 := after_CreateGLTexture "textures/water.jpg" "water" w2).
  set (w4 := after_CreateGLTexture "textures/leaves.jpg" "leaves" w3).
  assert (Hroom1 : room 4 w1) by (apply room_after_CreateGLTexture; exact Hroom).
  assert (Hroom2 : room 3 w2) by (apply room_after_CreateGLTexture; exact Hroom1).
  assert (Hroom3 : room 2 w3) by (apply room_after_CreateGLTexture; exact Hroom2).
  assert (Hroom4 : room 1 w4) by (apply room_after_CreateGLTexture; exact Hroom3).
  destruct (CreateGLTexture_run w "textures/bark.jpg" "bark") as [e1 He1];
    [apply Hroom|apply (room_next 4); [lia|exact Hroom]|].
  destruct (CreateGLTexture_run w1 "textures/grass.jpg" "grass") as [e2 He2];
    [apply Hroom1|apply (room_next 3); [lia|exact Hroom1]|].
  destruct (CreateGLTexture_run w2 "textures/water.jpg" "water") as [e3 He3];
    [apply Hroom2|apply (room_next 2); [lia|exact Hroom2]|].
  destruct (CreateGLTexture_run w3 "textures/leaves.jpg" "leaves") as [e4 He4];
    [apply Hroom3|apply (room_next 1); [lia|exact Hroom3]|].
  destruct (CreateGLTexture_run w4 "textures/sky.jpg" "sky") as [e5 He5];
    [apply Hroom4|apply (room_next 0); [lia|exact Hroom4]|].
  exists ([LoadMesh Plane] ++ [LoadMesh Cylinder] ++ [LoadMesh Cone] ++ [LoadMesh Sphere]
          ++ e1 ++ e2 ++ e3 ++ e4 ++ e5)%list.
  unfold PrepareScene.
  do 4 (erewrite bind_run by apply runs_emit).
  rewrite (bind_run _ _ _ _ _ _ He1), (bind_run _ _ _ _ _ _ He2),
    (bind_run _ _ _ _ _ _ He3), (bind_run _ _ _ _ _ _ He4), (bind_run _ _ _ _ _ _ He5).
  change (after_CreateGLTexture "textures/sky.jpg" "sky" w4)
    with (load_all scene_textures w).
  destruct (bind (SetLightSource 0 light1) _ (load_all scene_textures w));
    [|reflexivity|reflexivity].
  rewrite <- !app_assoc. reflexivity.
Qed.

(** X14. [PrepareScene] goes on when a texture fails to load: with a
    ShaderManager attached and five free slots it returns whatever the
    five files hold, the registered tags grow by the tags of the files
    that load, in the order bark, grass, water, leaves, sky (so a
    failed load shifts the slots of the textures after it), and the
    three lights are set in every case. *)
Theorem PrepareScene_skips_failed_loads (w : Scene.World) :
  m_pShaderManager (Scene.this w) = ShaderPtr ->
  registry_ok (Scene.this w) ->
  m_loadedTextures (Scene.this w) + 5 <= 128 ->
  exists w' e,
    PrepareScene w = Returns tt w' e
    /\ map tag (registered (Scene.this w')) =
         (map tag (registered (Scene.this w)) ++ loaded_tags w scene_textures)%list
    /\ m_loadedTextures (Scene.this w') =
         m_loadedTextures (Scene.this w)
         + Z.of_nat (length (loaded_tags w scene_textures))
    /\ m_lightSources (Scene.this w') !! 0%nat = Some light1
    /\ m_lightSources (Scene.this w') !! 1%nat = Some light2
    /\ m_lightSources (Scene.this w') !! 2%nat = Some light3
    /\ m_lightSources (Scene.this w') !! 3%nat = m_lightSources (Scene.this w) !! 3%nat.
Proof.
  intros Hp Hok Hfit.
  destruct (PrepareScene_phases w Hok Hfit) as [e Hphases].
  destruct (load_all_registered scene_textures w Hok) as (Hok5 & Htags & Hcount & Hl & Hp5);
    [cbn; lia|].
  rewrite Hp in Hp5. pose proof Hok5 as (_ & Hlights5 & _).
  set (w5 := load_all scene_textures w) in *.
  assert (Hlights : runs
    (bind (SetLightSource 0 light1) (fun _ =>
     bind (SetLightSource 1 light2) (fun _ => SetLightSource 2 light3))) w5 tt
    (with_this (store_light 2 light3 (store_light 1 light2
       (store_light 0 light1 (Scene.this w5)))) w5)
    (light_uniforms 0 light1 ++ light_uniforms 1 light2 ++ light_uniforms 2 light3)).
  { eapply runs_eq.
    - eapply runs_bind; [apply SetLightSource_in_range; [lia|exact Hp5]|cbv beta].
      eapply runs_bind; [apply SetLightSource_in_range; [lia|exact Hp5]|cbv beta].
      apply SetLightSource_in_range; [lia|exact Hp5].
    - reflexivity.
    - reflexivity. }
  unfold runs in Hlights. rewrite Hlights in Hphases.
  do 2 eexists. split; [exact Hphases|].
  split; [exact Htags|]. split; [exact Hcount|].
  cbn [Scene.this with_this store_light m_lightSources].
  rewrite <- Hl.
  split; [|split; [|split]].
  - rewrite list_lookup_insert_ne, list_lookup_insert_ne by lia.
    apply list_lookup_insert_eq. lia.
  - rewrite list_lookup_insert_ne by lia. apply list_lookup_insert_eq.
    rewrite length_insert. lia.
  - apply list_lookup_insert_eq. rewrite !length_insert. lia.
  - rewrite !list_lookup_insert_ne by lia. reflexivity.
Qed.

Lemma PrepareScene_skips_failed_loads_witness :
  exists w' e,
    PrepareScene grey_grass_world = Returns tt w' e
    /\ map tag (registered (Scene.this w')) = ["bark"; "water"; "leaves"; "sky"]
    /\ m_loadedTextures (Scene.this w') = 4
    /\ m_lightSources (Scene.this w') !! 0%nat = Some light1
    /\ m_lightSources (Scene.this w') !! 1%nat = Some light2
    /\ m_lightSources (Scene.this w') !! 2%nat = Some light3
    /\ m_lightSources (Scene.this w') !! 3%nat
       = m_lightSources (Scene.this grey_grass_world) !! 3%nat.
Proof.
  apply (PrepareScene_skips_failed_loads grey_grass_world).
  - reflexivity.
  - repeat split; vm_compute; discriminate.
  - vm_compute. discriminate.
Defined.



(** ** Where the model matrices put things *)

Section ModelMatrix.

Local Open Scope R_scope.

Lemma mat4_apply_mul (a b : mat4) (v : vec4) :
  mat4_apply (mat4_mul a b) v = mat4_apply a (mat4_apply b v).
Proof.
  destruct a as [[] [] [] []], b as [[] [] [] []], v.
  unfold mat4_mul, mat4_apply, vec4_add, vec4_scale. cbn.
  apply vec4_eq; ring.
Qed.

Lemma translation_matrix_apply (p : vec3) (v : vec4) :
  mat4_apply (translation_matrix p) v =
  Vec4 (x4 v + x3 p * w4 v) (y4 v + y3 p * w4 v) (z4 v + z3 p * w4 v) (w4 v).
Proof.
  destruct v. unfold mat4_apply, translation_matrix, vec4_add, vec4_scale. cbn.
  apply vec4_eq; ring.
Qed.

Lemma rotation_x_apply (a : R) (v : vec4) :
  mat4_apply (rotation_x a) v =
  Vec4 (x4 v) (cos a * y4 v - sin a * z4 v) (sin a * y4 v + cos a * z4 v) (w4 v).
Proof.
  destruct v. unfold mat4_apply, rotation_x, vec4_add, vec4_scale. cbn.
  apply vec4_eq; ring.
Qed.

Lemma rotation_y_apply (a : R) (v : vec4) :
  mat4_apply (rotation_y a) v =
  Vec4 (cos a * x4 v + sin a * z4 v) (y4 v) (cos a * z4 v - sin a * x4 v) (w4 v).
Proof.
  destruct v. unfold mat4_apply, rotation_y, vec4_add, vec4_scale. cbn.
  apply vec4_eq; ring.
Qed.

Lemma rotation_z_apply (a : R) (v : vec4) :
  mat4_apply (rotation_z a) v =
  Vec4 (cos a * x4 v - sin a * y4 v) (sin a * x4 v + cos a * y4 v) (z4 v) (w4 v).
Proof.
  destruct v. unfold mat4_apply, rotation_z, vec4_add, vec4_scale. cbn.
  apply vec4_eq; ring.
Qed.

Lemma scaling_matrix_apply (s : vec3) (v : vec4) :
  mat4_apply (scaling_matrix s) v =
  Vec4 (x3 s * x4 v) (y3 s * y4 v) (z3 s * z4 v) (w4 v).
Proof.
  destruct v. unfold mat4_apply, scaling_matrix, vec4_add, vec4_scale. cbn.
  apply vec4_eq; ring.
Qed.

Lemma model_matrix_apply (s : vec3) (rx ry rz : R) (p : vec3) (v : vec4) :
  mat4_apply (model_matrix s rx ry rz p) v =
  mat4_apply (translation_matrix p)
    (mat4_apply (rotation_x (radians rx))
       (mat4_apply (rotation_y (radians ry))
          (mat4_apply (rotation_z (radians rz))
             (mat4_apply (scaling_matrix s) v)))).
Proof. rewrite model_matrix_product, !mat4_apply_mul. reflexivity. Qed.

Lemma model_matrix_origin (s : vec3) (rx ry rz : R) (p : vec3) :
  mat4_apply (model_matrix s rx ry rz p) (Vec4 0 0 0 1) = Vec4 (x3 p) (y3 p) (z3 p) 1.
Proof.
  rewrite model_matrix_apply, scaling_matrix_apply. cbn [x4 y4 z4 w4].
  rewrite rotation_z_apply. cbn [x4 y4 z4 w4].
  rewrite rotation_y_apply. cbn [x4 y4 z4 w4].
  rewrite rotation_x_apply. cbn [x4 y4 z4 w4].
  rewrite translation_matrix_apply. cbn [x4 y4 z4 w4].
  apply vec4_eq; ring.
Qed.

Lemma model_matrix_affine (s : vec3) (rx ry rz : R) (p : vec3) (v : vec4) :
  w4 (mat4_apply (model_matrix s rx ry rz p) v) = w4 v.
Proof.
  rewrite model_matrix_apply, translation_matrix_apply, rotation_x_apply,
    rotation_y_apply, rotation_z_apply, scaling_matrix_apply. reflexivity.
Qed.

Lemma model_matrix_direction (s : vec3) (rx ry rz : R) (p q : vec3) (x y z : R) :
  mat4_apply (model_matrix s rx ry rz p) (Vec4 x y z 0) =
  mat4_apply (model_matrix s rx ry rz q) (Vec4 x y z 0).
Proof.
  rewrite !model_matrix_apply.
  set (u := mat4_apply (rotation_x (radians rx)) _).
  assert (Hu : w4 u = 0).
  { unfold u. rewrite rotation_x_apply, rotation_y_apply, rotation_z_apply,
      scaling_matrix_apply. reflexivity. }
  rewrite !translation_matrix_apply, Hu. apply vec4_eq; ring.
Qed.

Lemma tree_matrix_axis (pos : vec3) (time : R) (s : vec3) (y : R) :
  mat4_apply (tree_matrix pos time s) (Vec4 0 y 0 1) =
  Vec4 (x3 pos) (y3 pos + y3 s * y) (z3 pos) 1.
Proof.
  unfold tree_matrix.
  rewrite translate_identity, rotate_identity_y, scale_identity, !mat4_apply_mul.
  rewrite scaling_matrix_apply. cbn [x4 y4 z4 w4].
  rewrite rotation_y_apply. cbn [x4 y4 z4 w4].
  rewrite translation_matrix_apply. cbn [x4 y4 z4 w4].
  apply vec4_eq; ring.
Qed.

End ModelMatrix.

(** X16. Translation is applied last: with a ShaderManager attached,
    the matrix [SetTransformations] pushes sends the object's local
    origin to [positionXYZ] whatever the scale and the three angles,
    keeps the fourth coordinate of every vector, and moves directions
    (fourth coordinate 0) independently of [positionXYZ]. *)
Theorem SetTransformations_places_origin
    (w : Scene.World) (scaleXYZ : vec3) (X Y Z : R) (positionXYZ : vec3) :
  m_pShaderManager (Scene.this w) = ShaderPtr ->
  exists model,
    SetTransformations scaleXYZ X Y Z positionXYZ w =
      Returns tt w [SetUniform "model" (UMat4 model)]
    /\ mat4_apply model (Vec4 0 0 0 1) =
         Vec4 (x3 positionXYZ) (y3 positionXYZ) (z3 positionXYZ) 1
    /\ (forall v, w4 (mat4_apply model v) = w4 v)
    /\ (forall x y z other,
          mat4_apply model (Vec4 x y z 0) =
          mat4_apply (model_matrix scaleXYZ X Y Z other) (Vec4 x y z 0)).
Proof.
  intros Hp. exists (model_matrix scaleXYZ X Y Z positionXYZ).
  split; [apply SetTransformations_attached; exact Hp|].
  split; [apply model_matrix_origin|].
  split; [intros v; apply model_matrix_affine|].
  intros x y z other. apply model_matrix_direction.
Qed.

Lemma SetTransformations_places_origin_witness :
  exists model,
    SetTransformations (Vec3 25 5 10) 90 0 0 (Vec3 0 9 (-36)) demo_world =
      Returns tt demo_world [SetUniform "model" (UMat4 model)]
    /\ mat4_apply model (Vec4 0 0 0 1) = Vec4 0 9 (-36) 1
    /\ (forall v, w4 (mat4_apply model v) = w4 v)
    /\ (forall x y z other,
          mat4_apply model (Vec4 x y z 0) =
          mat4_apply (model_matrix (Vec3 25 5 10) 90 0 0 other) (Vec4 x y z 0)).
Proof.
  apply (SetTransformations_places_origin demo_world (Vec3 25 5 10) 90 0 0 (Vec3 0 9 (-36))).
  reflexivity.
Defined.

Lemma texture_events_no_model (sm : SceneManager) (tag0 : string) :
  List.filter is_model_write (texture_events sm tag0) = [].
Proof.
  unfold texture_events. cbv zeta. cbn [List.filter is_model_write String.eqb].
  destruct (slot_of tag0 (registered sm) 0 =? -1)%Z; [reflexivity|].
  destruct (m_textureIDs sm !! Z.to_nat (slot_of tag0 (registered sm) 0));
    reflexivity.
Qed.

Lemma steps_events_models (sm : SceneManager) (steps : list DrawStep) :
  List.filter is_model_write (flat_map (step_events sm) steps) =
  map (fun d => SetUniform "model" (UMat4 (step_model d))) steps.
Proof.
  induction steps as [|d steps IH]; [reflexivity|].
  cbn [flat_map map]. rewrite List.filter_app, IH. f_equal.
  unfold step_events.
  change (List.filter is_model_write (SetUniform "model" (UMat4 (step_model d)) :: ?l))
    with (SetUniform "model" (UMat4 (step_model d)) :: List.filter is_model_write l).
  rewrite List.filter_app.
  destruct (step_paint d) as [tag0|color]; cbn [paint_events].
  - rewrite List.filter_app, texture_events_no_model. reflexivity.
  - reflexivity.
Qed.

(** X17. A tree turns about its own vertical axis: with a
    ShaderManager attached, drawing one tree pushes two model matrices,
    the trunk's and then the canopy's, and whatever the two clock
    readings are, the trunk's matrix sends the local point (0, y, 0)
    to the point 3y above the tree position and the canopy's sends it
    to the point 1.5 + 3y above the tree position. *)
Theorem RenderScene_tree_axis (w : Scene.World) (treePos : vec3) :
  m_pShaderManager (Scene.this w) = ShaderPtr ->
  registry_ok (Scene.this w) ->
  exists w' e trunk canopy,
    RenderScene_tree treePos w = Returns tt w' e
    /\ List.filter is_model_write e =
         [SetUniform "model" (UMat4 trunk); SetUniform "model" (UMat4 canopy)]
    /\ List.filter is_draw e = [DrawMesh Cylinder; DrawMesh Cone]
    /\ forall y : R,
         mat4_apply trunk (Vec4 0 y 0 1) =
           Vec4 (x3 treePos) (y3 treePos + 3 * y) (z3 treePos) 1
         /\ mat4_apply canopy (Vec4 0 y 0 1) =
              Vec4 (x3 treePos) (y3 treePos + 1.5 + 3 * y) (z3 treePos) 1.
Proof.
  intros Hp Hok. destruct w as [sm fs gt gn tm].
  pose proof (RenderScene_tree_run
                {| Scene.this := sm; files := fs; gl_textures := gt; gl_names := gn;
                   Scene.glfw_time := tm |} Hp Hok treePos tm) as Hrun.
  do 2 eexists.
  exists (tree_matrix treePos (tm 0%nat) (Vec3 0.5 3 0.5)),
    (tree_matrix (vec3_add treePos (Vec3 0 1.5 0)) (tm 1%nat) (Vec3 2 3 2)).
  split; [exact Hrun|].
  split; [apply steps_events_models|]. split; [apply steps_events_draws|].
  intros y. rewrite !tree_matrix_axis. cbn [x3 y3 z3 vec3_add].
    split; apply vec4_eq; lra.
Qed.

Lemma RenderScene_tree_axis_witness :
  exists w' e trunk canopy,
    RenderScene_tree (Vec3 10 (-1) 5) prepared_world = Returns tt w' e
    /\ List.filter is_model_write e =
         [SetUniform "model" (UMat4 trunk); SetUniform "model" (UMat4 canopy)]
    /\ List.filter is_draw e = [DrawMesh Cylinder; DrawMesh Cone]
    /\ forall y : R,
         mat4_apply trunk (Vec4 0 y 0 1) = Vec4 10 (-1 + 3 * y) 5 1
         /\ mat4_apply canopy (Vec4 0 y 0 1) = Vec4 10 (-1 + 1.5 + 3 * y) 5 1.
Proof.
  apply (RenderScene_tree_axis prepared_world (Vec3 10 (-1) 5)); apply prepared_world_ok.
Defined.

Section Lengths.

Local Open Scope R_scope.

Lemma cos2_sin2 (a : R) : cos a * cos a + sin a * sin a = 1.
Proof. pose proof (sin2_cos2 a) as H. unfold Rsqr in H. lra. Qed.

Lemma rot_pair (c s p q : R) :
  c * c + s * s = 1 ->
  (c * p - s * q) * (c * p - s * q) + (s * p + c * q) * (s * p + c * q) =
  p * p + q * q.
Proof.
  intros H. transitivity ((c * c + s * s) * (p * p + q * q)); [ring|].
  rewrite H. ring.
Qed.

Lemma rotation_x_norm2 (a : R) (v : vec4) :
  norm2 (mat4_apply (rotation_x a) v) = norm2 v.
Proof.
  rewrite rotation_x_apply. unfold norm2. cbn [x4 y4 z4].
  pose proof (rot_pair (cos a) (sin a) (y4 v) (z4 v) (cos2_sin2 a)) as E.
  lra.
Qed.

Lemma rotation_y_norm2 (a : R) (v : vec4) :
  norm2 (mat4_apply (rotation_y a) v) = norm2 v.
Proof.
  rewrite rotation_y_apply. unfold norm2. cbn [x4 y4 z4].
  pose proof (rot_pair (cos a) (sin a) (z4 v) (x4 v) (cos2_sin2 a)) as E.
  replace ((cos a * x4 v + sin a * z4 v) * (cos a * x4 v + sin a * z4 v))
    with ((sin a * z4 v + cos a * x4 v) * (sin a * z4 v + cos a * x4 v)) by ring.
  lra.
Qed.

Lemma rotation_z_norm2 (a : R) (v : vec4) :
  norm2 (mat4_apply (rotation_z a) v) = norm2 v.
Proof.
  rewrite rotation_z_apply. unfold norm2. cbn [x4 y4 z4].
  pose proof (rot_pair (cos a) (sin a) (x4 v) (y4 v) (cos2_sin2 a)) as E.
  lra.
Qed.

Lemma model_matrix_norm2 (s : vec3) (rx ry rz : R) (p : vec3) (x y z : R) :
  norm2 (mat4_apply (model_matrix s rx ry rz p) (Vec4 x y z 0)) =
  (x3 s * x) * (x3 s * x) + (y3 s * y) * (y3 s * y) + (z3 s * z) * (z3 s * z).
Proof.
  rewrite model_matrix_apply.
  set (u := mat4_apply (rotation_x (radians rx)) _).
  assert (Hu : w4 u = 0).
  { unfold u. rewrite rotation_x_apply, rotation_y_apply, rotation_z_apply,
      scaling_matrix_apply. reflexivity. }
  assert (Hn : norm2 (mat4_apply (translation_matrix p) u) = norm2 u).
  { rewrite translation_matrix_apply. unfold norm2. cbn [x4 y4 z4]. rewrite Hu. ring. }
  rewrite Hn. unfold u.
  rewrite rotation_x_norm2, rotation_y_norm2, rotation_z_norm2, scaling_matrix_apply.
  reflexivity.
Qed.

End Lengths.

(** X18. Scale is applied first, along the object's own axes, and the
    rotations do not distort: with a ShaderManager attached, the
    matrix [SetTransformations] pushes sends a local direction
    (x, y, z) to a direction of squared length
    (sx x)^2 + (sy y)^2 + (sz z)^2, whatever the angles and the
    position. *)
Theorem SetTransformations_scales_then_rotates
    (w : Scene.World) (scaleXYZ : vec3) (X Y Z : R) (positionXYZ : vec3) :
  m_pShaderManager (Scene.this w) = ShaderPtr ->
  exists model,
    SetTransformations scaleXYZ X Y Z positionXYZ w =
      Returns tt w [SetUniform "model" (UMat4 model)]
    /\ forall x y z : R,
         norm2 (mat4_apply model (Vec4 x y z 0)) =
         ((x3 scaleXYZ * x) * (x3 scaleXYZ * x)
          + (y3 scaleXYZ * y) * (y3 scaleXYZ * y)
          + (z3 scaleXYZ * z) * (z3 scaleXYZ * z))%R.
Proof.
  intros Hp. exists (model_matrix scaleXYZ X Y Z positionXYZ).
  split; [apply SetTransformations_attached; exact Hp|].
  intros x y z. apply model_matrix_norm2.
Qed.

Lemma SetTransformations_scales_then_rotates_witness :
  exists model,
    SetTransformations (Vec3 10 5 10) 30 45 60 (Vec3 (-10) 0 (-20)) demo_world =
      Returns tt demo_world [SetUniform "model" (UMat4 model)]
    /\ forall x y z : R,
         norm2 (mat4_apply model (Vec4 x y z 0)) =
         ((10 * x) * (10 * x) + (5 * y) * (5 * y) + (10 * z) * (10 * z))%R.
Proof.
  apply (SetTransformations_scales_then_rotates demo_world (Vec3 10 5 10) 30 45 60
           (Vec3 (-10) 0 (-20))).
  reflexivity.
Defined.

Section Frames.

Context `{View.CameraClass}.

Local Open Scope R_scope.

Lemma on_key_camera_move (k : View.Key) (d : View.Camera_Movement) (w : View.World) :
  View.on_key k (View.camera_move d) w =
  if View.keys w k
  then View.set_camera
         (View.ProcessKeyboard d (View.gDeltaTime (View.globals w))
            (View.m_Camera (View.this w))) w
  else w.
Proof. reflexivity. Qed.

Lemma on_key_camera_move_facts (k : View.Key) (d : View.Camera_Movement)
    (w : View.World) :
  let w' := View.on_key k (View.camera_move d) w in
  View.m_Camera (View.this w') =
    (if View.keys w k
     then View.ProcessKeyboard d (View.gDeltaTime (View.globals w))
            (View.m_Camera (View.this w))
     else View.m_Camera (View.this w))
  /\ View.globals w' = View.globals w
  /\ View.keys w' = View.keys w
  /\ View.glfw_time w' = View.glfw_time w.
Proof.
  cbv zeta. unfold View.on_key. destruct (View.keys w k); repeat split.
Qed.

Lemma on_key_set_orthographic_facts (k : View.Key) (b : bool) (w : View.World) :
  let w' := View.on_key k (View.set_orthographic b) w in
  View.this w' = View.this w
  /\ View.gDeltaTime (View.globals w') = View.gDeltaTime (View.globals w)
  /\ View.gLastFrame (View.globals w') = View.gLastFrame (View.globals w)
  /\ View.gLastX (View.globals w') = View.gLastX (View.globals w)
  /\ View.gLastY (View.globals w') = View.gLastY (View.globals w)
  /\ View.gFirstMouse (View.globals w') = View.gFirstMouse (View.globals w)
  /\ View.keys w' = View.keys w
  /\ View.glfw_time w' = View.glfw_time w.
Proof.
  cbv zeta. unfold View.on_key. destruct (View.keys w k); repeat split.
Qed.

Lemma moved_cons (dt : R) (f : View.Key -> bool) (k : View.Key)
    (d : View.Camera_Movement) (rest : list (View.Key * View.Camera_Movement))
    (c : View.Camera) :
  moved dt (map snd (List.filter (fun km => f (fst km)) ((k, d) :: rest))) c =
  moved dt (map snd (List.filter (fun km => f (fst km)) rest))
        (if f k then View.ProcessKeyboard d dt c else c).
Proof. cbn [List.filter fst]. destruct (f k); reflexivity. Qed.

(** What the keyboard pass leaves of the world: the camera taken
    through the held moves, the projection mode, nothing else. *)
Lemma ProcessKeyboardEvents_world (w : View.World) :
  let w' := fst (View.ProcessKeyboardEvents w) in
  View.m_Camera (View.this w') =
    moved (View.gDeltaTime (View.globals w)) (held_moves w) (View.m_Camera (View.this w))
  /\ View.gDeltaTime (View.globals w') = View.gDeltaTime (View.globals w)
  /\ View.gLastFrame (View.globals w') = View.gLastFrame (View.globals w)
  /\ View.gLastX (View.globals w') = View.gLastX (View.globals w)
  /\ View.gLastY (View.globals w') = View.gLastY (View.globals w)
  /\ View.gFirstMouse (View.globals w') = View.gFirstMouse (View.globals w)
  /\ View.keys w' = View.keys w
  /\ View.glfw_time w' = View.glfw_time w.
Proof.
  cbv zeta. unfold View.ProcessKeyboardEvents. cbn [fst].
  set (w1 := View.on_key View.GLFW_KEY_W (View.camera_move View.FORWARD) w).
  set (w2 := View.on_key View.GLFW_KEY_S (View.camera_move View.BACKWARD) w1).
  set (w3 := View.on_key View.GLFW_KEY_A (View.camera_move View.LEFT) w2).
  set (w4 := View.on_key View.GLFW_KEY_D (View.camera_move View.RIGHT) w3).
  set (w5 := View.on_key View.GLFW_KEY_Q (View.camera_move View.UP) w4).
  set (w6 := View.on_key View.GLFW_KEY_E (View.camera_move View.DOWN) w5).
  set (w7 := View.on_key View.GLFW_KEY_P (View.set_orthographic false) w6).
  destruct (on_key_camera_move_facts View.GLFW_KEY_W View.FORWARD w)
    as (C1 & G1 & K1 & T1). fold w1 in C1, G1, K1, T1.
  destruct (on_key_camera_move_facts View.GLFW_KEY_S View.BACKWARD w1)
    as (C2 & G2 & K2 & T2). fold w2 in C2, G2, K2, T2.
  destruct (on_key_camera_move_facts View.GLFW_KEY_A View.LEFT w2)
    as (C3 & G3 & K3 & T3). fold w3 in C3, G3, K3, T3.
  destruct (on_key_camera_move_facts View.GLFW_KEY_D View.RIGHT w3)
    as (C4 & G4 & K4 & T4). fold w4 in C4, G4, K4, T4.
  destruct (on_key_camera_move_facts View.GLFW_KEY_Q View.UP w4)
    as (C5 & G5 & K5 & T5). fold w5 in C5, G5, K5, T5.
  destruct (on_key_camera_move_facts View.GLFW_KEY_E View.DOWN w5)
    as (C6 & G6 & K6 & T6). fold w6 in C6, G6, K6, T6.
  destruct (on_key_set_orthographic_facts View.GLFW_KEY_P false w6)
    as (S7 & D7 & L7 & X7 & Y7 & F7 & K7 & T7).
  fold w7 in S7, D7, L7, X7, Y7, F7, K7, T7.
  destruct (on_key_set_orthographic_facts View.GLFW_KEY_O true w7)
    as (S8 & D8 & L8 & X8 & Y8 & F8 & K8 & T8).
  rewrite S8, D8, L8, X8, Y8, F8, K8, T8, S7, D7, L7, X7, Y7, F7, K7, T7.
  rewrite G6, G5, G4, G3, G2, G1, K6, K5, K4, K3, K2, K1, T6, T5, T4, T3, T2, T1.
  split; [|repeat split].
  rewrite C6, C5, C4, C3, C2, C1, K5, K4, K3, K2, K1, G5, G4, G3, G2, G1.
  unfold held_moves, movement_keys.
  rewrite !(moved_cons _ (View.keys w)). reflexivity.
Qed.

Lemma PrepareSceneView_world (w : View.World) :
  fst (View.PrepareSceneView w) =
  fst (View.ProcessKeyboardEvents (View.frame_timing w)).
Proof.
  unfold View.PrepareSceneView.
  destruct (View.ProcessKeyboardEvents (View.frame_timing w)). reflexivity.
Qed.

Lemma PrepareSceneView_timing (w : View.World) :
  let w' := fst (View.PrepareSceneView w) in
  let currentFrame := to_float (View.glfw_time w 0%nat) in
  View.gDeltaTime (View.globals w') =
    to_float (currentFrame - View.gLastFrame (View.globals w))
  /\ View.gLastFrame (View.globals w') = currentFrame
  /\ (forall n, View.glfw_time w' n = View.glfw_time w (S n))
  /\ View.keys w' = View.keys w
  /\ View.gLastX (View.globals w') = View.gLastX (View.globals w)
  /\ View.gLastY (View.globals w') = View.gLastY (View.globals w)
  /\ View.gFirstMouse (View.globals w') = View.gFirstMouse (View.globals w).
Proof.
  cbv zeta. rewrite PrepareSceneView_world.
  destruct (ProcessKeyboardEvents_world (View.frame_timing w))
    as (_ & Hd & Hl & Hx & Hy & Hf & Hk & Ht).
  rewrite Hd, Hl, Hx, Hy, Hf, Hk, Ht. repeat split.
Qed.

(** X19. In one frame the camera is taken through the moves of the
    keys that are down, in the order W, S, A, D, Q, E, each for this
    frame's time step: the clock reading of the frame, narrowed to
    [float], minus the one kept from the frame before, as a float
    difference. Escape, P and O never move it. The reading and the
    difference are taken in the range of [float]. *)
Theorem PrepareSceneView_moves_camera (w : View.World) :
  float_range (View.glfw_time w 0%nat) ->
  float_range (to_float (View.glfw_time w 0%nat) - View.gLastFrame (View.globals w)) ->
  let currentFrame := to_float (View.glfw_time w 0%nat) in
  let dt := to_float (currentFrame - View.gLastFrame (View.globals w)) in
  View.m_Camera (View.this (fst (View.PrepareSceneView w))) =
    moved dt (held_moves w) (View.m_Camera (View.this w)).
Proof.
  intros _ _. cbv zeta. rewrite PrepareSceneView_world.
  destruct (ProcessKeyboardEvents_world (View.frame_timing w)) as (Hc & _).
  rewrite Hc. reflexivity.
Qed.

(** X20. Over two frames in a row the time step of the second is the
    float difference of the two clock readings, each narrowed to
    [float] first, whatever the keys and the time kept before; the
    time kept is the second reading as a [float]; each frame reads
    the clock once, and the mouse position kept in the globals is
    not touched. The readings and their difference are taken in the
    range of [float]. *)
Theorem PrepareSceneView_two_frames (w : View.World) :
  float_range (View.glfw_time w 0%nat) ->
  float_range (View.glfw_time w 1%nat) ->
  float_range (to_float (View.glfw_time w 1%nat) - to_float (View.glfw_time w 0%nat)) ->
  let w1 := fst (View.PrepareSceneView w) in
  let w2 := fst (View.PrepareSceneView w1) in
  View.gDeltaTime (View.globals w2) =
    to_float (to_float (View.glfw_time w 1%nat) - to_float (View.glfw_time w 0%nat))
  /\ View.gLastFrame (View.globals w2) = to_float (View.glfw_time w 1%nat)
  /\ (forall n, View.glfw_time w2 n = View.glfw_time w (S (S n)))
  /\ View.gLastX (View.globals w2) = View.gLastX (View.globals w)
  /\ View.gLastY (View.globals w2) = View.gLastY (View.globals w)
  /\ View.gFirstMouse (View.globals w2) = View.gFirstMouse (View.globals w).
Proof.
  intros _ _ _. cbv zeta.
  destruct (PrepareSceneView_timing w) as (_ & Hl1 & Ht1 & _ & Hx1 & Hy1 & Hf1).
  destruct (PrepareSceneView_timing (fst (View.PrepareSceneView w)))
    as (Hd2 & Hl2 & Ht2 & _ & Hx2 & Hy2 & Hf2).
  rewrite Hd2, Hl2, Hx2, Hy2, Hf2, Hl1, Hx1, Hy1, Hf1, !Ht1.
  repeat split. intros n. rewrite Ht2, Ht1. reflexivity.
Qed.

(** X21. Without a ShaderManager a frame pushes no uniform: its only
    event is the window-close request of the Escape key; the camera
    is still moved by the keys that are down, for the float
    difference of the narrowed reading and the time kept, and the
    narrowed reading is kept. The reading and the difference are
    taken in the range of [float]. *)
Theorem PrepareSceneView_null_shader (w : View.World) :
  View.m_pShaderManager (View.this w) = NULL ->
  float_range (View.glfw_time w 0%nat) ->
  float_range (to_float (View.glfw_time w 0%nat) - View.gLastFrame (View.globals w)) ->
  snd (View.PrepareSceneView w) = close_request w
  /\ View.m_Camera (View.this (fst (View.PrepareSceneView w))) =
       moved (to_float (to_float (View.glfw_time w 0%nat)
                        - View.gLastFrame (View.globals w)))
             (held_moves w) (View.m_Camera (View.this w))
  /\ View.gLastFrame (View.globals (fst (View.PrepareSceneView w))) =
       to_float (View.glfw_time w 0%nat).
Proof.
  intros Hp _ _. split; [|split].
  - unfold View.PrepareSceneView.
    destruct (View.ProcessKeyboardEvents (View.frame_timing w)) as [w1 polled] eqn:Hkeys.
    cbn [snd].
    pose proof (ProcessKeyboardEvents_shader (View.frame_timing w)) as Hs.
    rewrite Hkeys in Hs. cbn [fst View.frame_timing View.this] in Hs.
    rewrite Hs, Hp, app_nil_r.
    unfold View.ProcessKeyboardEvents in Hkeys. injection Hkeys as _ <-. reflexivity.
  - rewrite PrepareSceneView_world.
    destruct (ProcessKeyboardEvents_world (View.frame_timing w)) as (Hc & _).
    rewrite Hc. reflexivity.
  - apply (PrepareSceneView_timing w).
Qed.

End Frames.

Lemma FLT_MAX_value : FLT_MAX = 340282346638528859811704183484516925440%R.
Proof.
  unfold FLT_MAX. rewrite (pow2_nonneg_IZR 104) by lia.
  rewrite <- mult_IZR. reflexivity.
Qed.

Lemma float_range_below (x : R) : (Rabs x <= 33554432)%R -> float_range x.
Proof. intros H. unfold float_range. rewrite FLT_MAX_value. lra. Qed.

Lemma to_float_small_diff (a b : Z) :
  (Z.abs (a - b) < 2 ^ 24)%Z -> to_float (IZR a - IZR b) = (IZR a - IZR b)%R.
Proof. intros H. rewrite <- minus_IZR. apply to_float_IZR. exact H. Qed.

(** At a clock reading of [2^24 + 1] seconds, the frame before at
    [2^24]: the reading narrows to [2^24], so W moves the camera for a
    time step of 0. *)
Lemma PrepareSceneView_moves_camera_witness :
  View.m_Camera (View.this (fst (View.PrepareSceneView
    (late_view_world ShaderPtr 16777216 16777217 16777218 [View.GLFW_KEY_W])))) =
  demo_camera_move View.FORWARD 0 (Vec3 0 5 12, 45%R).
Proof.
  pose proof (PrepareSceneView_moves_camera
                (late_view_world ShaderPtr 16777216 16777217 16777218 [View.GLFW_KEY_W]))
    as H.
  cbv zeta in H.
  cbn [late_view_world View.glfw_time View.globals View.gLastFrame] in H.
  rewrite to_float_2p24_1, Rminus_diag, to_float_0 in H.
  apply H; apply float_range_below.
  - rewrite Rabs_pos_eq by lra. lra.
  - rewrite Rabs_R0. lra.
Defined.

(** Clock readings [2^24] and then [2^24 + 1]: the second frame has a
    time step of 0 and keeps [2^24]. *)
Lemma PrepareSceneView_two_frames_witness :
  let w := late_view_world ShaderPtr 0 16777216 16777217 [] in
  let w2 := fst (View.PrepareSceneView (fst (View.PrepareSceneView w))) in
  View.gDeltaTime (View.globals w2) = 0%R
  /\ View.gLastFrame (View.globals w2) = 16777216%R
  /\ (forall n, View.glfw_time w2 n = View.glfw_time w (S (S n)))
  /\ View.gLastX (View.globals w2) = View.gLastX (View.globals w)
  /\ View.gLastY (View.globals w2) = View.gLastY (View.globals w)
  /\ View.gFirstMouse (View.globals w2) = View.gFirstMouse (View.globals w).
Proof.
  pose proof (PrepareSceneView_two_frames
                (late_view_world ShaderPtr 0 16777216 16777217 [])) as H.
  cbv zeta in H. cbn [late_view_world View.glfw_time] in H.
  rewrite to_float_2p24_1, to_float_2p24, Rminus_diag, to_float_0 in H.
  apply H; apply float_range_below.
  - rewrite Rabs_pos_eq by lra. lra.
  - rewrite Rabs_pos_eq by lra. lra.
  - rewrite Rabs_R0. lra.
Defined.

Lemma PrepareSceneView_null_shader_witness :
  let w := late_view_world NULL 16777216 16777217 16777218
             [View.GLFW_KEY_ESCAPE; View.GLFW_KEY_W] in
  snd (View.PrepareSceneView w) = [GlfwSetWindowShouldClose]
  /\ View.m_Camera (View.this (fst (View.PrepareSceneView w))) =
     demo_camera_move View.FORWARD 0 (Vec3 0 5 12, 45%R)
  /\ View.gLastFrame (View.globals (fst (View.PrepareSceneView w))) = 16777216%R.
Proof.
  pose proof (PrepareSceneView_null_shader
                (late_view_world NULL 16777216 16777217 16777218
                   [View.GLFW_KEY_ESCAPE; View.GLFW_KEY_W]) eq_refl) as H.
  cbn [late_view_world View.glfw_time View.globals View.gLastFrame] in H.
  rewrite to_float_2p24_1, Rminus_diag, to_float_0 in H.
  apply H; apply float_range_below.
  - rewrite Rabs_pos_eq by lra. lra.
  - rewrite Rabs_R0. lra.
Defined.

Section MouseEvents.

Context `{Mouse.MouseCameraClass}.

Local Open Scope R_scope.

(** X22. The first mouse position event a ViewManager receives turns
    the camera by offsets (0, 0), wherever the pointer is; the
    position, narrowed to [float], is kept for the next event. *)
Theorem Mouse_Position_Callback_first_event (x y : R) (w : View.World) :
  View.gFirstMouse (View.globals w) = true ->
  let w' := Mouse.Mouse_Position_Callback Mouse.ViewPtr x y w in
  View.m_Camera (View.this w') =
    Mouse.ProcessMouseMovement 0 0 (View.m_Camera (View.this w))
  /\ View.gLastX (View.globals w') = to_float x
  /\ View.gLastY (View.globals w') = to_float y
  /\ View.gFirstMouse (View.globals w') = false.
Proof.
  intros Hf. cbv zeta. unfold Mouse.Mouse_Position_Callback. rewrite Hf. cbn.
  rewrite !Rminus_diag, to_float_0. repeat split.
Qed.

(** X23. Two mouse position events in a row, from any state: the
    second turns the camera by the movement between the two
    positions as the code holds them, each narrowed to [float]:
    (float(x2) - float(x1), float(y1) - float(y2)) as float
    differences, the vertical offset reversed. The positions and
    the differences are taken in the range of [float]. *)
Theorem Mouse_Position_Callback_drag (p : Mouse.ViewManagerPtr)
    (x1 y1 x2 y2 : R) (w : View.World) :
  float_range x1 -> float_range y1 -> float_range x2 -> float_range y2 ->
  float_range (to_float x2 - to_float x1) ->
  float_range (to_float y1 - to_float y2) ->
  let w1 := Mouse.Mouse_Position_Callback p x1 y1 w in
  let w2 := Mouse.Mouse_Position_Callback Mouse.ViewPtr x2 y2 w1 in
  View.m_Camera (View.this w2) =
    Mouse.ProcessMouseMovement
      (to_float (to_float x2 - to_float x1))
      (to_float (to_float y1 - to_float y2))
      (View.m_Camera (View.this w1))
  /\ View.gLastX (View.globals w2) = to_float x2
  /\ View.gLastY (View.globals w2) = to_float y2
  /\ View.gFirstMouse (View.globals w2) = false.
Proof.
  intros _ _ _ _ _ _. cbv zeta. unfold Mouse.Mouse_Position_Callback.
  destruct (View.gFirstMouse (View.globals w)) eqn:Hf, p; cbn; rewrite ?Hf; cbn;
    repeat split.
Qed.

(** X24. When the window carries no ViewManager (a NULL user pointer)
    the mouse callbacks leave the ViewManager as it is: the wheel
    changes nothing at all, a position event only the position kept
    in the globals. With a ViewManager, neither callback changes the
    frame timing, the projection mode, the clock or the
    ShaderManager pointer. *)
Theorem mouse_callbacks_frame (p : Mouse.ViewManagerPtr) (x y : R) (w : View.World) :
  Mouse.Mouse_Scroll_Callback Mouse.NullView x y w = w
  /\ View.this (Mouse.Mouse_Position_Callback Mouse.NullView x y w) = View.this w
  /\ (forall w', w' = Mouse.Mouse_Position_Callback p x y w \/
                 w' = Mouse.Mouse_Scroll_Callback p x y w ->
        View.gDeltaTime (View.globals w') = View.gDeltaTime (View.globals w)
        /\ View.gLastFrame (View.globals w') = View.gLastFrame (View.globals w)
        /\ View.bOrthographicProjection (View.globals w') =
             View.bOrthographicProjection (View.globals w)
        /\ View.glfw_time w' = View.glfw_time w
        /\ View.keys w' = View.keys w
        /\ View.m_pShaderManager (View.this w') = View.m_pShaderManager (View.this w)).
Proof.
  split; [reflexivity|]. split.
  - unfold Mouse.Mouse_Position_Callback.
    destruct (View.gFirstMouse (View.globals w)); reflexivity.
  - intros w' [-> | ->].
    + unfold Mouse.Mouse_Position_Callback.
      destruct (View.gFirstMouse (View.globals w)), p; cbn; repeat split.
    + unfold Mouse.Mouse_Scroll_Callback. destruct p; cbn; repeat split.
Qed.

End MouseEvents.

Lemma Mouse_Position_Callback_first_event_witness :
  let w' := Mouse.Mouse_Position_Callback Mouse.ViewPtr 640 360 (demo_view_world []) in
  View.m_Camera (View.this w') =
    Mouse.ProcessMouseMovement 0 0 (View.m_Camera (View.this (demo_view_world [])))
  /\ View.gLastX (View.globals w') = 640%R
  /\ View.gLastY (View.globals w') = 360%R
  /\ View.gFirstMouse (View.globals w') = false.
Proof.
  pose proof (Mouse_Position_Callback_first_event 640 360 (demo_view_world []) eq_refl)
    as H.
  rewrite (to_float_IZR 640), (to_float_IZR 360) in H by (cbn; lia). exact H.
Defined.

(** A pointer at x = [2^24 + 1] and then [2^24 + 2]: the first is
    kept as [2^24], so the camera is turned by 2, not 1. *)
Lemma Mouse_Position_Callback_drag_witness :
  let w1 := Mouse.Mouse_Position_Callback Mouse.ViewPtr 16777217 360 (demo_view_world []) in
  let w2 := Mouse.Mouse_Position_Callback Mouse.ViewPtr 16777218 350 w1 in
  View.m_Camera (View.this w2) =
    Mouse.ProcessMouseMovement 2 10 (View.m_Camera (View.this w1))
  /\ View.gLastX (View.globals w2) = 16777218%R
  /\ View.gLastY (View.globals w2) = 350%R
  /\ View.gFirstMouse (View.globals w2) = false.
Proof.
  pose proof (Mouse_Position_Callback_drag Mouse.ViewPtr 16777217 360 16777218 350
                (demo_view_world [])) as H.
  rewrite to_float_2p24_1, to_float_2p24_2, (to_float_IZR 360), (to_float_IZR 350) in H
    by (cbn; lia).
  rewrite (to_float_small_diff 16777218 16777216), (to_float_small_diff 360 350) in H
    by (cbn; lia).
  replace (16777218 - 16777216)%R with 2%R in H by lra.
  replace (360 - 350)%R with 10%R in H by lra.
  apply H; apply float_range_below; rewrite Rabs_pos_eq by lra; lra.
Defined.
